(** * UptimeSquirrel agent: sampling-and-delivery pipeline

    A shallow embedding of [uptimesquirrel_agent/agent.py] (v1.2.7): the
    rate-bearing collectors ([DiskIOCollector], [NetworkCollector]), the
    [MetricBuffer], and the [UptimeSquirrelAgent] methods
    [fetch_remote_config], [get_threshold], [collect_metrics] and
    [report_metrics].

    Conventions.
    - Python [int] is [Z].
    - The arithmetic of the rate collectors is binary64: a Python [float]
      there is a primitive [float], [x / d] is the IEEE division after the
      conversion of the [int] numerator, and [int()] and [round(x, 2)] act
      on the float that the division returns.
    - Where a float is only stored, compared or truncated (thresholds,
      usage percentages, temperatures, the clock of [collect_metrics] and
      of the main loop) it is held as the rational number it stands for,
      a [Q]; comparisons of floats are exact, so they are comparisons of
      these numbers.  Infinities and NaN have no place in these fields.
    - [time.time()] readings and psutil counters are inputs of the
      functions.
    - A Python [dict] keyed by strings is a [gmap string _]; iteration
      follows [map_to_list].
    - A method that mutates [self] takes the object and returns the new
      object; a raised exception is a [Raise] result and leaves the object
      as the code left it at the point of the raise.
    - [logger] calls are modelled only in [report_metrics] and
      [send_alerts]; elsewhere they have no bearing on state and are
      dropped. *)

From Stdlib Require Import QArith Qround Qabs Lqa Floats.
From stdpp Require Import gmap strings list fin_maps.

Local Open Scope Z_scope.

(** ** Python values and exceptions *)

Inductive exn : Type :=
| ZeroDivisionError
| ValueError
| TypeError
| OverflowError.

Inductive result (A : Type) : Type :=
| Ok (a : A)
| Raise (e : exn).

Arguments Ok {A} a.
Arguments Raise {A} e.

#[global] Instance result_ret : MRet result := fun A a => Ok a.
#[global] Instance result_bind : MBind result :=
  fun A B f r => match r with Ok a => f a | Raise e => Raise e end.

(** A number that is an [int] or a [float]. *)
Inductive number : Type :=
| Int (z : Z)
| Float (f : float).

(** [int(x)] on a finite float, given as the number it stands for:
    truncation toward zero. *)
Definition py_int (q : Q) : Z := Z.quot (Qnum q) (Z.pos (Qden q)).

(** Nearest integer, ties to the even neighbour. *)
Definition round_half_even (q : Q) : Z :=
  let f := Qfloor q in
  match (q - inject_Z f ?= 1 # 2)%Q with
  | Lt => f
  | Gt => f + 1
  | Eq => if Z.even f then f else f + 1
  end.

(** *** Binary64 *)

(** The magnitude [m * 2^e] of a finite float. *)
Definition magnitude (m : positive) (e : Z) : Q :=
  match e with
  | Z.neg p => Z.pos m # 2 ^ p
  | _ => inject_Z (Z.pos m * 2 ^ e)
  end.

(** The number a finite float stands for; an infinity and NaN stand for
    none. *)
Definition float_value (f : float) : option Q :=
  match Prim2SF f with
  | S754_zero _ => Some 0%Q
  | S754_finite s m e => Some (if s then - magnitude m e else magnitude m e)%Q
  | S754_infinity _ | S754_nan => None
  end.

(** The float nearest to [n / d], ties to even, with the sign [s]; zero
    for [n = 0]. *)
Definition nearest_float (s : bool) (n : Z) (d : positive) : float :=
  match n with
  | Z.pos _ =>
      let '(m, e, l) := SFdiv_core_binary prec emax n 0 (Z.pos d) 0 in
      SF2Prim (binary_round_aux prec emax s m e l)
  | _ => if s then neg_zero else zero
  end.

(** The conversion of an [int] to a [float] rounds to the nearest float,
    ties to even, and raises [OverflowError] from [2^1024 - 2^970] on, the
    first magnitude whose rounding leaves the finite floats. *)
Definition float_of_int_bound : Z := 2 ^ 1024 - 2 ^ 970.

Definition nearest_float_of_int (x : Z) : float :=
  SF2Prim (binary_normalize prec emax x 0 false).

Definition py_float_of_int (x : Z) : result float :=
  if Z.abs x <? float_of_int_bound
  then Ok (nearest_float_of_int x)
  else Raise OverflowError.

(** [x / d] with an [int] numerator and a [float] denominator: the
    numerator is converted first, then a zero denominator is refused. *)
Definition py_truediv (x : Z) (d : float) : result float :=
  a ← py_float_of_int x;
  if (d =? 0)%float then Raise ZeroDivisionError else Ok (a / d)%float.

(** [int(x)] on a float: NaN raises [ValueError], an infinity
    [OverflowError]. *)
Definition py_int_of_float (f : float) : result Z :=
  match Prim2SF f with
  | S754_nan => Raise ValueError
  | S754_infinity _ => Raise OverflowError
  | S754_zero _ | S754_finite _ _ _ =>
      Ok (py_int (default 0%Q (float_value f)))
  end.

(** [round(x, 2)]: the decimal expansion of [x] is rounded to two places,
    ties to even, and the float nearest to that decimal is returned; the
    sign is kept; zero, the infinities and NaN come back as they are. *)
Definition py_round2 (f : float) : float :=
  match Prim2SF f with
  | S754_finite s m e =>
      nearest_float s (round_half_even (magnitude m e * 100)) 100
  | S754_zero _ | S754_infinity _ | S754_nan => f
  end.

(** Truthiness of [self.last_counters] (None or a dict) and of
    [self.last_time] (None or a float). *)
Definition truthy_dict {A} (o : option (gmap string A)) : bool :=
  match o with
  | Some m => negb (bool_decide (m = ∅))
  | None => false
  end.

Definition truthy_float (o : option float) : bool :=
  match o with
  | Some t => negb (t =? 0)%float
  | None => false
  end.

(** [s.startswith(p)]. *)
Definition startswith (s p : string) : bool := String.prefix p s.

(** ** psutil counter tuples (the fields the agent reads) *)

Module psutil.
Record sdiskio : Type := {
  read_count : Z;
  write_count : Z;
  read_bytes : Z;
  write_bytes : Z
}.

Record snetio : Type := {
  bytes_sent : Z;
  bytes_recv : Z;
  packets_sent : Z;
  packets_recv : Z;
  errin : Z;
  errout : Z;
  dropin : Z;
  dropout : Z
}.
End psutil.

(** ** The two [for key, current in counters.items()] loops

    Both collectors run the same two loops; they differ in the entry they
    build and in the loopback test, which are the parameters here. *)

Section loops.
Context {C E : Type}.
Variable skip : string → bool.
Variable rated : C → C → float → result E.
Variable first : C → E.

(** The loop of the branch with previous data: a key that is skipped or
    that [last_counters] does not hold adds nothing. *)
Fixpoint rate_loop (last : gmap string C) (time_delta : float)
    (items : list (string * C)) (data : gmap string E)
    : result (gmap string E) :=
  match items with
  | [] => Ok data
  | (key, current) :: rest =>
      if skip key then rate_loop last time_delta rest data
      else
        match last !! key with
        | Some previous =>
            match rated current previous time_delta with
            | Ok e => rate_loop last time_delta rest (<[key := e]> data)
            | Raise x => Raise x
            end
        | None => rate_loop last time_delta rest data
        end
  end.

(** The loop of the first run. *)
Fixpoint first_loop (items : list (string * C)) (data : gmap string E)
    : gmap string E :=
  match items with
  | [] => data
  | (key, current) :: rest =>
      if skip key then first_loop rest data
      else first_loop rest (<[key := first current]> data)
  end.
End loops.

(** ** DiskIOCollector *)

Module DiskIOCollector.
Record entry : Type := {
  read_bytes_per_sec : Z;
  write_bytes_per_sec : Z;
  read_iops : number;
  write_iops : number;
  read_count : Z;
  write_count : Z;
  read_bytes : Z;
  write_bytes : Z
}.

Record t : Type := {
  last_counters : option (gmap string psutil.sdiskio);
  last_time : option float
}.

Definition init : t := {| last_counters := None; last_time := None |}.

Definition rated (current previous : psutil.sdiskio) (time_delta : float)
    : result entry :=
  read_rate ← py_truediv
    (psutil.read_bytes current - psutil.read_bytes previous) time_delta;
  write_rate ← py_truediv
    (psutil.write_bytes current - psutil.write_bytes previous) time_delta;
  read_iops ← py_truediv
    (psutil.read_count current - psutil.read_count previous) time_delta;
  write_iops ← py_truediv
    (psutil.write_count current - psutil.write_count previous) time_delta;
  read_bytes_per_sec ← py_int_of_float read_rate;
  write_bytes_per_sec ← py_int_of_float write_rate;
  mret {| read_bytes_per_sec := read_bytes_per_sec;
          write_bytes_per_sec := write_bytes_per_sec;
          read_iops := Float (py_round2 read_iops);
          write_iops := Float (py_round2 write_iops);
          read_count := psutil.read_count current;
          write_count := psutil.write_count current;
          read_bytes := psutil.read_bytes current;
          write_bytes := psutil.write_bytes current |}.

Definition first (current : psutil.sdiskio) : entry :=
  {| read_bytes_per_sec := 0;
     write_bytes_per_sec := 0;
     read_iops := Int 0;
     write_iops := Int 0;
     read_count := psutil.read_count current;
     write_count := psutil.write_count current;
     read_bytes := psutil.read_bytes current;
     write_bytes := psutil.write_bytes current |}.

(** [collect], given the clock reading and the psutil counters.  The
    early [return {}] and a raise both leave [self] as it was. *)
Definition collect (self : t) (current_time : float)
    (counters : gmap string psutil.sdiskio)
    : result (gmap string entry) * t :=
  if bool_decide (counters = ∅) then (Ok ∅, self)
  else
    let io_data :=
      if truthy_dict (last_counters self) && truthy_float (last_time self)
      then
        let time_delta :=
          (current_time - default 0 (last_time self))%float in
        rate_loop (fun _ => false) rated
          (default ∅ (last_counters self)) time_delta
          (map_to_list counters) ∅
      else Ok (first_loop (fun _ => false) first (map_to_list counters) ∅)
    in
    match io_data with
    | Ok d =>
        (Ok d, {| last_counters := Some counters;
                  last_time := Some current_time |})
    | Raise x => (Raise x, self)
    end.
End DiskIOCollector.

(** ** NetworkCollector *)

Module NetworkCollector.
Record entry : Type := {
  bytes_sent : Z;
  bytes_recv : Z;
  packets_sent : Z;
  packets_recv : Z;
  bytes_sent_per_sec : Z;
  bytes_recv_per_sec : Z;
  packets_sent_per_sec : number;
  packets_recv_per_sec : number;
  errin : Z;
  errout : Z;
  dropin : Z;
  dropout : Z
}.

Record t : Type := {
  last_counters : option (gmap string psutil.snetio);
  last_time : option float
}.

Definition init : t := {| last_counters := None; last_time := None |}.

(** [interface.startswith('lo')] *)
Definition is_loopback (interface : string) : bool :=
  startswith interface "lo".

Definition rated (current previous : psutil.snetio) (time_delta : float)
    : result entry :=
  bytes_sent_per_sec ← py_truediv
    (psutil.bytes_sent current - psutil.bytes_sent previous) time_delta;
  bytes_recv_per_sec ← py_truediv
    (psutil.bytes_recv current - psutil.bytes_recv previous) time_delta;
  packets_sent_per_sec ← py_truediv
    (psutil.packets_sent current - psutil.packets_sent previous) time_delta;
  packets_recv_per_sec ← py_truediv
    (psutil.packets_recv current - psutil.packets_recv previous) time_delta;
  bytes_sent_rate ← py_int_of_float bytes_sent_per_sec;
  bytes_recv_rate ← py_int_of_float bytes_recv_per_sec;
  mret {| bytes_sent := psutil.bytes_sent current;
          bytes_recv := psutil.bytes_recv current;
          packets_sent := psutil.packets_sent current;
          packets_recv := psutil.packets_recv current;
          bytes_sent_per_sec := bytes_sent_rate;
          bytes_recv_per_sec := bytes_recv_rate;
          packets_sent_per_sec := Float (py_round2 packets_sent_per_sec);
          packets_recv_per_sec := Float (py_round2 packets_recv_per_sec);
          errin := psutil.errin current;
          errout := psutil.errout current;
          dropin := psutil.dropin current;
          dropout := psutil.dropout current |}.

Definition first (current : psutil.snetio) : entry :=
  {| bytes_sent := psutil.bytes_sent current;
     bytes_recv := psutil.bytes_recv current;
     packets_sent := psutil.packets_sent current;
     packets_recv := psutil.packets_recv current;
     bytes_sent_per_sec := 0;
     bytes_recv_per_sec := 0;
     packets_sent_per_sec := Int 0;
     packets_recv_per_sec := Int 0;
     errin := psutil.errin current;
     errout := psutil.errout current;
     dropin := psutil.dropin current;
     dropout := psutil.dropout current |}.

(** [collect]: no early return here, and the whole [counters] dict is
    what is kept for the next call. *)
Definition collect (self : t) (current_time : float)
    (counters : gmap string psutil.snetio)
    : result (gmap string entry) * t :=
  let network_data :=
    if truthy_dict (last_counters self) && truthy_float (last_time self)
    then
      let time_delta :=
        (current_time - default 0 (last_time self))%float in
      rate_loop is_loopback rated
        (default ∅ (last_counters self)) time_delta
        (map_to_list counters) ∅
    else Ok (first_loop is_loopback first (map_to_list counters) ∅)
  in
  match network_data with
  | Ok d =>
      (Ok d, {| last_counters := Some counters;
                last_time := Some current_time |})
  | Raise x => (Raise x, self)
  end.
End NetworkCollector.

(** ** MetricBuffer

    [collections.deque(maxlen=max_size)]: [append] adds on the right and,
    when the length then exceeds [maxlen], drops one element on the left.
    The lock serialises the three methods; each is one atomic step here. *)

Section MetricBuffer.
Context {M : Type}.

Record MetricBuffer : Type := {
  maxlen : nat;
  buffer : list M
}.

Definition MetricBuffer_init (max_size : nat) : MetricBuffer :=
  {| maxlen := max_size; buffer := [] |}.

Definition deque_append (n : nat) (x : M) (d : list M) : list M :=
  let d' := d ++ [x] in
  if (n <? length d')%nat then drop 1 d' else d'.

Definition add (self : MetricBuffer) (metrics : M) : MetricBuffer :=
  {| maxlen := maxlen self;
     buffer := deque_append (maxlen self) metrics (buffer self) |}.

Definition get_all (self : MetricBuffer) : list M * MetricBuffer :=
  (buffer self, {| maxlen := maxlen self; buffer := [] |}).

Definition size (self : MetricBuffer) : Z :=
  Z.of_nat (length (buffer self)).
End MetricBuffer.

Arguments MetricBuffer M : clear implicits.

(** The default [max_size=100]. *)
Definition default_max_size : nat := 100.

(** ** The metric snapshot built by [collect_metrics]

    The cpu, memory, disk, services, sensors and processes collectors only
    wrap platform queries; their domains are left out of the record. *)

(** A value found in the server's [thresholds] object or in the local
    configuration, as [float()] sees it: a number (a boolean counts as 1
    or 0), or a string that reads as one, with the finite number that
    [float()] returns; a string that does not read
    as a number ([ValueError]); null, an array or an object ([TypeError]);
    an integer too large for a float ([OverflowError]).  The local
    configuration holds strings only. *)
Inductive jvalue : Type :=
| JNumber (q : Q)
| JBadString
| JNotNumber
| JHugeInt.

Definition py_float (v : jvalue) : result Q :=
  match v with
  | JNumber q => Ok q
  | JBadString => Raise ValueError
  | JNotNumber => Raise TypeError
  | JHugeInt => Raise OverflowError
  end.

(** [old in s] on strings. *)
Fixpoint contains (old s : string) : bool :=
  match s with
  | EmptyString => String.prefix old EmptyString
  | String c rest => String.prefix old s || contains old rest
  end.

(** A JSON value that is not an object, with what the agent looks at:
    its truth value and the test [key in value].  An array is the list of
    its elements, each one a string or some other value. *)
Inductive non_dict : Type :=
| NNull
| NBool (b : bool)
| NNumber (q : Q)
| NString (s : string)
| NArray (elements : list (option string)).

(** What [self.remote_thresholds] holds: the [thresholds] value of the
    last accepted body, an object unless the server sent something else. *)
Inductive thresholds : Type :=
| Dict (m : gmap string jvalue)
| NotDict (v : non_dict).

Definition truthy_thresholds (t : thresholds) : bool :=
  match t with
  | Dict m => negb (bool_decide (m = ∅))
  | NotDict NNull => false
  | NotDict (NBool b) => b
  | NotDict (NNumber q) => negb (Qeq_bool q 0)
  | NotDict (NString s) => negb (String.eqb s "")
  | NotDict (NArray elements) => negb (bool_decide (elements = []))
  end.

(** [key in value] for a value that is not an object: a substring test
    on a string, an element test on an array, [TypeError] otherwise. *)
Definition py_in (key : string) (v : non_dict) : result bool :=
  match v with
  | NString s => Ok (contains key s)
  | NArray elements => Ok (bool_decide (Some key ∈ elements))
  | NNull | NBool _ | NNumber _ => Raise TypeError
  end.

(** What a collector contributes: its data, or [{'error': str(e)}]. *)
Inductive domain (A : Type) : Type :=
| Data (a : A)
| Error (e : exn).

Arguments Data {A} a.
Arguments Error {A} e.

Definition version_string : string := "1.2.7".

Module Metrics.
Record active_thresholds : Type := {
  cpu : Q;
  memory : Q;
  disk : Q;
  version : Z;
  source : string
}.

Record t : Type := {
  hostname : string;
  timestamp : Z;
  uptime : Z;
  agent_version : string;
  active : active_thresholds;
  disk_io : domain (gmap string DiskIOCollector.entry);
  network : domain (gmap string NetworkCollector.entry)
}.
End Metrics.

(** ** The HTTP session, seen from the agent *)

(** The [threshold_version] of a body: an integer, or a value that [>]
    does not compare with the held integer (null, a string, an array, an
    object). *)
Inductive version_value : Type :=
| VInt (z : Z)
| VNotNumber.

(** The body of [GET /agent/config], each field possibly absent.  The
    version is taken to be an integer when it is a number, and
    [check_interval] an integer when it is present. *)
Record server_config : Type := {
  cfg_threshold_version : option version_value;
  cfg_thresholds : option thresholds;
  cfg_check_interval : option Z
}.

(** Outcome of [session.get]: a response with its status code and, when
    the body decodes to a JSON object, that object; or a raised
    [RequestException]. *)
Inductive config_response : Type :=
| Response (status_code : Z) (json : option server_config)
| RequestException.

(** Outcome of one [session.post]: a response came back with a status
    code, or the call raised a [RequestException] (connection error,
    timeout, retries exhausted). *)
Inductive post_result : Type :=
| Status (code : Z)
| PostRaised.

(** [response.raise_for_status()] raises [HTTPError] on 4xx and 5xx. *)
Definition raise_for_status (code : Z) : bool :=
  (400 <=? code) && (code <? 600).

Record payload : Type := {
  p_agent_version : string;
  p_timestamp : Z;
  p_metrics : Metrics.t
}.

Inductive log_record : Type :=
| InfoSendingNetwork
| WarningNoNetworkData
| InfoSendingBuffered (n : Z)
| ErrorFailedBuffered (m : Metrics.t)
| DebugReported
| ErrorFailedReport (attempt : Z)
| InfoBuffered (buffer_size : Z)
| ErrorMaxFailures.

(** The environment of [report_metrics]: the endpoint answers the n-th
    POST of the run with [reply n]; [posted] and [log] record what the
    agent sent and logged, oldest first. *)
Record world : Type := {
  reply : nat → post_result;
  calls : nat;
  posted : list payload;
  log : list log_record
}.

Definition emit (r : log_record) (w : world) : world :=
  {| reply := reply w; calls := calls w; posted := posted w;
     log := log w ++ [r] |}.

Definition post (p : payload) (w : world) : post_result * world :=
  (reply w (calls w),
   {| reply := reply w; calls := S (calls w); posted := posted w ++ [p];
      log := log w |}).

Definition metrics_payload (m : Metrics.t) : payload :=
  {| p_agent_version := version_string;
     p_timestamp := Metrics.timestamp m;
     p_metrics := m |}.

(** ** UptimeSquirrelAgent *)

Record UptimeSquirrelAgent : Type := {
  config_monitoring : gmap string jvalue;
  hostname : string;
  config_check_interval : Z;
  remote_thresholds : thresholds;
  threshold_version : Z;
  metric_buffer : MetricBuffer Metrics.t;
  consecutive_failures : Z;
  max_consecutive_failures : Z;
  disk_io_collector : DiskIOCollector.t;
  network_collector : NetworkCollector.t
}.

(** [__init__], given the loaded [monitoring] section and the host name. *)
Definition agent_init (monitoring : gmap string jvalue) (host : string)
    : UptimeSquirrelAgent :=
  {| config_monitoring := monitoring;
     hostname := host;
     config_check_interval := 300;
     remote_thresholds := Dict ∅;
     threshold_version := 0;
     metric_buffer := MetricBuffer_init default_max_size;
     consecutive_failures := 0;
     max_consecutive_failures := 5;
     disk_io_collector := DiskIOCollector.init;
     network_collector := NetworkCollector.init |}.

Definition set_thresholds (th : thresholds) (v : Z)
    (self : UptimeSquirrelAgent) : UptimeSquirrelAgent :=
  {| config_monitoring := config_monitoring self;
     hostname := hostname self;
     config_check_interval := config_check_interval self;
     remote_thresholds := th;
     threshold_version := v;
     metric_buffer := metric_buffer self;
     consecutive_failures := consecutive_failures self;
     max_consecutive_failures := max_consecutive_failures self;
     disk_io_collector := disk_io_collector self;
     network_collector := network_collector self |}.

Definition set_check_interval (i : Z) (self : UptimeSquirrelAgent)
    : UptimeSquirrelAgent :=
  {| config_monitoring := config_monitoring self;
     hostname := hostname self;
     config_check_interval := i;
     remote_thresholds := remote_thresholds self;
     threshold_version := threshold_version self;
     metric_buffer := metric_buffer self;
     consecutive_failures := consecutive_failures self;
     max_consecutive_failures := max_consecutive_failures self;
     disk_io_collector := disk_io_collector self;
     network_collector := network_collector self |}.

Definition set_delivery (b : MetricBuffer Metrics.t) (failures : Z)
    (self : UptimeSquirrelAgent) : UptimeSquirrelAgent :=
  {| config_monitoring := config_monitoring self;
     hostname := hostname self;
     config_check_interval := config_check_interval self;
     remote_thresholds := remote_thresholds self;
     threshold_version := threshold_version self;
     metric_buffer := b;
     consecutive_failures := failures;
     max_consecutive_failures := max_consecutive_failures self;
     disk_io_collector := disk_io_collector self;
     network_collector := network_collector self |}.

Definition set_collectors (d : DiskIOCollector.t) (n : NetworkCollector.t)
    (self : UptimeSquirrelAgent) : UptimeSquirrelAgent :=
  {| config_monitoring := config_monitoring self;
     hostname := hostname self;
     config_check_interval := config_check_interval self;
     remote_thresholds := remote_thresholds self;
     threshold_version := threshold_version self;
     metric_buffer := metric_buffer self;
     consecutive_failures := consecutive_failures self;
     max_consecutive_failures := max_consecutive_failures self;
     disk_io_collector := d;
     network_collector := n |}.

(** [fetch_remote_config]: only a 200 whose body decodes changes [self];
    a 404, any other status and every exception are logged and ignored.
    Two exceptions arise after the body is decoded, and the [except] at
    the end of the method swallows both before [config_check_interval] is
    assigned: the [TypeError] of [new_version > self.threshold_version]
    on a version that is no number, which leaves [self] as it was, and the
    [AttributeError] of [self.remote_thresholds.keys()] on a newer
    [thresholds] value that is no object, which comes after the two
    assignments to [remote_thresholds] and [threshold_version]. *)
Definition fetch_remote_config (self : UptimeSquirrelAgent)
    (response : config_response) : UptimeSquirrelAgent :=
  match response with
  | Response status_code json =>
      if status_code =? 200 then
        match json with
        | Some config =>
            match default (VInt 0) (cfg_threshold_version config) with
            | VInt new_version =>
                if new_version >? threshold_version self then
                  let self1 :=
                    set_thresholds (default (Dict ∅) (cfg_thresholds config))
                      new_version self in
                  match remote_thresholds self1 with
                  | Dict _ =>
                      set_check_interval
                        (default 300 (cfg_check_interval config)) self1
                  | NotDict _ => self1
                  end
                else
                  set_check_interval
                    (default 300 (cfg_check_interval config)) self
            | VNotNumber => self
            end
        | None => self
        end
      else self
  | RequestException => self
  end.

(** [self.config.getfloat('monitoring', key, fallback=default)]. *)
Definition getfloat (monitoring : gmap string jvalue) (key : string)
    (fallback : Q) : result Q :=
  match monitoring !! key with
  | Some v => py_float v
  | None => Ok fallback
  end.

(** [get_threshold]: the remote value when the key is held, else the local
    option [<metric_type>_threshold], else [default].  On a held value
    that is no object, [metric_type in self.remote_thresholds] raises or
    is a substring or element test, and the subscript that follows a
    positive test raises [TypeError]. *)
Definition get_threshold (self : UptimeSquirrelAgent) (metric_type : string)
    (default_value : Q) : result Q :=
  let local :=
    getfloat (config_monitoring self) (metric_type +:+ "_threshold")
      default_value in
  match remote_thresholds self with
  | Dict m =>
      match m !! metric_type with
      | Some v => py_float v
      | None => local
      end
  | NotDict v =>
      held ← py_in metric_type v;
      if (held : bool) then Raise TypeError else local
  end.

(** The readings one call of [collect_metrics] takes from the platform. *)
Record sample : Type := {
  now : Q;
  boot_time : Q;
  disk_io_time : float;
  disk_io_counters : gmap string psutil.sdiskio;
  net_io_time : float;
  net_io_counters : gmap string psutil.snetio
}.

(** [try: metrics[name] = collector.collect()
     except Exception as e: metrics[name] = {'error': str(e)}] *)
Definition to_domain {A} (r : result A) : domain A :=
  match r with
  | Ok a => Data a
  | Raise e => Error e
  end.

(** The ['active_thresholds'] entry; a threshold that [float()] rejects
    makes the whole construction raise. *)
Definition active_thresholds (self : UptimeSquirrelAgent)
    : result Metrics.active_thresholds :=
  cpu ← get_threshold self "cpu" 80;
  memory ← get_threshold self "memory" 85;
  disk ← get_threshold self "disk" 90;
  mret {| Metrics.cpu := cpu;
          Metrics.memory := memory;
          Metrics.disk := disk;
          Metrics.version := threshold_version self;
          Metrics.source :=
            if truthy_thresholds (remote_thresholds self)
            then "remote" else "local" |}.

(** [e] is what the first failing lookup of [active_thresholds] raises,
    in the order [cpu], [memory], [disk]. *)
Definition first_raise (self : UptimeSquirrelAgent) (e : exn) : Prop :=
  get_threshold self "cpu" 80 = Raise e ∨
  (∃ c, get_threshold self "cpu" 80 = Ok c ∧
        get_threshold self "memory" 85 = Raise e) ∨
  (∃ c m, get_threshold self "cpu" 80 = Ok c ∧
          get_threshold self "memory" 85 = Ok m ∧
          get_threshold self "disk" 90 = Raise e).

Definition collect_metrics (self : UptimeSquirrelAgent) (s : sample)
    : result Metrics.t * UptimeSquirrelAgent :=
  match active_thresholds self with
  | Raise e => (Raise e, self)
  | Ok th =>
      let '(d, dc) :=
        DiskIOCollector.collect (disk_io_collector self)
          (disk_io_time s) (disk_io_counters s) in
      let '(n, nc) :=
        NetworkCollector.collect (network_collector self)
          (net_io_time s) (net_io_counters s) in
      (Ok {| Metrics.hostname := hostname self;
             Metrics.timestamp := py_int (now s);
             Metrics.uptime := py_int (now s - boot_time s);
             Metrics.agent_version := version_string;
             Metrics.active := th;
             Metrics.disk_io := to_domain d;
             Metrics.network := to_domain n |},
       set_collectors dc nc self)
  end.

(** Truthiness of [metrics.get('network', {})]. *)
Definition network_truthy
    (d : domain (gmap string NetworkCollector.entry)) : bool :=
  match d with
  | Data m => negb (bool_decide (m = ∅))
  | Error _ => true
  end.

(** The redelivery loop: one POST per drained entry, the response is not
    inspected, an exception is logged and swallowed. *)
Fixpoint send_buffered (buffered_metrics : list Metrics.t) (w : world)
    : world :=
  match buffered_metrics with
  | [] => w
  | buffered :: rest =>
      let '(r, w1) := post (metrics_payload buffered) w in
      match r with
      | Status _ => send_buffered rest w1
      | PostRaised => send_buffered rest (emit (ErrorFailedBuffered buffered) w1)
      end
  end.

(** Whether the first POST of [report_metrics] gets past
    [raise_for_status]. *)
Definition delivered (r : post_result) : bool :=
  match r with
  | Status code => negb (raise_for_status code)
  | PostRaised => false
  end.

Definition report_metrics (self : UptimeSquirrelAgent) (metrics : Metrics.t)
    (w : world) : UptimeSquirrelAgent * world :=
  let w0 :=
    emit (if network_truthy (Metrics.network metrics)
          then InfoSendingNetwork else WarningNoNetworkData) w in
  let '(r, w1) := post (metrics_payload metrics) w0 in
  if delivered r then
    let self1 := set_delivery (metric_buffer self) 0 self in
    if size (metric_buffer self1) >? 0 then
      let w2 := emit (InfoSendingBuffered (size (metric_buffer self1))) w1 in
      let '(buffered_metrics, b) := get_all (metric_buffer self1) in
      let w3 := send_buffered buffered_metrics w2 in
      (set_delivery b 0 self1, emit DebugReported w3)
    else (self1, emit DebugReported w1)
  else
    let failures := consecutive_failures self + 1 in
    let w2 := emit (ErrorFailedReport failures) w1 in
    if failures <? max_consecutive_failures self then
      let b := add (metric_buffer self) metrics in
      (set_delivery b failures self, emit (InfoBuffered (size b)) w2)
    else
      (set_delivery (metric_buffer self) failures self,
       emit ErrorMaxFailures w2).

(** ** Runs: sequences of calls *)

(** Successive [report_metrics] calls, one per snapshot. *)
Fixpoint report_all (self : UptimeSquirrelAgent) (ms : list Metrics.t)
    (w : world) : UptimeSquirrelAgent * world :=
  match ms with
  | [] => (self, w)
  | m :: rest =>
      let '(self1, w1) := report_metrics self m w in
      report_all self1 rest w1
  end.

(** The three methods of a [MetricBuffer], as operations of a run. *)
Inductive buffer_op (M : Type) : Type :=
| OpAdd (m : M)
| OpGetAll
| OpSize.

Arguments OpAdd {M} m.
Arguments OpGetAll {M}.
Arguments OpSize {M}.

Definition run_op {M} (b : MetricBuffer M) (op : buffer_op M)
    : MetricBuffer M :=
  match op with
  | OpAdd m => add b m
  | OpGetAll => snd (get_all b)
  | OpSize => b
  end.

Definition run_ops {M} (b : MetricBuffer M) (ops : list (buffer_op M))
    : MetricBuffer M :=
  foldl run_op b ops.

(** An endpoint that fails every POST from call [n] on. *)
Definition fails_from (w : world) (n : nat) : Prop :=
  ∀ k, (n ≤ k)%nat → delivered (reply w k) = false.

(** Sample data used in the examples. *)
Definition disk (rc wc rb wb : Z) : psutil.sdiskio :=
  {| psutil.read_count := rc; psutil.write_count := wc;
     psutil.read_bytes := rb; psutil.write_bytes := wb |}.

Definition nic (bs br ps pr : Z) : psutil.snetio :=
  {| psutil.bytes_sent := bs; psutil.bytes_recv := br;
     psutil.packets_sent := ps; psutil.packets_recv := pr;
     psutil.errin := 0; psutil.errout := 0;
     psutil.dropin := 0; psutil.dropout := 0 |}.

Definition disk_state (last : gmap string psutil.sdiskio) (t0 : float)
    : DiskIOCollector.t :=
  {| DiskIOCollector.last_counters := Some last;
     DiskIOCollector.last_time := Some t0 |}.

Definition net_state (last : gmap string psutil.snetio) (t0 : float)
    : NetworkCollector.t :=
  {| NetworkCollector.last_counters := Some last;
     NetworkCollector.last_time := Some t0 |}.

(** What the roundings mean, stated without the functions that compute
    them: [z] is the whole number next to [q] on the side of zero; [z] is
    a whole number nearest to [q]. *)
Definition whole_toward_zero (z : Z) (q : Q) : Prop :=
  (Qabs (inject_Z z - q) < 1)%Q ∧ (Qabs (inject_Z z) <= Qabs q)%Q.


(** [z] is the finite float [x] cut to a whole number toward zero. *)
Definition truncated (z : Z) (x : float) : Prop :=
  ∃ v, float_value x = Some v ∧ whole_toward_zero z v.

(** [r] is the float [x] at two decimals: for a finite [x] that is not
    zero, some count [n] of hundredths lies within half a hundredth of the
    magnitude of [x], and [r] is the float nearest to [n / 100], with the
    sign of [x]; a zero, an infinity and NaN are left as they are. *)
Definition rounded_hundredth (r x : float) : Prop :=
  match Prim2SF x with
  | S754_finite s m e =>
      ∃ n : Z, (Qabs ((n # 100) - magnitude m e) <= 1 # 200)%Q ∧
               r = nearest_float s n 100
  | S754_zero _ | S754_infinity _ | S754_nan => r = x
  end.

(** The rate of a counter that moved by [x] in [dt] seconds: the binary64
    quotient of the float nearest to [x] by [dt]. *)
Definition quotient (x : Z) (dt : float) : float :=
  (nearest_float_of_int x / dt)%float.

(** [x] converts to a float; [f] is a finite float. *)
Definition in_float_range (x : Z) : Prop := Z.abs x < float_of_int_bound.

Definition finite (f : float) : Prop := is_Some (float_value f).

(** The rate computations of one key go through: the four counter
    differences convert to floats and the two byte rates are finite. *)
Definition disk_rates_defined (b a : psutil.sdiskio) (dt : float) : Prop :=
  in_float_range (psutil.read_bytes b - psutil.read_bytes a) ∧
  in_float_range (psutil.write_bytes b - psutil.write_bytes a) ∧
  in_float_range (psutil.read_count b - psutil.read_count a) ∧
  in_float_range (psutil.write_count b - psutil.write_count a) ∧
  finite (quotient (psutil.read_bytes b - psutil.read_bytes a) dt) ∧
  finite (quotient (psutil.write_bytes b - psutil.write_bytes a) dt).

Definition net_rates_defined (b a : psutil.snetio) (dt : float) : Prop :=
  in_float_range (psutil.bytes_sent b - psutil.bytes_sent a) ∧
  in_float_range (psutil.bytes_recv b - psutil.bytes_recv a) ∧
  in_float_range (psutil.packets_sent b - psutil.packets_sent a) ∧
  in_float_range (psutil.packets_recv b - psutil.packets_recv a) ∧
  finite (quotient (psutil.bytes_sent b - psutil.bytes_sent a) dt) ∧
  finite (quotient (psutil.bytes_recv b - psutil.bytes_recv a) dt).

(** The rate fields of an output entry [e], for counters [a] before and
    [b] now, [dt] seconds apart: byte rates are the quotients cut toward
    zero, operation and packet rates are floats, the quotients at two
    decimals; the raw counters are those of [b]. *)
Definition disk_rates_spec (e : DiskIOCollector.entry)
    (a b : psutil.sdiskio) (dt : float) : Prop :=
  truncated (DiskIOCollector.read_bytes_per_sec e)
    (quotient (psutil.read_bytes b - psutil.read_bytes a) dt) ∧
  truncated (DiskIOCollector.write_bytes_per_sec e)
    (quotient (psutil.write_bytes b - psutil.write_bytes a) dt) ∧
  (∃ r, DiskIOCollector.read_iops e = Float r ∧
        rounded_hundredth r
          (quotient (psutil.read_count b - psutil.read_count a) dt)) ∧
  (∃ r, DiskIOCollector.write_iops e = Float r ∧
        rounded_hundredth r
          (quotient (psutil.write_count b - psutil.write_count a) dt)) ∧
  DiskIOCollector.read_count e = psutil.read_count b ∧
  DiskIOCollector.write_count e = psutil.write_count b ∧
  DiskIOCollector.read_bytes e = psutil.read_bytes b ∧
  DiskIOCollector.write_bytes e = psutil.write_bytes b.

Definition net_rates_spec (e : NetworkCollector.entry)
    (a b : psutil.snetio) (dt : float) : Prop :=
  truncated (NetworkCollector.bytes_sent_per_sec e)
    (quotient (psutil.bytes_sent b - psutil.bytes_sent a) dt) ∧
  truncated (NetworkCollector.bytes_recv_per_sec e)
    (quotient (psutil.bytes_recv b - psutil.bytes_recv a) dt) ∧
  (∃ r, NetworkCollector.packets_sent_per_sec e = Float r ∧
        rounded_hundredth r
          (quotient (psutil.packets_sent b - psutil.packets_sent a) dt)) ∧
  (∃ r, NetworkCollector.packets_recv_per_sec e = Float r ∧
        rounded_hundredth r
          (quotient (psutil.packets_recv b - psutil.packets_recv a) dt)) ∧
  NetworkCollector.bytes_sent e = psutil.bytes_sent b ∧
  NetworkCollector.bytes_recv e = psutil.bytes_recv b ∧
  NetworkCollector.packets_sent e = psutil.packets_sent b ∧
  NetworkCollector.packets_recv e = psutil.packets_recv b ∧
  NetworkCollector.errin e = psutil.errin b ∧
  NetworkCollector.errout e = psutil.errout b ∧
  NetworkCollector.dropin e = psutil.dropin b ∧
  NetworkCollector.dropout e = psutil.dropout b.

(** The outcome of [rated] as an optional entry. *)
Definition entry_of {E} (r : result E) : option E :=
  match r with
  | Ok e => Some e
  | Raise _ => None
  end.

(** The drained entries whose redelivery POST raised, when the first of
    them is POST number [n]. *)
Fixpoint raised_entries (answers : nat → post_result) (n : nat)
    (l : list Metrics.t) : list Metrics.t :=
  match l with
  | [] => []
  | m :: rest =>
      match answers n with
      | PostRaised => m :: raised_entries answers (S n) rest
      | Status _ => raised_entries answers (S n) rest
      end
  end.

(** A body of [GET /agent/config] that carries a version and a threshold
    set; [check_interval] may be absent. *)
Definition full_config (v : Z) (T : gmap string jvalue) (interval : option Z)
    : server_config :=
  {| cfg_threshold_version := Some (VInt v);
     cfg_thresholds := Some (Dict T);
     cfg_check_interval := interval |}.

(** Sample agents and threshold sets used in the examples. *)
Definition cpu50 : gmap string jvalue := {["cpu" := JNumber 50]}.
Definition cpu99 : gmap string jvalue := {["cpu" := JNumber 99]}.
Definition load5 : gmap string jvalue := {["load" := JNumber 5]}.
Definition fresh_agent : UptimeSquirrelAgent := agent_init ∅ "host".
Definition agent_v2 : UptimeSquirrelAgent :=
  set_thresholds (Dict cpu50) 2 fresh_agent.

(** An agent whose held remote set has none of [cpu], [memory], [disk]. *)
Definition agent_load : UptimeSquirrelAgent :=
  set_thresholds (Dict load5) 1 fresh_agent.

Definition sample0 : sample :=
  {| now := 1000;
     boot_time := 400;
     disk_io_time := 1000%float;
     disk_io_counters := {["sda" := disk 0 0 3000 0]};
     net_io_time := 1000%float;
     net_io_counters := {["eth0" := nic 500 200 8 2]} |}.

(** A snapshot told apart by its timestamp. *)
Definition snapshot (ts : Z) : Metrics.t :=
  {| Metrics.hostname := "host";
     Metrics.timestamp := ts;
     Metrics.uptime := 0;
     Metrics.agent_version := version_string;
     Metrics.active :=
       {| Metrics.cpu := 80; Metrics.memory := 85; Metrics.disk := 90;
          Metrics.version := 0; Metrics.source := "local" |};
     Metrics.disk_io := Data ∅;
     Metrics.network := Data ∅ |}.

(** An endpoint that is down, and one that accepts the first POST, drops
    the connection on the second and answers 400 to the third. *)
Definition world_of (answers : nat → post_result) : world :=
  {| reply := answers; calls := 0; posted := []; log := [] |}.

Definition down : world := world_of (fun _ => PostRaised).

Definition recovering : world :=
  world_of (fun n =>
    match n with
    | O => Status 200
    | S O => PostRaised
    | S (S O) => Status 400
    | _ => Status 200
    end).

(** An agent holding three undelivered snapshots. *)
Definition agent_backlog : UptimeSquirrelAgent :=
  set_delivery
    (foldl add (MetricBuffer_init default_max_size)
       [snapshot 1; snapshot 2; snapshot 3])
    3 fresh_agent.

(** An endpoint that accepts the first POST and answers 400 to every
    later one, and an agent holding one undelivered snapshot. *)
Definition rejecting : world :=
  world_of (fun n => match n with O => Status 200 | S _ => Status 400 end).

Definition agent_one_buffered : UptimeSquirrelAgent :=
  set_delivery (add (MetricBuffer_init default_max_size) (snapshot 1))
    1 fresh_agent.

(** ** Alerts: [check_thresholds] and [send_alerts]

    The domains of the snapshot that [check_thresholds] reads and that
    [Metrics.t] leaves out, each as its collector returns it or as the
    error marker [collect_metrics] puts in its place.  Of every collector
    dict only the keys read here are kept; a dict that is iterated is the
    list of its items, in iteration order. *)

Record service_status : Type := {
  active : bool;
  status : string
}.

Record snmp_interface : Type := {
  admin_status : option Z;
  oper_status : option Z;
  if_description : option string;
  if_index : option Z
}.

Record snmp_storage : Type := {
  storage_description : option string;
  storage_percent : option Q
}.

Record snmp_device : Type := {
  device_status : option string;
  device_error : option string;
  device_interfaces : list snmp_interface;
  usage_5min : option Q;
  device_memory_percent : option Q;
  device_storage : list snmp_storage
}.

Record platform_domains : Type := {
  cpu_domain : domain Q;
  memory_domain : domain Q;
  disk_domain : domain (list (string * Q));
  services_domain : domain (list (string * service_status));
  snmp_domain : option (domain (list (string * snmp_device)))
}.

Inductive alert_type : Type :=
| cpu_high
| memory_high
| disk_high
| service_down
| snmp_device_unreachable
| snmp_interface_down
| snmp_cpu_high
| snmp_memory_high
| snmp_storage_high.

Inductive severity : Type :=
| warning
| critical.

(** The ['metadata'] dict of an alert.  The ['message'] text is an
    f-string over the same values and is not kept. *)
Inductive alert_metadata : Type :=
| MetaUsage (usage threshold : Q)
| MetaDisk (mount : string) (usage threshold : Q)
| MetaService (service : string) (service_state : string)
| MetaSnmpError (device : string) (error : option string)
| MetaSnmpInterface (device : string) (interface : option string)
    (index : option Z)
| MetaSnmpUsage (device : string) (usage : Q)
| MetaSnmpStorage (device : string) (storage : option string) (usage : Q).

Record alert : Type := {
  a_type : alert_type;
  a_severity : severity;
  a_timestamp : Z;
  a_metadata : alert_metadata
}.

#[global] Instance alert_type_eq_dec : EqDecision alert_type.
Proof. solve_decision. Defined.

(** Exceptions of a whole cycle: those of [exn], and the [AttributeError]
    of calling [.get] on the string inside an error marker. *)
Inductive exception : Type :=
| Builtin (e : exn)
| AttributeError.

Inductive outcome (A : Type) : Type :=
| Returns (a : A)
| Raises (e : exception).

Arguments Returns {A} a.
Arguments Raises {A} e.

#[global] Instance outcome_ret : MRet outcome := fun A a => Returns a.
#[global] Instance outcome_bind : MBind outcome :=
  fun A B f r => match r with Returns a => f a | Raises e => Raises e end.

Definition lift_result {A} (r : result A) : outcome A :=
  match r with
  | Ok a => Returns a
  | Raise e => Raises (Builtin e)
  end.

(** [a < b] and [a > b] on numbers. *)
Definition py_lt (a b : Q) : bool := negb (Qle_bool b a).
Definition py_gt (a b : Q) : bool := py_lt b a.

(** [metrics.get(name, {}).get(key, 0)] for the cpu and memory domains:
    an error marker has no such key. *)
Definition domain_number (d : domain Q) : Q :=
  match d with
  | Data q => q
  | Error _ => 0
  end.

(** [for k, v in metrics.get(name, {}).items(): ... v.get(...)]: the one
    item of an error marker is a string, and [.get] on it raises. *)
Definition domain_items {A} (d : domain (list (string * A)))
    : outcome (list (string * A)) :=
  match d with
  | Data l => Returns l
  | Error _ => Raises AttributeError
  end.

(** ['warning' if usage < breakpoint else 'critical'] *)
Definition usage_severity (usage breakpoint : Q) : severity :=
  if py_lt usage breakpoint then warning else critical.

Definition cpu_alerts (ts : Z) (usage threshold : Q) : list alert :=
  if py_gt usage threshold then
    [{| a_type := cpu_high; a_severity := usage_severity usage 90;
        a_timestamp := ts; a_metadata := MetaUsage usage threshold |}]
  else [].

Definition memory_alerts (ts : Z) (usage threshold : Q) : list alert :=
  if py_gt usage threshold then
    [{| a_type := memory_high; a_severity := usage_severity usage 95;
        a_timestamp := ts; a_metadata := MetaUsage usage threshold |}]
  else [].

Fixpoint disk_alerts (ts : Z) (threshold : Q) (items : list (string * Q))
    : list alert :=
  match items with
  | [] => []
  | (mount, disk_usage) :: rest =>
      if py_gt disk_usage threshold then
        {| a_type := disk_high; a_severity := usage_severity disk_usage 95;
           a_timestamp := ts;
           a_metadata := MetaDisk mount disk_usage threshold |}
        :: disk_alerts ts threshold rest
      else disk_alerts ts threshold rest
  end.

Fixpoint service_alerts (ts : Z) (items : list (string * service_status))
    : list alert :=
  match items with
  | [] => []
  | (service, st) :: rest =>
      if negb (active st) then
        {| a_type := service_down; a_severity := critical;
           a_timestamp := ts;
           a_metadata := MetaService service (status st) |}
        :: service_alerts ts rest
      else service_alerts ts rest
  end.

(** [interface.get('admin_status') == 1 and
     interface.get('oper_status') != 1] *)
Definition interface_is_down (i : snmp_interface) : bool :=
  bool_decide (admin_status i = Some 1)
  && negb (bool_decide (oper_status i = Some 1)).

Fixpoint interface_alerts (ts : Z) (device : string)
    (interfaces : list snmp_interface) : list alert :=
  match interfaces with
  | [] => []
  | i :: rest =>
      if interface_is_down i then
        {| a_type := snmp_interface_down; a_severity := warning;
           a_timestamp := ts;
           a_metadata := MetaSnmpInterface device (if_description i)
                           (if_index i) |}
        :: interface_alerts ts device rest
      else interface_alerts ts device rest
  end.

Fixpoint storage_alerts (ts : Z) (device : string)
    (storage_list : list snmp_storage) : list alert :=
  match storage_list with
  | [] => []
  | s :: rest =>
      let storage_usage := default 0%Q (storage_percent s) in
      if py_gt storage_usage 90 then
        {| a_type := snmp_storage_high;
           a_severity := usage_severity storage_usage 95;
           a_timestamp := ts;
           a_metadata := MetaSnmpStorage device (storage_description s)
                           storage_usage |}
        :: storage_alerts ts device rest
      else storage_alerts ts device rest
  end.

(** The body of the loop over SNMP devices; an unreachable device gets
    its one alert and the loop [continue]s. *)
Definition device_alerts (ts : Z) (device_name : string) (d : snmp_device)
    : list alert :=
  if bool_decide (device_status d = Some "unreachable") then
    [{| a_type := snmp_device_unreachable; a_severity := critical;
        a_timestamp := ts;
        a_metadata := MetaSnmpError device_name (device_error d) |}]
  else
    interface_alerts ts device_name (device_interfaces d)
    ++ match usage_5min d with
       | Some cpu_usage =>
           if py_gt cpu_usage 80 then
             [{| a_type := snmp_cpu_high;
                 a_severity := usage_severity cpu_usage 90;
                 a_timestamp := ts;
                 a_metadata := MetaSnmpUsage device_name cpu_usage |}]
           else []
       | None => []
       end
    ++ match device_memory_percent d with
       | Some mem_usage =>
           if py_gt mem_usage 85 then
             [{| a_type := snmp_memory_high;
                 a_severity := usage_severity mem_usage 95;
                 a_timestamp := ts;
                 a_metadata := MetaSnmpUsage device_name mem_usage |}]
           else []
       | None => []
       end
    ++ storage_alerts ts device_name (device_storage d).

Fixpoint snmp_alerts (ts : Z) (items : list (string * snmp_device))
    : list alert :=
  match items with
  | [] => []
  | (device_name, d) :: rest =>
      device_alerts ts device_name d ++ snmp_alerts ts rest
  end.

(** [check_thresholds], on the snapshot's timestamp and domains.  The
    alerts are returned only if nothing raised on the way. *)
Definition check_thresholds (self : UptimeSquirrelAgent) (ts : Z)
    (d : platform_domains) : outcome (list alert) :=
  cpu_threshold ← lift_result (get_threshold self "cpu" 80);
  let a_cpu := cpu_alerts ts (domain_number (cpu_domain d)) cpu_threshold in
  memory_threshold ← lift_result (get_threshold self "memory" 85);
  let a_memory :=
    memory_alerts ts (domain_number (memory_domain d)) memory_threshold in
  disk_threshold ← lift_result (get_threshold self "disk" 90);
  disks ← domain_items (disk_domain d);
  services ← domain_items (services_domain d);
  devices ← match snmp_domain d with
            | Some dom => domain_items dom
            | None => Returns []
            end;
  mret (a_cpu ++ a_memory ++ disk_alerts ts disk_threshold disks
        ++ service_alerts ts services ++ snmp_alerts ts devices).

(** What [send_alerts] does on the session: the endpoint answers POST
    number [n] with [answers n]; every alert is logged as a warning, then
    POSTed once, then logged as sent or as failed. *)
Inductive alert_log_record : Type :=
| WarningAlert (a : alert)
| InfoAlertSent (a : alert)
| ErrorAlertFailed (a : alert).

Record alert_session : Type := {
  answers : nat → post_result;
  alert_calls : nat;
  alerts_posted : list alert;
  alert_log : list alert_log_record
}.

Fixpoint send_alerts (alerts : list alert) (s : alert_session)
    : alert_session :=
  match alerts with
  | [] => s
  | a :: rest =>
      let r := answers s (alert_calls s) in
      send_alerts rest
        {| answers := answers s;
           alert_calls := S (alert_calls s);
           alerts_posted := alerts_posted s ++ [a];
           alert_log :=
             alert_log s
             ++ [WarningAlert a;
                 if delivered r then InfoAlertSent a else ErrorAlertFailed a] |}
  end.

(** ** One cycle: [run_once]

    [last_config_check] is kept beside the agent record.  The inputs of a
    cycle are the clock readings, the answer a config fetch would get, and
    what the collectors read. *)
Record agent_loop : Type := {
  agent : UptimeSquirrelAgent;
  last_config_check : Q
}.

Record cycle_input : Type := {
  clock : Q;
  clock_after_fetch : Q;
  config_reply : config_response;
  readings : sample;
  platform : platform_domains
}.

(** What a cycle leaves: the agent, the metrics session, the alerts
    session, and the exception the cycle's [except] logged, if any. *)
Record cycle_result : Type := {
  next : agent_loop;
  net : world;
  alerts_sent : alert_session;
  cycle_error : option exception
}.

Definition loop_init (a : UptimeSquirrelAgent) : agent_loop :=
  {| agent := a; last_config_check := 0 |}.

(** The alert POSTs go over the same session as the metrics POSTs. *)
Definition session_of (w : world) : alert_session :=
  {| answers := reply w; alert_calls := calls w;
     alerts_posted := []; alert_log := [] |}.

Definition resume (w : world) (s : alert_session) : world :=
  {| reply := reply w; calls := alert_calls s; posted := posted w;
     log := log w |}.

(** [time.time() - self.last_config_check > self.config_check_interval] *)
Definition config_due (st : agent_loop) (t : Q) : bool :=
  py_gt (t - last_config_check st)
        (inject_Z (config_check_interval (agent st))).

Definition refresh_config (st : agent_loop) (i : cycle_input) : agent_loop :=
  if config_due st (clock i) then
    {| agent := fetch_remote_config (agent st) (config_reply i);
       last_config_check := clock_after_fetch i |}
  else st.

Definition run_once (st : agent_loop) (i : cycle_input) (w : world)
    : cycle_result :=
  let st1 := refresh_config st i in
  match collect_metrics (agent st1) (readings i) with
  | (Raise e, a) =>
      {| next := {| agent := a; last_config_check := last_config_check st1 |};
         net := w; alerts_sent := session_of w;
         cycle_error := Some (Builtin e) |}
  | (Ok metrics, a) =>
      match check_thresholds a (Metrics.timestamp metrics) (platform i) with
      | Raises e =>
          {| next := {| agent := a;
                        last_config_check := last_config_check st1 |};
             net := w; alerts_sent := session_of w;
             cycle_error := Some e |}
      | Returns alerts =>
          let '(a2, w2) := report_metrics a metrics w in
          let s := send_alerts alerts (session_of w2) in
          {| next := {| agent := a2;
                        last_config_check := last_config_check st1 |};
             net := resume w2 s; alerts_sent := s;
             cycle_error := None |}
      end
  end.

(** [sleep_time = max(0, self.interval - elapsed)] of the main loop. *)
Definition sleep_time (interval : Z) (elapsed : Q) : Q :=
  let remaining := (inject_Z interval - elapsed)%Q in
  if py_gt remaining 0 then remaining else 0%Q.

(** Successive [fetch_remote_config] calls. *)
Definition fetch_all (self : UptimeSquirrelAgent)
    (responses : list config_response) : UptimeSquirrelAgent :=
  foldl fetch_remote_config self responses.

(** ** DiskCollector._format_bytes

    The result is the float that is printed (before its rounding to one
    decimal by the format) and the unit printed after it.  The argument
    is an [int]: the first test [bytes_val < 1024.0] compares it exactly,
    and it becomes a float either in the format, when the test holds, or
    in the first division; from then on the loop runs on floats. *)
Fixpoint format_bytes_loop (units : list string) (bytes_val : float)
    : float * string :=
  match units with
  | [] => (bytes_val, "PB")
  | unit :: rest =>
      if (bytes_val <? 1024)%float then (bytes_val, unit)
      else format_bytes_loop rest (bytes_val / 1024)%float
  end.

Definition _format_bytes (bytes_val : Z) : result (float * string) :=
  x ← py_float_of_int bytes_val;
  if bytes_val <? 1024 then Ok (x, "B")
  else Ok (format_bytes_loop ["KB"; "MB"; "GB"; "TB"] (x / 1024)%float).

(** [x] after [k] divisions by 1024. *)
Definition divided (x : float) (k : nat) : float :=
  Nat.iter k (fun y => (y / 1024)%float) x.

(** ** ThermalCollector

    [psutil.sensors_temperatures()] is a dict from sensor name to a list
    of readings, each with a [current] value that may be [None]; on a
    platform without sensors the call raises and [collect] returns [{}]. *)
Record thermal_data : Type := {
  cpu_temp : option Q;
  gpu_temp : option Q
}.

(** [max(...)] over a generator: the first of the largest values; an
    empty one raises [ValueError]. *)
Definition py_max (l : list Q) : result Q :=
  match l with
  | [] => Raise ValueError
  | x :: rest => Ok (foldl (fun m y => if py_gt y m then y else m) x rest)
  end.

(** [temp.current for temp in temps if temp.current is not None] *)
Definition currents (temps : list (option Q)) : list Q := omap id temps.

(** The loop over the known sensor names: the first one that is present
    with a non-empty list decides, and the loop [break]s. *)
Fixpoint first_sensor (names : list string)
    (temperatures : gmap string (list (option Q))) : result (option Q) :=
  match names with
  | [] => Ok None
  | sensor_name :: rest =>
      match temperatures !! sensor_name with
      | Some (t :: temps) => t' ← py_max (currents (t :: temps)); mret (Some t')
      | _ => first_sensor rest temperatures
      end
  end.

Definition cpu_sensors : list string :=
  ["coretemp"; "cpu_thermal"; "k10temp"; "acpi"].
Definition gpu_sensors : list string := ["nouveau"; "radeon"; "amdgpu"].

(** [all_temps]: every reading of every sensor that is not [None]. *)
Definition all_temps (temperatures : gmap string (list (option Q)))
    : list Q :=
  concat ((fun kv => currents kv.2) <$> map_to_list temperatures).

Module ThermalCollector.
Definition collect
    (sensors_temperatures : option (gmap string (list (option Q))))
    : result thermal_data :=
  match sensors_temperatures with
  | None => Ok {| cpu_temp := None; gpu_temp := None |}
  | Some temperatures =>
      cpu ← first_sensor cpu_sensors temperatures;
      gpu ← first_sensor gpu_sensors temperatures;
      let cpu' :=
        match cpu with
        | Some t => Some t
        | None =>
            match all_temps temperatures with
            | [] => None
            | x :: rest =>
                Some (foldl (fun m y => if py_gt y m then y else m) x rest)
            end
        end in
      mret {| cpu_temp := cpu'; gpu_temp := gpu |}
  end.
End ThermalCollector.

(** An agent whose rate collectors hold a sample taken at second 1000,
    and one whose held remote set has a null [cpu] value. *)
Definition agent_sampled : UptimeSquirrelAgent :=
  set_collectors
    (disk_state {["sda" := disk 0 0 1000 0]} 1000)
    (net_state {["eth0" := nic 100 200 1 2]} 990)
    fresh_agent.

Definition agent_bad_cpu : UptimeSquirrelAgent :=
  set_thresholds (Dict {["cpu" := JNotNumber]}) 3 agent_sampled.

(** What [report_metrics] keeps, whatever the endpoint answers: with the
    ceiling at 5, the buffer holds no more entries than there were
    failures in a row, and no more than four. *)
Definition delivery_inv (self : UptimeSquirrelAgent) : Prop :=
  max_consecutive_failures self = 5 ∧
  (4 ≤ maxlen (metric_buffer self))%nat ∧
  0 ≤ consecutive_failures self ∧
  Z.of_nat (length (buffer (metric_buffer self))) ≤ consecutive_failures self ∧
  (length (buffer (metric_buffer self)) ≤ 4)%nat.

(** The alerts of the SNMP loop have SNMP types and the given timestamp. *)
Definition is_snmp_type (t : alert_type) : Prop :=
  t = snmp_device_unreachable ∨ t = snmp_interface_down ∨ t = snmp_cpu_high
  ∨ t = snmp_memory_high ∨ t = snmp_storage_high.

(** Sample domains: a host over its limits with a stopped service, and a
    host whose disk collector failed. *)
Definition domains_hot : platform_domains :=
  {| cpu_domain := Data 95%Q;
     memory_domain := Data 90%Q;
     disk_domain := Data [("/", 96%Q); ("/data", 50%Q); ("/var", 92%Q)];
     services_domain :=
       Data [("nginx", {| active := false; status := "inactive" |});
             ("ssh", {| active := true; status := "active" |})];
     snmp_domain := None |}.

Definition domains_disk_failed : platform_domains :=
  {| cpu_domain := Data 95%Q;
     memory_domain := Data 90%Q;
     disk_domain := Error ValueError;
     services_domain := Data [];
     snmp_domain := None |}.

Definition domains_quiet : platform_domains :=
  {| cpu_domain := Data 10%Q;
     memory_domain := Error ValueError;
     disk_domain := Data [("/", 40%Q)];
     services_domain := Data [("ssh", {| active := true; status := "active" |})];
     snmp_domain := None |}.

(** Sample cycles: the clock reads 2000, the server would answer with
    version 2, and the host is over its limits or its disk collector
    failed. *)
Definition cycle_hot : cycle_input :=
  {| clock := 2000;
     clock_after_fetch := 2001;
     config_reply := Response 200 (Some (full_config 2 cpu50 (Some 60)));
     readings := sample0;
     platform := domains_hot |}.

Definition cycle_disk_failed : cycle_input :=
  {| clock := 2000;
     clock_after_fetch := 2001;
     config_reply := RequestException;
     readings := sample0;
     platform := domains_disk_failed |}.

(** A loop whose last configuration check was at second 1900. *)
Definition loop_checked (a : UptimeSquirrelAgent) : agent_loop :=
  {| agent := a; last_config_check := 1900 |}.

(** Sample sensor readings: a host with a [coretemp] sensor cooler than
    its [k10temp] one, a host with no named CPU sensor, and a host whose
    [cpu_thermal] sensor reports no value. *)
Definition temps_core : gmap string (list (option Q)) :=
  <["coretemp" := [Some 45%Q; None; Some 62%Q]]>
    (<["k10temp" := [Some 90%Q]]> {["amdgpu" := [Some 70%Q]]}).

Definition temps_unnamed : gmap string (list (option Q)) :=
  <["nvme" := [Some 40%Q; Some 38%Q]]> {["amdgpu" := [Some 70%Q]]}.

Definition temps_no_value : gmap string (list (option Q)) :=
  <["cpu_thermal" := [None]]> {["nvme" := [Some 40%Q]]}.

(** ** DiskCollector.collect

    The configuration is [self.disk_config] as it is after the periodic
    reload; [psutil.disk_partitions()] and [psutil.disk_usage] are inputs.
    A JSON [enabled] value is kept as its truth value. *)
Record partition : Type := {
  device : string;
  mountpoint : string;
  fstype : string
}.

Record disk_entry_config : Type := {
  entry_enabled : option bool;
  entry_description : option string
}.

Record disk_config : Type := {
  config_enabled : option bool;
  config_disks : option (gmap string disk_entry_config)
}.

(** [psutil.disk_usage(mountpoint)]: the usage tuple, a
    [PermissionError], or another exception. *)
Record sdiskusage : Type := {
  total : Z;
  used : Z;
  free : Z;
  percent : Q
}.

Inductive usage_outcome : Type :=
| Usage (u : sdiskusage)
| PermissionError
| OtherError.

(** The ['description'] of an entry: the configured text, or the default
    text made of the device and its formatted size. *)
Inductive disk_description : Type :=
| Configured (text : string)
| DeviceAndSize (dev : string) (size : float * string).

Record disk_entry : Type := {
  entry_device : string;
  entry_fstype : string;
  entry_total : Z;
  entry_used : Z;
  entry_free : Z;
  entry_percent : Q;
  description : disk_description
}.

(** [disk_configs.get(partition.mountpoint, {})] then
    [.get("enabled", True)]. *)
Definition mount_enabled (disk_configs : gmap string disk_entry_config)
    (mount : string) : bool :=
  match disk_configs !! mount with
  | Some c => default true (entry_enabled c)
  | None => true
  end.

(** [disk_config.get('description', default)], given the formatted size
    that the default text is made of. *)
Definition mount_description (disk_configs : gmap string disk_entry_config)
    (p : partition) (size : float * string) : disk_description :=
  match disk_configs !! mountpoint p ≫= entry_description with
  | Some text => Configured text
  | None => DeviceAndSize (device p) size
  end.

(** The loop over the partitions; [None] is an exception that is not a
    [PermissionError] and leaves [collect].  The default description is
    an argument of [.get], so [_format_bytes] runs for every reported
    mount, configured text or not. *)
Fixpoint disk_loop (disk_configs : gmap string disk_entry_config)
    (disk_usage : string → usage_outcome) (partitions : list partition)
    (disks : gmap string disk_entry) : option (gmap string disk_entry) :=
  match partitions with
  | [] => Some disks
  | p :: rest =>
      if negb (String.eqb (fstype p) "")
         && mount_enabled disk_configs (mountpoint p)
      then
        match disk_usage (mountpoint p) with
        | Usage u =>
            match _format_bytes (total u) with
            | Ok size =>
                disk_loop disk_configs disk_usage rest
                  (<[mountpoint p :=
                       {| entry_device := device p;
                          entry_fstype := fstype p;
                          entry_total := total u;
                          entry_used := used u;
                          entry_free := free u;
                          entry_percent := percent u;
                          description :=
                            mount_description disk_configs p size |}]>
                     disks)
            | Raise _ => None
            end
        | PermissionError => disk_loop disk_configs disk_usage rest disks
        | OtherError => None
        end
      else disk_loop disk_configs disk_usage rest disks
  end.

Module DiskCollector.
Definition collect (config : disk_config)
    (disk_usage : string → usage_outcome) (partitions : list partition)
    : option (gmap string disk_entry) :=
  if negb (default true (config_enabled config)) then Some ∅
  else disk_loop (default ∅ (config_disks config)) disk_usage partitions ∅.
End DiskCollector.

(** ** get_monitored_services

    The [services] section is the list of its items, keys as the parser
    returns them; [lower] is the lower-casing of ASCII letters. *)
Definition ascii_lower (c : Ascii.ascii) : Ascii.ascii :=
  let n := Ascii.nat_of_ascii c in
  if (65 <=? n)%nat && (n <=? 90)%nat then Ascii.ascii_of_nat (n + 32) else c.

Fixpoint lower (s : string) : string :=
  match s with
  | EmptyString => EmptyString
  | String c rest => String (ascii_lower c) (lower rest)
  end.

(** [s.replace(old, '')] for a non-empty [old]: scanning from the left,
    every occurrence found is dropped and the scan goes on after it;
    [skip] counts the characters of a found occurrence still to drop. *)
Fixpoint replace_from (skip : nat) (old s : string) : string :=
  match s with
  | EmptyString => EmptyString
  | String c rest =>
      match skip with
      | S k => replace_from k old rest
      | O =>
          if String.prefix old s
          then replace_from (String.length old - 1) old rest
          else String c (replace_from 0 old rest)
      end
  end.

Definition remove_all (s old : string) : string := replace_from 0 old s.

Fixpoint get_monitored_services (items : list (string * string))
    : list string :=
  match items with
  | [] => []
  | (key, value) :: rest =>
      if startswith key "monitor_" && String.eqb (lower value) "true"
      then remove_all key "monitor_" :: get_monitored_services rest
      else get_monitored_services rest
  end.

(** Sample partitions: the root disk, a data disk that the configuration
    disables, and a stale network mount whose usage query fails. *)
Definition part_root : partition :=
  {| device := "/dev/sda1"; mountpoint := "/"; fstype := "ext4" |}.
Definition part_data : partition :=
  {| device := "/dev/sdb1"; mountpoint := "/data"; fstype := "ext4" |}.
Definition part_stale : partition :=
  {| device := "nas:/x"; mountpoint := "/mnt/nas"; fstype := "nfs" |}.

Definition sample_disk_config : disk_config :=
  {| config_enabled := Some true;
     config_disks :=
       Some {["/data" := {| entry_enabled := Some false;
                            entry_description := None |}]} |}.

Definition sample_usage (mount : string) : usage_outcome :=
  if String.eqb mount "/mnt/nas" then OtherError
  else Usage {| total := 1000; used := 400; free := 600; percent := 40 |}.

(** * Properties *)

(** ** MetricBuffer *)

Section MetricBuffer_facts.
Context {M : Type}.
Implicit Types (b : MetricBuffer M) (d ms : list M) (x : M).

Lemma deque_append_bound n x d :
  (length d ≤ n)%nat → (length (deque_append n x d) ≤ n)%nat.
Proof.
  intros Hd. unfold deque_append.
  destruct (n <? length (d ++ [x]))%nat eqn:Hfull.
  - rewrite length_drop, length_app. simpl. lia.
  - apply Nat.ltb_ge in Hfull. exact Hfull.
Qed.

Lemma deque_append_room n x d :
  (length d < n)%nat → deque_append n x d = d ++ [x].
Proof.
  intros Hd. unfold deque_append.
  destruct (n <? length (d ++ [x]))%nat eqn:Hfull; [|done].
  apply Nat.ltb_lt in Hfull. rewrite length_app in Hfull. simpl in Hfull. lia.
Qed.

Lemma deque_append_last n x d :
  (0 < n)%nat → last (deque_append n x d) = Some x.
Proof.
  intros Hn. unfold deque_append.
  destruct (n <? length (d ++ [x]))%nat eqn:Hfull; [|apply last_snoc].
  apply Nat.ltb_lt in Hfull. rewrite length_app in Hfull. simpl in Hfull.
  destruct d as [|y d]; [simpl in Hfull; lia|].
  simpl. rewrite drop_0. apply last_snoc.
Qed.

Lemma deque_append_full n x d :
  (n ≤ length d)%nat → deque_append n x d = drop 1 (d ++ [x]).
Proof.
  intros Hd. unfold deque_append.
  destruct (n <? length (d ++ [x]))%nat eqn:Hfull; [done|].
  apply Nat.ltb_ge in Hfull. rewrite length_app in Hfull. simpl in Hfull. lia.
Qed.

Lemma maxlen_run_ops b ops : maxlen (run_ops b ops) = maxlen b.
Proof.
  revert b. induction ops as [|op ops IH]; intros b; [done|].
  unfold run_ops in *. simpl. rewrite IH. by destruct op.
Qed.

Lemma run_op_bound b op :
  (length (buffer b) ≤ maxlen b)%nat →
  (length (buffer (run_op b op)) ≤ maxlen (run_op b op))%nat.
Proof.
  intros Hb. destruct op; simpl; [|lia|done].
  by apply deque_append_bound.
Qed.

Lemma run_ops_bound b ops :
  (length (buffer b) ≤ maxlen b)%nat →
  (length (buffer (run_ops b ops)) ≤ maxlen b)%nat.
Proof.
  revert b. induction ops as [|op ops IH]; intros b Hb; [done|].
  unfold run_ops in *. simpl.
  specialize (IH (run_op b op) (run_op_bound b op Hb)).
  assert (maxlen (run_op b op) = maxlen b) as Hm by (by destruct op).
  by rewrite Hm in IH.
Qed.

Lemma maxlen_adds b ms : maxlen (foldl add b ms) = maxlen b.
Proof. revert b. induction ms as [|m ms IH]; intros b; [done|]. simpl. by rewrite IH. Qed.

(** After pushing [ms] into an empty buffer of capacity [n], the buffer
    holds the last [n] of them, oldest first. *)
Lemma adds_keep_last n ms :
  buffer (foldl add (MetricBuffer_init n) ms) = drop (length ms - n) ms.
Proof.
  induction ms as [|x ms IH] using rev_ind; [done|].
  rewrite foldl_app. simpl. rewrite maxlen_adds, IH. simpl.
  rewrite length_app. simpl.
  destruct (decide (length ms < n)%nat) as [Hlt|Hge].
  - replace (length ms - n)%nat with 0%nat by lia.
    replace (length ms + 1 - n)%nat with 0%nat by lia.
    rewrite !drop_0. by apply deque_append_room.
  - rewrite deque_append_full by (rewrite length_drop; lia).
    rewrite <- (drop_app_le ms [x] (length ms - n)) by lia.
    rewrite drop_drop. f_equal. lia.
Qed.
End MetricBuffer_facts.

(** ** The collector loops *)

Section loop_facts.
Context {C E : Type}.
Variable skip : string → bool.
Variable rated : C → C → float → result E.
Variable first : C → E.

Implicit Types (last cur : gmap string C) (data out : gmap string E).
Implicit Types (items : list (string * C)).

(** When the loop ends normally, the output holds the entry [rated]
    built for every key that is not skipped and that both samples have,
    and every other key is as the starting data had it. *)
Lemma rate_loop_lookup last td items data out :
  NoDup items.*1 →
  rate_loop skip rated last td items data = Ok out →
  ∀ k, out !! k =
    match (list_to_map items : gmap string C) !! k with
    | Some c =>
        if skip k then data !! k
        else match last !! k with
             | Some p => entry_of (rated c p td)
             | None => data !! k
             end
    | None => data !! k
    end.
Proof.
  revert data. induction items as [|[key c] rest IH]; intros data Hnd Hrun k.
  - injection Hrun as <-. by rewrite list_to_map_nil, lookup_empty.
  - apply NoDup_cons in Hnd as [Hkey Hnd]. simpl in Hkey.
    assert ((list_to_map rest : gmap string C) !! key = None) as Hrest
      by (by apply not_elem_of_list_to_map_1).
    simpl in Hrun. simpl.
    destruct (skip key) eqn:Hskip.
    + rewrite (IH _ Hnd Hrun k). destruct (decide (key = k)) as [<-|Hne].
      * by rewrite lookup_insert_eq, Hrest, Hskip.
      * by rewrite lookup_insert_ne.
    + destruct (last !! key) as [p|] eqn:Hlast.
      * destruct (rated c p td) as [e|x] eqn:Hrated; [|done].
        rewrite (IH _ Hnd Hrun k). destruct (decide (key = k)) as [<-|Hne].
        -- by rewrite !lookup_insert_eq, Hrest, Hskip, Hlast, Hrated.
        -- by rewrite !lookup_insert_ne.
      * rewrite (IH _ Hnd Hrun k). destruct (decide (key = k)) as [<-|Hne].
        -- by rewrite lookup_insert_eq, Hrest, Hskip, Hlast.
        -- by rewrite lookup_insert_ne.
Qed.

(** The loop ends normally when [rated] does for every key that is not
    skipped and that both samples have. *)
Lemma rate_loop_returns last td items data :
  (∀ k c p, (k, c) ∈ items → skip k = false → last !! k = Some p →
            ∃ e, rated c p td = Ok e) →
  ∃ out, rate_loop skip rated last td items data = Ok out.
Proof.
  revert data. induction items as [|[key c] rest IH]; intros data Hok.
  - by exists data.
  - assert (∀ k c' p, (k, c') ∈ rest → skip k = false → last !! k = Some p →
                      ∃ e, rated c' p td = Ok e) as Hrest
      by (intros k c' p Hin; apply Hok; by right).
    simpl. destruct (skip key) eqn:Hskip; [by apply IH|].
    destruct (last !! key) as [p|] eqn:Hlast; [|by apply IH].
    destruct (Hok key c p) as [e ->]; [by left|done..|]. by apply IH.
Qed.


(** When [rated] raises for every such key and there is one, the loop
    raises what [rated] raised for the first of them. *)
Lemma rate_loop_raises (P : exn → Prop) last td items data k c :
  (k, c) ∈ items → skip k = false → is_Some (last !! k) →
  (∀ k' c' p, (k', c') ∈ items → skip k' = false → last !! k' = Some p →
              ∃ x, rated c' p td = Raise x ∧ P x) →
  ∃ x, rate_loop skip rated last td items data = Raise x ∧ P x.
Proof.
  intros Hin Hskip Hlast. revert data.
  induction items as [|[key c'] rest IH]; intros data Hraise.
  - by apply elem_of_nil in Hin.
  - assert (∀ k' c'' p, (k', c'') ∈ rest → skip k' = false →
              last !! k' = Some p → ∃ x, rated c'' p td = Raise x ∧ P x)
      as Hrest by (intros k' c'' p H; apply Hraise; by right).
    simpl. destruct (skip key) eqn:Hs.
    + apply elem_of_cons in Hin as [Heq|Hin]; [congruence|]. by apply IH.
    + destruct (last !! key) as [p|] eqn:Hl.
      * destruct (Hraise key c' p) as (x & -> & HP); [by left|done..|].
        by exists x.
      * apply elem_of_cons in Hin as [Heq|Hin]; [|by apply IH].
        injection Heq as -> ->. rewrite Hl in Hlast. by destruct Hlast.
Qed.

(** A loop over keys that are all skipped or new divides nothing and
    ends normally with the data it started from. *)
Lemma rate_loop_all_new last td items data :
  (∀ k c, (k, c) ∈ items → skip k = false → last !! k = None) →
  rate_loop skip rated last td items data = Ok data.
Proof.
  revert data. induction items as [|[key c] rest IH]; intros data Hnew; [done|].
  simpl. destruct (skip key) eqn:Hs.
  - apply IH. intros k c' Hin. apply (Hnew k c'). by right.
  - rewrite (Hnew key c) by (done || by left). apply IH.
    intros k c' Hin. apply (Hnew k c'). by right.
Qed.


Lemma first_loop_lookup items data k :
  NoDup items.*1 →
  first_loop skip first items data !! k =
    match (list_to_map items : gmap string C) !! k with
    | Some c => if skip k then data !! k else Some (first c)
    | None => data !! k
    end.
Proof.
  revert data. induction items as [|[key c] rest IH]; intros data Hnd.
  - by rewrite list_to_map_nil, lookup_empty.
  - apply NoDup_cons in Hnd as [Hkey Hnd]. simpl in Hkey.
    assert ((list_to_map rest : gmap string C) !! key = None) as Hrest
      by (by apply not_elem_of_list_to_map_1).
    simpl. destruct (skip key) eqn:Hs; rewrite IH by done;
      (destruct (decide (key = k)) as [<-|Hne];
       [ rewrite ?lookup_insert_eq, Hrest, ?Hs; done
       | rewrite ?lookup_insert_ne by done; done ]).
Qed.
End loop_facts.

(** ** Rounding *)

Lemma quot_pos_bounds n d :
  0 < d → 0 ≤ n → d * (n ÷ d) ≤ n < d * (n ÷ d) + d.
Proof.
  intros Hd Hn. rewrite Z.quot_div_nonneg by lia.
  pose proof (Z.mul_div_le n d Hd). pose proof (Z.mul_succ_div_gt n d Hd). lia.
Qed.

Lemma quot_bounds n d :
  0 < d →
  Z.abs (d * (n ÷ d) - n) < d ∧ Z.abs (n ÷ d) * d ≤ Z.abs n.
Proof.
  intros Hd. destruct (Z.le_gt_cases 0 n) as [Hn|Hn].
  - pose proof (quot_pos_bounds n d Hd Hn).
    assert (0 ≤ n ÷ d) by (apply Z.quot_pos; lia). lia.
  - pose proof (quot_pos_bounds (- n) d Hd ltac:(lia)) as Hb.
    rewrite Z.quot_opp_l in Hb by lia.
    assert (0 ≤ - (n ÷ d)) by (rewrite <- Z.quot_opp_l by lia; apply Z.quot_pos; lia).
    lia.
Qed.

Lemma py_int_toward_zero q : whole_toward_zero (py_int q) q.
Proof.
  destruct q as [n d]. unfold whole_toward_zero, py_int. simpl.
  destruct (quot_bounds n (Z.pos d) ltac:(lia)) as [H1 H2].
  split.
  - apply Qabs_Qlt_condition. unfold Qlt, Qminus, Qplus, Qopp, inject_Z. simpl.
    lia.
  - unfold Qabs, Qle, inject_Z. simpl. lia.
Qed.

Lemma round_half_even_near q :
  (Qabs (inject_Z (round_half_even q) - q) <= 1 # 2)%Q.
Proof.
  pose proof (Qfloor_le q) as Hlo. pose proof (Qlt_floor q) as Hhi.
  rewrite inject_Z_plus in Hhi. change (inject_Z 1) with 1%Q in Hhi.
  unfold round_half_even. apply Qabs_Qle_condition.
  destruct (q - inject_Z (Qfloor q) ?= 1 # 2)%Q eqn:Hc.
  - apply Qeq_alt in Hc.
    destruct (Z.even (Qfloor q)); rewrite ?inject_Z_plus;
      change (inject_Z 1) with 1%Q; lra.
  - apply Qlt_alt in Hc. lra.
  - apply Qgt_alt in Hc. rewrite inject_Z_plus.
    change (inject_Z 1) with 1%Q. lra.
Qed.

(** [round(x, 2)] lands on the float nearest to a count of hundredths
    that is within half a hundredth of [x]. *)
Lemma py_round2_rounded x : rounded_hundredth (py_round2 x) x.
Proof.
  unfold rounded_hundredth, py_round2.
  destruct (Prim2SF x) as [s|s| |s m e]; try reflexivity.
  exists (round_half_even (magnitude m e * 100)). split; [|reflexivity].
  pose proof (round_half_even_near (magnitude m e * 100)) as H.
  apply Qabs_Qle_condition in H. apply Qabs_Qle_condition.
  rewrite (Qmake_Qdiv (round_half_even (magnitude m e * 100)) 100).
  change (inject_Z (Z.pos 100)) with (100 # 1)%Q.
  set (z := inject_Z (round_half_even (magnitude m e * 100))) in *.
  clearbody z. unfold Qdiv. change (/ (100 # 1))%Q with (1 # 100)%Q.
  split; lra.
Qed.

(** [int(x)] returns on a finite float, with the float cut toward zero. *)
Lemma py_int_of_float_finite f :
  finite f → ∃ z, py_int_of_float f = Ok z ∧ truncated z f.
Proof.
  intros [v Hv]. exists (py_int v). split.
  - unfold py_int_of_float. rewrite Hv. unfold float_value in Hv.
    by destruct (Prim2SF f).
  - exists v. split; [done|apply py_int_toward_zero].
Qed.

(** On a float that is not finite, [int(x)] raises. *)
Lemma py_int_of_float_raise f e :
  py_int_of_float f = Raise e →
  ¬ finite f ∧ (e = ValueError ∨ e = OverflowError).
Proof.
  unfold py_int_of_float, finite, float_value.
  destruct (Prim2SF f); intros [= <-];
    (split; [by intros [? ?]|by (left + right)]).
Qed.

(** A float above or below zero is not zero. *)
Lemma float_pos_nonzero d : (0 <? d)%float = true → (d =? 0)%float = false.
Proof.
  rewrite ltb_spec, FloatAxioms.eqb_spec.
  change (Prim2SF 0) with (S754_zero false).
  by destruct (Prim2SF d) as [[]|[]| |[] ? ?].
Qed.

Lemma float_neg_nonzero d : (d <? 0)%float = true → (d =? 0)%float = false.
Proof.
  rewrite ltb_spec, FloatAxioms.eqb_spec.
  change (Prim2SF 0) with (S754_zero false).
  by destruct (Prim2SF d) as [[]|[]| |[] ? ?].
Qed.

Lemma py_truediv_nonzero x d :
  in_float_range x → (d =? 0)%float = false →
  py_truediv x d = Ok (quotient x d).
Proof.
  intros Hx Hd. unfold py_truediv, py_float_of_int.
  rewrite (proj2 (Z.ltb_lt _ _) Hx). simpl. by rewrite Hd.
Qed.

(** On a zero denominator the division raises: [OverflowError] when the
    numerator does not convert, [ZeroDivisionError] otherwise. *)
Lemma py_truediv_zero x d :
  (d =? 0)%float = true →
  ∃ e, py_truediv x d = Raise e ∧ (in_float_range x → e = ZeroDivisionError).
Proof.
  intros Hd. unfold py_truediv, py_float_of_int, in_float_range.
  destruct (Z.ltb_spec (Z.abs x) float_of_int_bound) as [Hx|Hx]; simpl.
  - rewrite Hd. by exists ZeroDivisionError.
  - exists OverflowError. split; [done|lia].
Qed.

(** The conversion on sample integers: small ones are kept, those above
    [2^53] go to the nearest float, ties to even, and the bound is where
    the rounding leaves the finite floats. *)
Example float_of_int_samples :
  nearest_float_of_int 3 = 3%float ∧
  nearest_float_of_int (-7) = (-7)%float ∧
  nearest_float_of_int (2 ^ 53 + 1) = 9007199254740992%float ∧
  nearest_float_of_int (2 ^ 53 + 3) = 9007199254740996%float ∧
  py_float_of_int (float_of_int_bound - 1)
    = Ok 0x1.fffffffffffffp+1023%float ∧
  nearest_float_of_int float_of_int_bound = infinity ∧
  py_float_of_int float_of_int_bound = Raise OverflowError ∧
  py_float_of_int (- float_of_int_bound) = Raise OverflowError.
Proof. vm_compute. repeat split. Qed.

(** [int()] and [round(x, 2)] on sample floats. *)
Example float_rounding_samples :
  py_int_of_float 0x1.cp+0 = Ok 1 ∧
  py_int_of_float (-0x1.cp+0) = Ok (-1) ∧
  py_int_of_float infinity = Raise OverflowError ∧
  py_int_of_float nan = Raise ValueError ∧
  py_round2 0x1p-3 = nearest_float false 12 100 ∧
  py_round2 0x1.8p-2 = nearest_float false 38 100 ∧
  py_round2 (-0x1p-10) = neg_zero ∧
  py_round2 infinity = infinity.
Proof. vm_compute. repeat split. Qed.

Lemma truthy_dict_lookup {A} (m : gmap string A) k a :
  m !! k = Some a → truthy_dict (Some m) = true.
Proof.
  intros Hk. simpl. rewrite bool_decide_eq_false_2; [done|].
  intros ->. by rewrite lookup_empty in Hk.
Qed.

Lemma nonempty_lookup {A} (m : gmap string A) k a :
  m !! k = Some a → bool_decide (m = ∅) = false.
Proof.
  intros Hk. apply bool_decide_eq_false_2. intros ->.
  by rewrite lookup_empty in Hk.
Qed.

(** ** DiskIOCollector.collect *)

Lemma disk_rated_defined c p td :
  (td =? 0)%float = false → disk_rates_defined c p td →
  ∃ e, DiskIOCollector.rated c p td = Ok e ∧ disk_rates_spec e p c td.
Proof.
  intros Htd (H1 & H2 & H3 & H4 & F1 & F2).
  destruct (py_int_of_float_finite _ F1) as (z1 & E1 & T1).
  destruct (py_int_of_float_finite _ F2) as (z2 & E2 & T2).
  eexists. split.
  - unfold DiskIOCollector.rated. rewrite !py_truediv_nonzero by done.
    simpl. rewrite E1. simpl. rewrite E2. reflexivity.
  - unfold disk_rates_spec. simpl.
    repeat split; try done;
      (eexists; split; [reflexivity|apply py_round2_rounded]).
Qed.

Lemma disk_rated_zero c p td :
  (td =? 0)%float = true →
  ∃ x, DiskIOCollector.rated c p td = Raise x ∧
       (in_float_range (psutil.read_bytes c - psutil.read_bytes p) →
        x = ZeroDivisionError).
Proof.
  intros Htd. unfold DiskIOCollector.rated.
  destruct (py_truediv_zero
              (psutil.read_bytes c - psutil.read_bytes p) td Htd)
    as (x & -> & Hx).
  by exists x.
Qed.

(** The branch with previous data, reduced to its loop. *)
Lemma disk_collect_previous last t0 now counters :
  bool_decide (counters = ∅) = false →
  truthy_dict (Some last) = true →
  (t0 =? 0)%float = false →
  DiskIOCollector.collect (disk_state last t0) now counters =
    match rate_loop (fun _ => false) DiskIOCollector.rated last
            (now - t0)%float (map_to_list counters) ∅ with
    | Ok d => (Ok d, disk_state counters now)
    | Raise x => (Raise x, disk_state last t0)
    end.
Proof.
  intros Hc Hl Ht. unfold DiskIOCollector.collect. rewrite Hc.
  unfold disk_state at 1 2 3 4. cbn [DiskIOCollector.last_counters DiskIOCollector.last_time].
  rewrite Hl. cbn [truthy_float default]. rewrite Ht. reflexivity.
Qed.

(** With every rate of the update defined on a non-zero interval, the
    call returns the rates of the keys both samples have. *)
Lemma disk_collect_defined last t0 now counters :
  bool_decide (counters = ∅) = false →
  truthy_dict (Some last) = true →
  (t0 =? 0)%float = false →
  (now - t0 =? 0)%float = false →
  (∀ k c p, counters !! k = Some c → last !! k = Some p →
            disk_rates_defined c p (now - t0)) →
  ∃ out,
    DiskIOCollector.collect (disk_state last t0) now counters
      = (Ok out, disk_state counters now) ∧
    (∀ k, last !! k = None → out !! k = None) ∧
    ∀ k c p, counters !! k = Some c → last !! k = Some p →
      ∃ e, out !! k = Some e ∧ disk_rates_spec e p c (now - t0).
Proof.
  intros Hc Hl Ht Hdt Hdef. rewrite disk_collect_previous by done.
  destruct (rate_loop_returns (fun _ => false) DiskIOCollector.rated last
              (now - t0)%float (map_to_list counters) ∅) as [out Hrun].
  { intros k c p Hin _ Hp. apply elem_of_map_to_list in Hin.
    destruct (disk_rated_defined c p _ Hdt (Hdef k c p Hin Hp)) as (e & ? & _).
    by exists e. }
  rewrite Hrun. exists out. split; [done|].
  pose proof (rate_loop_lookup _ _ _ _ _ _ _
                (NoDup_fst_map_to_list counters) Hrun) as Hout.
  split.
  - intros k Hk. rewrite Hout, list_to_map_to_list, Hk, lookup_empty.
    by destruct (counters !! k).
  - intros k c p Hk Hp. rewrite Hout, list_to_map_to_list, Hk, Hp.
    destruct (disk_rated_defined c p _ Hdt (Hdef k c p Hk Hp)) as (e & -> & He).
    by exists e.
Qed.

(** ** NetworkCollector.collect *)

Lemma net_rated_defined c p td :
  (td =? 0)%float = false → net_rates_defined c p td →
  ∃ e, NetworkCollector.rated c p td = Ok e ∧ net_rates_spec e p c td.
Proof.
  intros Htd (H1 & H2 & H3 & H4 & F1 & F2).
  destruct (py_int_of_float_finite _ F1) as (z1 & E1 & T1).
  destruct (py_int_of_float_finite _ F2) as (z2 & E2 & T2).
  eexists. split.
  - unfold NetworkCollector.rated. rewrite !py_truediv_nonzero by done.
    simpl. rewrite E1. simpl. rewrite E2. reflexivity.
  - unfold net_rates_spec. simpl.
    repeat split; try done;
      (eexists; split; [reflexivity|apply py_round2_rounded]).
Qed.

Lemma net_rated_zero c p td :
  (td =? 0)%float = true →
  ∃ x, NetworkCollector.rated c p td = Raise x ∧
       (in_float_range (psutil.bytes_sent c - psutil.bytes_sent p) →
        x = ZeroDivisionError).
Proof.
  intros Htd. unfold NetworkCollector.rated.
  destruct (py_truediv_zero
              (psutil.bytes_sent c - psutil.bytes_sent p) td Htd)
    as (x & -> & Hx).
  by exists x.
Qed.

Lemma net_collect_previous last t0 now counters :
  truthy_dict (Some last) = true →
  (t0 =? 0)%float = false →
  NetworkCollector.collect (net_state last t0) now counters =
    match rate_loop NetworkCollector.is_loopback NetworkCollector.rated last
            (now - t0)%float (map_to_list counters) ∅ with
    | Ok d => (Ok d, net_state counters now)
    | Raise x => (Raise x, net_state last t0)
    end.
Proof.
  intros Hl Ht. unfold NetworkCollector.collect.
  unfold net_state at 1 2 3 4.
  cbn [NetworkCollector.last_counters NetworkCollector.last_time].
  rewrite Hl. cbn [truthy_float default]. rewrite Ht. reflexivity.
Qed.

Lemma net_collect_defined last t0 now counters :
  truthy_dict (Some last) = true →
  (t0 =? 0)%float = false →
  (now - t0 =? 0)%float = false →
  (∀ k c p, NetworkCollector.is_loopback k = false →
            counters !! k = Some c → last !! k = Some p →
            net_rates_defined c p (now - t0)) →
  ∃ out,
    NetworkCollector.collect (net_state last t0) now counters
      = (Ok out, net_state counters now) ∧
    (∀ k, last !! k = None → out !! k = None) ∧
    ∀ k c p, NetworkCollector.is_loopback k = false →
      counters !! k = Some c → last !! k = Some p →
      ∃ e, out !! k = Some e ∧ net_rates_spec e p c (now - t0).
Proof.
  intros Hl Ht Hdt Hdef. rewrite net_collect_previous by done.
  destruct (rate_loop_returns NetworkCollector.is_loopback
              NetworkCollector.rated last
              (now - t0)%float (map_to_list counters) ∅) as [out Hrun].
  { intros k c p Hin Hlo Hp. apply elem_of_map_to_list in Hin.
    destruct (net_rated_defined c p _ Hdt (Hdef k c p Hlo Hin Hp))
      as (e & ? & _).
    by exists e. }
  rewrite Hrun. exists out. split; [done|].
  pose proof (rate_loop_lookup _ _ _ _ _ _ _
                (NoDup_fst_map_to_list counters) Hrun) as Hout.
  split.
  - intros k Hk. rewrite Hout, list_to_map_to_list, Hk, lookup_empty.
    by destruct (counters !! k), (NetworkCollector.is_loopback k).
  - intros k c p Hlo Hk Hp. rewrite Hout, list_to_map_to_list, Hk, Hlo, Hp.
    destruct (net_rated_defined c p _ Hdt (Hdef k c p Hlo Hk Hp))
      as (e & -> & He).
    by exists e.
Qed.

(** ** Claims on the rate-bearing collectors *)

(** Two explicit samples share one key: a statement about every shared
    key is a statement about that key. *)
Ltac shared_key :=
  let Hc := fresh "Hc" in
  let Hp := fresh "Hp" in
  intros ? ? ? Hc Hp;
  apply lookup_singleton_Some in Hp as [<- <-];
  vm_compute in Hc; injection Hc as <-.

Ltac rates_defined :=
  repeat split; vm_compute; first [reflexivity | eexists; reflexivity].


(** The example of the specification, shifted off the epoch: 1000 bytes
    read at second 10 and 3000 at second 12 is 1000 bytes per second. *)
Example disk_io_end_to_end :
  fst (DiskIOCollector.collect
         (disk_state {["sda" := disk 0 0 1000 0]} 10) 12
         {["sda" := disk 0 0 3000 0]}) =
  Ok {["sda" := {| DiskIOCollector.read_bytes_per_sec := 1000;
                   DiskIOCollector.write_bytes_per_sec := 0;
                   DiskIOCollector.read_iops := Float 0;
                   DiskIOCollector.write_iops := Float 0;
                   DiskIOCollector.read_count := 0;
                   DiskIOCollector.write_count := 0;
                   DiskIOCollector.read_bytes := 3000;
                   DiskIOCollector.write_bytes := 0 |}]}.
Proof. vm_compute. reflexivity. Qed.



(** The quotient is the binary64 one: over 60 seconds and one unit in
    the last place, 7549747290 bytes are 125829121 bytes per second,
    while the quotient of the two numbers lies below 125829121. *)
Example disk_rate_is_binary64 :
  ∃ out e dt,
    fst (DiskIOCollector.collect
           (disk_state {["sda" := disk 0 0 0 0]} 1700000000)
           (1700000060 + 0x1p-22)
           {["sda" := disk 0 0 7549747290 0]}) = Ok out ∧
    out !! "sda" = Some e ∧
    DiskIOCollector.read_bytes_per_sec e = 125829121 ∧
    float_value (1700000060 + 0x1p-22 - 1700000000) = Some dt ∧
    (7549747290 / dt < 125829121)%Q.
Proof.
  eexists _, _, _. split; [vm_compute; reflexivity|].
  split; [vm_compute; reflexivity|]. split; [reflexivity|].
  split; [vm_compute; reflexivity|]. vm_compute. reflexivity.
Qed.

(** A held sample whose timestamp is exactly 0 is not seen as held:
    [self.last_time] is tested for truth, and the first-run branch runs. *)
Example disk_collect_epoch_timestamp :
  fst (DiskIOCollector.collect
         (disk_state {["sda" := disk 0 0 1000 0]} 0) 2
         {["sda" := disk 0 0 3000 0]}) =
  Ok {["sda" := DiskIOCollector.first (disk 0 0 3000 0)]}.
Proof. vm_compute. reflexivity. Qed.

(** C2 (as amended): there is no guard on the interval.  With a previous
    sample held and a key in both samples (not a loopback key, for the
    network): when [now - t0] is zero the first division of the loop
    raises and the held sample stays, and what is raised is
    [ZeroDivisionError] when the byte counts of the shared keys convert to
    floats; when [now - t0] is below zero the rates are computed as for a
    positive interval and the held sample becomes [(b, now)]. *)
Theorem C2_nonpositive_interval :
  (∀ (last counters : gmap string psutil.sdiskio) (t0 now : float) k a b,
     last !! k = Some a → counters !! k = Some b →
     (t0 =? 0)%float = false →
     ((now - t0 =? 0)%float = true →
        ∃ x,
          DiskIOCollector.collect (disk_state last t0) now counters
            = (Raise x, disk_state last t0) ∧
          ((∀ k' c p, counters !! k' = Some c → last !! k' = Some p →
              in_float_range (psutil.read_bytes c - psutil.read_bytes p)) →
           x = ZeroDivisionError)) ∧
     ((now - t0 <? 0)%float = true →
      (∀ k' c p, counters !! k' = Some c → last !! k' = Some p →
                 disk_rates_defined c p (now - t0)) →
        ∃ out e,
          DiskIOCollector.collect (disk_state last t0) now counters
            = (Ok out, disk_state counters now) ∧
          out !! k = Some e ∧ disk_rates_spec e a b (now - t0))) ∧
  (∀ (last counters : gmap string psutil.snetio) (t0 now : float) k a b,
     last !! k = Some a → counters !! k = Some b →
     NetworkCollector.is_loopback k = false →
     (t0 =? 0)%float = false →
     ((now - t0 =? 0)%float = true →
        ∃ x,
          NetworkCollector.collect (net_state last t0) now counters
            = (Raise x, net_state last t0) ∧
          ((∀ k' c p, NetworkCollector.is_loopback k' = false →
              counters !! k' = Some c → last !! k' = Some p →
              in_float_range (psutil.bytes_sent c - psutil.bytes_sent p)) →
           x = ZeroDivisionError)) ∧
     ((now - t0 <? 0)%float = true →
      (∀ k' c p, NetworkCollector.is_loopback k' = false →
                 counters !! k' = Some c → last !! k' = Some p →
                 net_rates_defined c p (now - t0)) →
        ∃ out e,
          NetworkCollector.collect (net_state last t0) now counters
            = (Ok out, net_state counters now) ∧
          out !! k = Some e ∧ net_rates_spec e a b (now - t0))).
Proof.
  split.
  - intros last counters t0 now k a b Ha Hb Ht0.
    assert (bool_decide (counters = ∅) = false) as Hc by (by eapply nonempty_lookup).
    assert (truthy_dict (Some last) = true) as Hl by (by eapply truthy_dict_lookup).
    split.
    + intros Hdt. rewrite disk_collect_previous by done.
      destruct (rate_loop_raises (fun _ => false) DiskIOCollector.rated
                  (fun x =>
                     (∀ k' c p, counters !! k' = Some c → last !! k' = Some p →
                        in_float_range
                          (psutil.read_bytes c - psutil.read_bytes p)) →
                     x = ZeroDivisionError)
                  last (now - t0)%float (map_to_list counters) ∅ k b)
        as (x & -> & Hx); [by apply elem_of_map_to_list|done|by eexists| |].
      * intros k' c p Hin _ Hp. apply elem_of_map_to_list in Hin.
        destruct (disk_rated_zero c p _ Hdt) as (x & Hx & Hzero).
        exists x. split; [done|]. intros Hrange. by apply Hzero, (Hrange k').
      * by exists x.
    + intros Hdt Hdef.
      destruct (disk_collect_defined last t0 now counters)
        as (out & Hrun & _ & Hout); [done..| |done|].
      * by apply float_neg_nonzero.
      * destruct (Hout k b a Hb Ha) as (e & He & Hspec). by exists out, e.
  - intros last counters t0 now k a b Ha Hb Hlo Ht0.
    assert (truthy_dict (Some last) = true) as Hl by (by eapply truthy_dict_lookup).
    split.
    + intros Hdt. rewrite net_collect_previous by done.
      destruct (rate_loop_raises NetworkCollector.is_loopback
                  NetworkCollector.rated
                  (fun x =>
                     (∀ k' c p, NetworkCollector.is_loopback k' = false →
                        counters !! k' = Some c → last !! k' = Some p →
                        in_float_range
                          (psutil.bytes_sent c - psutil.bytes_sent p)) →
                     x = ZeroDivisionError)
                  last (now - t0)%float (map_to_list counters) ∅ k b)
        as (x & -> & Hx); [by apply elem_of_map_to_list|done|by eexists| |].
      * intros k' c p Hin Hlo' Hp. apply elem_of_map_to_list in Hin.
        destruct (net_rated_zero c p _ Hdt) as (x & Hx & Hzero).
        exists x. split; [done|]. intros Hrange. by apply Hzero, (Hrange k').
      * by exists x.
    + intros Hdt Hdef.
      destruct (net_collect_defined last t0 now counters)
        as (out & Hrun & _ & Hout); [done..| |done|].
      * by apply float_neg_nonzero.
      * destruct (Hout k b a Hlo Hb Ha) as (e & He & Hspec). by exists out, e.
Qed.

Lemma C2_nonpositive_interval_witness :
  (∃ x,
     DiskIOCollector.collect
       (disk_state {["sda" := disk 0 0 1000 0]} 10) 10
       {["sda" := disk 0 0 3000 0]}
       = (Raise x, disk_state {["sda" := disk 0 0 1000 0]} 10) ∧
     x = ZeroDivisionError) ∧
  (∃ out e,
     NetworkCollector.collect
       (net_state {["eth0" := nic 100 200 1 2]} 10) 8
       {["eth0" := nic 500 200 8 2]}
       = (Ok out, net_state {["eth0" := nic 500 200 8 2]} 8) ∧
     out !! "eth0" = Some e ∧
     net_rates_spec e (nic 100 200 1 2) (nic 500 200 8 2) (8 - 10)).
Proof.
  split.
  - destruct (proj1 C2_nonpositive_interval
                {["sda" := disk 0 0 1000 0]} {["sda" := disk 0 0 3000 0]}
                10%float 10%float "sda" (disk 0 0 1000 0) (disk 0 0 3000 0))
      as [Hzero _].
    + vm_compute; reflexivity.
    + vm_compute; reflexivity.
    + reflexivity.
    + destruct Hzero as (x & Hrun & Hx); [reflexivity|].
      exists x. split; [exact Hrun|]. apply Hx.
      shared_key. vm_compute. reflexivity.
  - destruct (proj2 C2_nonpositive_interval
                {["eth0" := nic 100 200 1 2]} {["eth0" := nic 500 200 8 2]}
                10%float 8%float "eth0" (nic 100 200 1 2) (nic 500 200 8 2))
      as [_ Hneg].
    + vm_compute; reflexivity.
    + vm_compute; reflexivity.
    + reflexivity.
    + reflexivity.
    + apply Hneg; [reflexivity|].
      intros k' c p _. revert k' c p. shared_key. rates_defined.
Defined.

(** C2 as stated fails both ways: a second call at the same clock reading
    raises, and a call at an earlier clock reading reports a non-zero rate
    and replaces the held sample. *)
Lemma C2_degenerate_not_guarded :
  fst (DiskIOCollector.collect
         (disk_state {["sda" := disk 0 0 1000 0]} 10) 10
         {["sda" := disk 0 0 3000 0]}) = Raise ZeroDivisionError ∧
  (∃ out e,
     DiskIOCollector.collect
       (disk_state {["sda" := disk 0 0 1000 0]} 10) 8
       {["sda" := disk 0 0 3000 0]}
       = (Ok out, disk_state {["sda" := disk 0 0 3000 0]} 8) ∧
     out !! "sda" = Some e ∧
     DiskIOCollector.read_bytes_per_sec e = -1000 ∧
     disk_state {["sda" := disk 0 0 3000 0]} 8
       ≠ disk_state {["sda" := disk 0 0 1000 0]} 10).
Proof.
  split; [vm_compute; reflexivity|].
  eexists _, _. split; [vm_compute; reflexivity|].
  split; [vm_compute; reflexivity|]. split; [reflexivity|].
  intros H.
  apply (f_equal (fun s => psutil.read_bytes <$>
                             (DiskIOCollector.last_counters s ≫= lookup "sda")))
    in H.
  vm_compute in H. discriminate H.
Qed.







(** ** Remote configuration *)

(** A 200 response whose body has an integer version and an object of
    thresholds. *)
Lemma fetch_200 self v T i :
  fetch_remote_config self (Response 200 (Some (full_config v T i))) =
    set_check_interval (default 300 i)
      (if v >? threshold_version self
       then set_thresholds (Dict T) v self
       else self).
Proof.
  unfold fetch_remote_config, full_config. simpl.
  by destruct (v >? threshold_version self).
Qed.

(** The two bodies whose handling raises after the decoding: nothing
    changes on a version that is no number; on a newer version with a
    [thresholds] value that is no object, that value and the version are
    held and the check interval is not touched. *)
Lemma fetch_ill_typed self config :
  (cfg_threshold_version config = Some VNotNumber →
     fetch_remote_config self (Response 200 (Some config)) = self) ∧
  (∀ v n, default (VInt 0) (cfg_threshold_version config) = VInt v →
     v > threshold_version self →
     cfg_thresholds config = Some (NotDict n) →
     fetch_remote_config self (Response 200 (Some config))
       = set_thresholds (NotDict n) v self).
Proof.
  split.
  - intros Hv. unfold fetch_remote_config. simpl. by rewrite Hv.
  - intros v n Hv Hgt Hn. unfold fetch_remote_config. simpl.
    rewrite Hv, Hn. simpl. by rewrite (proj2 (Z.gtb_gt _ _) Hgt).
Qed.

(** C3: a fetched version above the held one replaces the held threshold
    set by the fetched set, whole, and the held version by the fetched
    one; a fetched version equal to or below the held one changes neither;
    so a second fetch of the same version with another set keeps the
    first. *)
Theorem C3_reconcile_by_version (self : UptimeSquirrelAgent) (v : Z)
    (T T' : gmap string jvalue) (i i' : option Z) :
  let self1 := fetch_remote_config self (Response 200 (Some (full_config v T i))) in
  let self2 := fetch_remote_config self1 (Response 200 (Some (full_config v T' i'))) in
  (v > threshold_version self →
     remote_thresholds self1 = Dict T ∧ threshold_version self1 = v ∧
     remote_thresholds self2 = Dict T ∧ threshold_version self2 = v) ∧
  (v ≤ threshold_version self →
     remote_thresholds self1 = remote_thresholds self ∧
     threshold_version self1 = threshold_version self) ∧
  remote_thresholds self2 = remote_thresholds self1 ∧
  threshold_version self2 = threshold_version self1.
Proof.
  intros self1 self2. subst self1 self2. rewrite !fetch_200. simpl.
  destruct (v >? threshold_version self) eqn:Hv; simpl.
  - rewrite Z.gtb_ltb, Z.ltb_irrefl. simpl.
    apply Z.gtb_gt in Hv. repeat split; intros; (done || lia).
  - rewrite Hv. simpl. rewrite Z.gtb_ltb in Hv. apply Z.ltb_ge in Hv.
    repeat split; intros; (done || lia).
Qed.

Lemma C3_reconcile_by_version_witness :
  remote_thresholds
    (fetch_remote_config fresh_agent
       (Response 200 (Some (full_config 2 cpu50 (Some 300))))) = Dict cpu50 ∧
  threshold_version
    (fetch_remote_config fresh_agent
       (Response 200 (Some (full_config 2 cpu50 (Some 300))))) = 2 ∧
  remote_thresholds
    (fetch_remote_config
       (fetch_remote_config fresh_agent
          (Response 200 (Some (full_config 2 cpu50 (Some 300)))))
       (Response 200 (Some (full_config 2 cpu99 None)))) = Dict cpu50 ∧
  threshold_version
    (fetch_remote_config
       (fetch_remote_config fresh_agent
          (Response 200 (Some (full_config 2 cpu50 (Some 300)))))
       (Response 200 (Some (full_config 2 cpu99 None)))) = 2.
Proof.
  apply (proj1 (C3_reconcile_by_version fresh_agent 2 cpu50 cpu99 (Some 300) None)).
  reflexivity.
Defined.

(** C10 (as amended): a 200 response whose body decodes to an object
    with a version that is an integer or absent, and with a [thresholds]
    value that is an object or absent where that version exceeds the held
    one, sets the check interval to the body's [check_interval], or to 300
    when the body has none, also when its version does not exceed the held
    one, in which case the held thresholds and version stay. *)
Theorem C10_check_interval_always_updated (self : UptimeSquirrelAgent)
    (config : server_config) (v : Z) :
  default (VInt 0) (cfg_threshold_version config) = VInt v →
  (v > threshold_version self →
   ∃ T, default (Dict ∅) (cfg_thresholds config) = Dict T) →
  let self' := fetch_remote_config self (Response 200 (Some config)) in
  config_check_interval self' = default 300 (cfg_check_interval config) ∧
  (v ≤ threshold_version self →
     remote_thresholds self' = remote_thresholds self ∧
     threshold_version self' = threshold_version self).
Proof.
  intros Hv HT self'. subst self'. unfold fetch_remote_config. simpl.
  rewrite Hv. destruct (v >? threshold_version self) eqn:Hgt.
  - apply Z.gtb_gt in Hgt. destruct (HT Hgt) as [T ->]. simpl.
    split; [done|]. lia.
  - done.
Qed.

Lemma C10_check_interval_always_updated_witness :
  config_check_interval
    (fetch_remote_config agent_v2
       (Response 200 (Some (full_config 2 cpu99 (Some 60))))) = 60 ∧
  (2 ≤ threshold_version agent_v2 →
   remote_thresholds
     (fetch_remote_config agent_v2
        (Response 200 (Some (full_config 2 cpu99 (Some 60)))))
     = remote_thresholds agent_v2 ∧
   threshold_version
     (fetch_remote_config agent_v2
        (Response 200 (Some (full_config 2 cpu99 (Some 60)))))
     = threshold_version agent_v2).
Proof.
  apply (C10_check_interval_always_updated agent_v2
           (full_config 2 cpu99 (Some 60)) 2).
  - reflexivity.
  - intros _. by exists cpu99.
Defined.

(** C10 as stated fails: a 200 response whose version is null, and one
    with a newer version whose [thresholds] value is an array, both carry
    a check interval of 60 and leave the held one at 300; the second has
    by then replaced the held thresholds and version. *)
Lemma C10_interval_kept_on_ill_typed_body :
  let null_version :=
    {| cfg_threshold_version := Some VNotNumber;
       cfg_thresholds := Some (Dict cpu99);
       cfg_check_interval := Some 60 |} in
  let array_thresholds :=
    {| cfg_threshold_version := Some (VInt 3);
       cfg_thresholds := Some (NotDict (NArray [Some "cpu"]));
       cfg_check_interval := Some 60 |} in
  config_check_interval
    (fetch_remote_config agent_v2 (Response 200 (Some null_version))) = 300 ∧
  config_check_interval
    (fetch_remote_config agent_v2 (Response 200 (Some array_thresholds)))
    = 300 ∧
  remote_thresholds
    (fetch_remote_config agent_v2 (Response 200 (Some array_thresholds)))
    = NotDict (NArray [Some "cpu"]) ∧
  threshold_version
    (fetch_remote_config agent_v2 (Response 200 (Some array_thresholds))) = 3.
Proof. repeat split. Qed.

(** The same stale fetch, evaluated: the interval moves from 300 to 60
    while the thresholds stay at version 2. *)
Example stale_fetch_moves_interval :
  config_check_interval agent_v2 = 300 ∧
  config_check_interval
    (fetch_remote_config agent_v2
       (Response 200 (Some (full_config 2 cpu99 (Some 60))))) = 60 ∧
  remote_thresholds
    (fetch_remote_config agent_v2
       (Response 200 (Some (full_config 2 cpu99 (Some 60))))) = Dict cpu50.
Proof. repeat split. Qed.

(** Other statuses, a body that does not decode and a failed request
    change nothing. *)
Lemma fetch_other_outcomes self code body :
  code ≠ 200 →
  fetch_remote_config self (Response code body) = self ∧
  fetch_remote_config self (Response 200 None) = self ∧
  fetch_remote_config self RequestException = self.
Proof.
  intros Hc. unfold fetch_remote_config.
  destruct (code =? 200) eqn:E; [apply Z.eqb_eq in E; lia|done].
Qed.

(** ** Threshold attribution *)

Lemma active_thresholds_source self th :
  active_thresholds self = Ok th →
  Metrics.source th =
    if truthy_thresholds (remote_thresholds self) then "remote" else "local".
Proof.
  unfold active_thresholds.
  destruct (get_threshold self "cpu" 80) as [c|]; [|done].
  destruct (get_threshold self "memory" 85) as [m|]; [|done].
  destruct (get_threshold self "disk" 90) as [d|]; [|done].
  by intros [= <-].
Qed.

(** C9: in a snapshot that [collect_metrics] builds, the source is
    ["remote"] exactly when the held remote set is not empty, and
    ["local"] otherwise, whichever keys that set has; for a held value
    that is no object, not empty reads as true. *)
Theorem C9_source_is_remote_iff_nonempty (self self' : UptimeSquirrelAgent)
    (s : sample) (m : Metrics.t) :
  collect_metrics self s = (Ok m, self') →
  (∀ T, remote_thresholds self = Dict T →
     (Metrics.source (Metrics.active m) = "remote" ↔ T ≠ ∅) ∧
     (Metrics.source (Metrics.active m) = "local" ↔ T = ∅)) ∧
  (Metrics.source (Metrics.active m) = "remote"
     ↔ truthy_thresholds (remote_thresholds self) = true) ∧
  (Metrics.source (Metrics.active m) = "local"
     ↔ truthy_thresholds (remote_thresholds self) = false).
Proof.
  unfold collect_metrics.
  destruct (active_thresholds self) as [th|] eqn:Hth; [|done].
  destruct (DiskIOCollector.collect _ _ _) as [d dc].
  destruct (NetworkCollector.collect _ _ _) as [n nc].
  intros [= <- _]. simpl. rewrite (active_thresholds_source _ _ Hth).
  split.
  - intros T ->. simpl. destruct (decide (T = ∅)) as [He|Hne].
    + rewrite bool_decide_eq_true_2 by done. split; split; done.
    + rewrite bool_decide_eq_false_2 by done. split; split; done.
  - destruct (truthy_thresholds (remote_thresholds self)); split; split; done.
Qed.

Lemma C9_source_is_remote_iff_nonempty_witness :
  match collect_metrics agent_load sample0 with
  | (Ok m, _) =>
      (∀ T, remote_thresholds agent_load = Dict T →
         (Metrics.source (Metrics.active m) = "remote" ↔ T ≠ ∅) ∧
         (Metrics.source (Metrics.active m) = "local" ↔ T = ∅)) ∧
      (Metrics.source (Metrics.active m) = "remote"
         ↔ truthy_thresholds (remote_thresholds agent_load) = true) ∧
      (Metrics.source (Metrics.active m) = "local"
         ↔ truthy_thresholds (remote_thresholds agent_load) = false)
  | (Raise _, _) => False
  end.
Proof.
  destruct (collect_metrics agent_load sample0) as [[m|e] self'] eqn:E.
  - exact (C9_source_is_remote_iff_nonempty agent_load self' sample0 m E).
  - vm_compute in E. discriminate E.
Defined.

(** With only a [load] threshold held, the three thresholds of the
    snapshot are the local defaults and the source still reads remote. *)
Example source_remote_without_metric_keys :
  match fst (collect_metrics agent_load sample0) with
  | Ok m =>
      Metrics.source (Metrics.active m) = "remote" ∧
      Metrics.cpu (Metrics.active m) = 80%Q ∧
      Metrics.memory (Metrics.active m) = 85%Q ∧
      Metrics.disk (Metrics.active m) = 90%Q
  | Raise _ => False
  end.
Proof. vm_compute. repeat split. Qed.

(** A held value that is no object: an empty array reads local, and an
    array that names no metric reads remote over the local thresholds. *)
Example source_of_held_array :
  (Metrics.source <$>
     entry_of (active_thresholds
                 (set_thresholds (NotDict (NArray [])) 4 fresh_agent)))
    = Some "local" ∧
  (Metrics.source <$>
     entry_of (active_thresholds
                 (set_thresholds (NotDict (NArray [Some "load"])) 4
                    fresh_agent)))
    = Some "remote" ∧
  active_thresholds
    (set_thresholds (NotDict (NArray [Some "cpu"])) 4 fresh_agent)
    = Raise TypeError ∧
  active_thresholds (set_thresholds (NotDict NNull) 4 fresh_agent)
    = Raise TypeError.
Proof. vm_compute. repeat split. Qed.

(** ** Delivery *)

Lemma post_answer p w :
  post p w =
    (reply w (calls w),
     {| reply := reply w; calls := S (calls w); posted := posted w ++ [p];
        log := log w |}).
Proof. reflexivity. Qed.

(** The failure path of [report_metrics]. *)
Lemma report_metrics_failure self m w :
  delivered (reply w (calls w)) = false →
  ∃ w',
    report_metrics self m w =
      (set_delivery
         (if consecutive_failures self + 1 <? max_consecutive_failures self
          then add (metric_buffer self) m else metric_buffer self)
         (consecutive_failures self + 1) self, w') ∧
    reply w' = reply w ∧ calls w' = S (calls w) ∧
    posted w' = posted w ++ [metrics_payload m].
Proof.
  intros Hfail. unfold report_metrics. rewrite post_answer. simpl.
  rewrite Hfail.
  destruct (consecutive_failures self + 1 <? max_consecutive_failures self);
    eexists; (split; [reflexivity|done]).
Qed.

Lemma report_all_failures self ms w :
  fails_from w (calls w) →
  ∃ self' w',
    report_all self ms w = (self', w') ∧
    consecutive_failures self'
      = consecutive_failures self + Z.of_nat (length ms) ∧
    max_consecutive_failures self' = max_consecutive_failures self ∧
    reply w' = reply w ∧ calls w' = (calls w + length ms)%nat.
Proof.
  revert self w. induction ms as [|m ms IH]; intros self w Hfail.
  - exists self, w. simpl. repeat split; lia.
  - simpl.
    destruct (report_metrics_failure self m w) as (w1 & -> & Hr & Hc & _).
    { apply Hfail. lia. }
    destruct (IH (set_delivery
                    (if consecutive_failures self + 1 <? max_consecutive_failures self
                     then add (metric_buffer self) m else metric_buffer self)
                    (consecutive_failures self + 1) self) w1)
      as (self' & w' & -> & Hcf & Hmax & Hr' & Hc').
    { intros k Hk. rewrite Hr. apply Hfail. lia. }
    exists self', w'. split; [done|]. simpl in Hcf, Hmax.
    repeat split; [lia|done|congruence|lia].
Qed.

(** C4: on a delivery failure the counter goes up by one and the snapshot
    is pushed exactly when the new count is below 5: the buffer is then
    the result of [add], the snapshot is its newest entry and, where there
    was room, the older entries are all kept before it; otherwise the
    buffer is left as it was; after five failures in a row, a sixth failed
    snapshot leaves the buffer unchanged. *)
Theorem C4_failure_buffers_below_ceiling :
  (∀ self m w,
     max_consecutive_failures self = 5 →
     delivered (reply w (calls w)) = false →
     consecutive_failures (fst (report_metrics self m w))
       = consecutive_failures self + 1 ∧
     (consecutive_failures (fst (report_metrics self m w)) < 5 →
        metric_buffer (fst (report_metrics self m w))
          = add (metric_buffer self) m ∧
        maxlen (metric_buffer (fst (report_metrics self m w)))
          = maxlen (metric_buffer self) ∧
        ((0 < maxlen (metric_buffer self))%nat →
           last (buffer (metric_buffer (fst (report_metrics self m w))))
             = Some m) ∧
        ((length (buffer (metric_buffer self))
            < maxlen (metric_buffer self))%nat →
           buffer (metric_buffer (fst (report_metrics self m w)))
             = buffer (metric_buffer self) ++ [m])) ∧
     (5 ≤ consecutive_failures (fst (report_metrics self m w)) →
        metric_buffer (fst (report_metrics self m w)) = metric_buffer self)) ∧
  (∀ self ms m6 w,
     max_consecutive_failures self = 5 →
     0 ≤ consecutive_failures self →
     length ms = 5%nat →
     fails_from w (calls w) →
     metric_buffer
       (fst (report_metrics (fst (report_all self ms w)) m6
               (snd (report_all self ms w))))
       = metric_buffer (fst (report_all self ms w))).
Proof.
  split.
  - intros self m w Hmax Hfail.
    destruct (report_metrics_failure self m w Hfail) as (w' & -> & _).
    rewrite Hmax. simpl.
    destruct (consecutive_failures self + 1 <? 5) eqn:Hlt.
    + apply Z.ltb_lt in Hlt. split; [done|]. split; [|intros; lia].
      intros _. split; [done|]. split; [done|]. simpl. split.
      * apply deque_append_last.
      * apply deque_append_room.
    + apply Z.ltb_ge in Hlt. repeat split; intros; (done || lia).
  - intros self ms m6 w Hmax Hcf Hlen Hfail.
    destruct (report_all_failures self ms w Hfail)
      as (s5 & w5 & -> & Hcf5 & Hmax5 & Hr5 & Hc5).
    simpl.
    destruct (report_metrics_failure s5 m6 w5) as (w6 & -> & _).
    { rewrite Hr5. apply Hfail. lia. }
    simpl. rewrite Hmax5, Hmax, Hcf5, Hlen.
    destruct (_ <? 5) eqn:Hlt; [|done].
    apply Z.ltb_lt in Hlt. lia.
Qed.

Lemma C4_failure_buffers_below_ceiling_witness :
  (consecutive_failures (fst (report_metrics fresh_agent (snapshot 1) down))
     = consecutive_failures fresh_agent + 1 ∧
   (consecutive_failures (fst (report_metrics fresh_agent (snapshot 1) down)) < 5 →
      metric_buffer (fst (report_metrics fresh_agent (snapshot 1) down))
        = add (metric_buffer fresh_agent) (snapshot 1) ∧
      maxlen (metric_buffer (fst (report_metrics fresh_agent (snapshot 1) down)))
        = maxlen (metric_buffer fresh_agent) ∧
      ((0 < maxlen (metric_buffer fresh_agent))%nat →
         last (buffer (metric_buffer
                         (fst (report_metrics fresh_agent (snapshot 1) down))))
           = Some (snapshot 1)) ∧
      ((length (buffer (metric_buffer fresh_agent))
          < maxlen (metric_buffer fresh_agent))%nat →
         buffer (metric_buffer
                   (fst (report_metrics fresh_agent (snapshot 1) down)))
           = buffer (metric_buffer fresh_agent) ++ [snapshot 1])) ∧
   (5 ≤ consecutive_failures (fst (report_metrics fresh_agent (snapshot 1) down)) →
      metric_buffer (fst (report_metrics fresh_agent (snapshot 1) down))
        = metric_buffer fresh_agent)) ∧
  metric_buffer
    (fst (report_metrics
            (fst (report_all fresh_agent
                    [snapshot 1; snapshot 2; snapshot 3; snapshot 4; snapshot 5]
                    down))
            (snapshot 6)
            (snd (report_all fresh_agent
                    [snapshot 1; snapshot 2; snapshot 3; snapshot 4; snapshot 5]
                    down))))
    = metric_buffer
        (fst (report_all fresh_agent
                [snapshot 1; snapshot 2; snapshot 3; snapshot 4; snapshot 5]
                down)).
Proof.
  split.
  - apply (proj1 C4_failure_buffers_below_ceiling fresh_agent (snapshot 1) down);
      reflexivity.
  - apply (proj2 C4_failure_buffers_below_ceiling fresh_agent
             [snapshot 1; snapshot 2; snapshot 3; snapshot 4; snapshot 5]
             (snapshot 6) down).
    + reflexivity.
    + vm_compute; discriminate.
    + reflexivity.
    + intros k _. reflexivity.
Defined.

(** Six failures in a row from a fresh agent: the first four snapshots are
    buffered, the fifth and the sixth are not. *)
Example six_failures_buffer_four :
  buffer (metric_buffer
            (fst (report_all fresh_agent
                    [snapshot 1; snapshot 2; snapshot 3;
                     snapshot 4; snapshot 5; snapshot 6] down)))
    = [snapshot 1; snapshot 2; snapshot 3; snapshot 4] ∧
  consecutive_failures
    (fst (report_all fresh_agent
            [snapshot 1; snapshot 2; snapshot 3;
             snapshot 4; snapshot 5; snapshot 6] down)) = 6.
Proof. vm_compute. split; reflexivity. Qed.

(** The redelivery loop posts every drained entry once, in order, and
    logs an error for those whose POST raised. *)
Lemma send_buffered_run l w :
  reply (send_buffered l w) = reply w ∧
  calls (send_buffered l w) = (calls w + length l)%nat ∧
  posted (send_buffered l w) = posted w ++ (metrics_payload <$> l) ∧
  log (send_buffered l w)
    = log w ++ (ErrorFailedBuffered <$> raised_entries (reply w) (calls w) l).
Proof.
  revert w. induction l as [|m l IH]; intros w.
  - simpl. rewrite !app_nil_r. repeat split; lia.
  - simpl. destruct (reply w (calls w)) eqn:Hr.
    + destruct (IH {| reply := reply w; calls := S (calls w);
                      posted := posted w ++ [metrics_payload m];
                      log := log w |}) as (H1 & H2 & H3 & H4).
      simpl in *. rewrite H1, H2, H3, H4, <- app_assoc.
      repeat split; lia.
    + destruct (IH (emit (ErrorFailedBuffered m)
                      {| reply := reply w; calls := S (calls w);
                         posted := posted w ++ [metrics_payload m];
                         log := log w |})) as (H1 & H2 & H3 & H4).
      simpl in *. rewrite H1, H2, H3, H4, <- !app_assoc.
      repeat split; lia.
Qed.

(** X29: when the snapshot is delivered, the failure counter is zero
    afterwards and the buffer is empty; the POSTs made are the snapshot and
    then every buffered entry once, oldest first; an error is logged for
    exactly the entries whose redelivery POST raised an exception, and
    none of them is put back. *)
Theorem delivery_resets_and_drains (self : UptimeSquirrelAgent)
    (m : Metrics.t) (w : world) :
  delivered (reply w (calls w)) = true →
  consecutive_failures (fst (report_metrics self m w)) = 0 ∧
  buffer (metric_buffer (fst (report_metrics self m w))) = [] ∧
  maxlen (metric_buffer (fst (report_metrics self m w)))
    = maxlen (metric_buffer self) ∧
  posted (snd (report_metrics self m w))
    = posted w ++ metrics_payload m
        :: (metrics_payload <$> buffer (metric_buffer self)) ∧
  calls (snd (report_metrics self m w))
    = S (calls w + length (buffer (metric_buffer self))) ∧
  log (snd (report_metrics self m w))
    = log w
      ++ [if network_truthy (Metrics.network m)
          then InfoSendingNetwork else WarningNoNetworkData]
      ++ (if size (metric_buffer self) >? 0
          then [InfoSendingBuffered (size (metric_buffer self))] else [])
      ++ (ErrorFailedBuffered <$>
            raised_entries (reply w) (S (calls w)) (buffer (metric_buffer self)))
      ++ [DebugReported].
Proof.
  intros Hok. unfold report_metrics. rewrite post_answer. simpl.
  rewrite Hok. simpl.
  destruct (size (metric_buffer self) >? 0) eqn:Hsize.
  - simpl.
    match goal with
    | |- context [send_buffered ?l ?w0] =>
        destruct (send_buffered_run l w0) as (H1 & H2 & H3 & H4)
    end.
    simpl in *. rewrite H2, H3, H4.
    repeat split; try lia; by rewrite <- ?app_assoc.
  - assert (buffer (metric_buffer self) = []) as Hnil.
    { unfold size in Hsize. rewrite Z.gtb_ltb in Hsize.
      apply Z.ltb_ge in Hsize. destruct (buffer (metric_buffer self)); [done|].
      simpl in Hsize. lia. }
    simpl. rewrite Hnil. simpl.
    repeat split; try lia; by rewrite <- ?app_assoc.
Qed.

Lemma delivery_resets_and_drains_witness :
  consecutive_failures (fst (report_metrics agent_backlog (snapshot 4) recovering)) = 0 ∧
  buffer (metric_buffer (fst (report_metrics agent_backlog (snapshot 4) recovering))) = [] ∧
  maxlen (metric_buffer (fst (report_metrics agent_backlog (snapshot 4) recovering)))
    = maxlen (metric_buffer agent_backlog) ∧
  posted (snd (report_metrics agent_backlog (snapshot 4) recovering))
    = posted recovering ++ metrics_payload (snapshot 4)
        :: (metrics_payload <$> buffer (metric_buffer agent_backlog)) ∧
  calls (snd (report_metrics agent_backlog (snapshot 4) recovering))
    = S (calls recovering + length (buffer (metric_buffer agent_backlog))) ∧
  log (snd (report_metrics agent_backlog (snapshot 4) recovering))
    = log recovering
      ++ [if network_truthy (Metrics.network (snapshot 4))
          then InfoSendingNetwork else WarningNoNetworkData]
      ++ (if size (metric_buffer agent_backlog) >? 0
          then [InfoSendingBuffered (size (metric_buffer agent_backlog))] else [])
      ++ (ErrorFailedBuffered <$>
            raised_entries (reply recovering) (S (calls recovering))
              (buffer (metric_buffer agent_backlog)))
      ++ [DebugReported].
Proof.
  apply (delivery_resets_and_drains agent_backlog (snapshot 4) recovering).
  reflexivity.
Defined.

(** The same delivery, evaluated: four POSTs in order, one logged error
    (the dropped connection), nothing logged for the 400, buffer empty. *)
Example recovery_drains_backlog :
  p_timestamp <$> posted (snd (report_metrics agent_backlog (snapshot 4) recovering))
    = [4; 1; 2; 3] ∧
  log (snd (report_metrics agent_backlog (snapshot 4) recovering))
    = [WarningNoNetworkData; InfoSendingBuffered 3;
       ErrorFailedBuffered (snapshot 1); DebugReported] ∧
  buffer (metric_buffer (fst (report_metrics agent_backlog (snapshot 4) recovering)))
    = [] ∧
  consecutive_failures (fst (report_metrics agent_backlog (snapshot 4) recovering))
    = 0.
Proof. vm_compute. repeat split. Qed.

(** C5: the code at the input on which it departs from the claim.  One
    snapshot is buffered, the new snapshot is delivered, and the re-post
    of the buffered one is answered 400, a failure by the test the first
    POST goes through.  The entry is posted once and is gone from the
    buffer, the counter is zero, and the log has no error for it: the
    redelivery loop does not look at the response. *)
Theorem C5_rejected_repost_is_not_logged :
  delivered (reply rejecting 0) = true ∧
  delivered (reply rejecting 1) = false ∧
  buffer (metric_buffer agent_one_buffered) = [snapshot 1] ∧
  p_timestamp <$>
    posted (snd (report_metrics agent_one_buffered (snapshot 2) rejecting))
    = [2; 1] ∧
  buffer (metric_buffer
            (fst (report_metrics agent_one_buffered (snapshot 2) rejecting)))
    = [] ∧
  consecutive_failures
    (fst (report_metrics agent_one_buffered (snapshot 2) rejecting)) = 0 ∧
  log (snd (report_metrics agent_one_buffered (snapshot 2) rejecting))
    = [WarningNoNetworkData; InfoSendingBuffered 1; DebugReported] ∧
  ErrorFailedBuffered (snapshot 1)
    ∉ log (snd (report_metrics agent_one_buffered (snapshot 2) rejecting)).
Proof.
  vm_compute. repeat split.
  intros H. repeat (apply elem_of_cons in H as [H|H]; [discriminate H|]).
  by apply elem_of_nil in H.
Qed.

(** C6: a [MetricBuffer] with the default capacity never holds more than
    100 entries, whatever is called on it; [add] at capacity drops the
    oldest entry and keeps 100; after a run of [add]s it holds the last 100
    pushed, oldest first; [get_all] returns the held entries in that order
    and leaves the buffer empty; [size] is the number held. *)
Theorem C6_metric_buffer_bounded_fifo (M : Type) :
  (∀ ops : list (buffer_op M),
     (length (buffer (run_ops (MetricBuffer_init default_max_size) ops))
        ≤ 100)%nat) ∧
  (∀ (b : MetricBuffer M) (x : M),
     maxlen b = 100%nat → length (buffer b) = 100%nat →
     buffer (add b x) = drop 1 (buffer b) ++ [x] ∧
     length (buffer (add b x)) = 100%nat) ∧
  (∀ ms : list M,
     buffer (foldl add (MetricBuffer_init default_max_size) ms)
       = drop (length ms - 100) ms) ∧
  (∀ b : MetricBuffer M,
     fst (get_all b) = buffer b ∧ buffer (snd (get_all b)) = [] ∧
     maxlen (snd (get_all b)) = maxlen b) ∧
  (∀ b : MetricBuffer M, size b = Z.of_nat (length (buffer b))).
Proof.
  split; [|split; [|split; [|split]]].
  - intros ops.
    apply (run_ops_bound (MetricBuffer_init default_max_size) ops).
    simpl. lia.
  - intros b x Hmax Hlen. simpl. rewrite Hmax.
    rewrite deque_append_full by lia.
    destruct (buffer b) as [|y d]; [done|]. simpl. rewrite drop_0.
    split; [done|]. rewrite length_app. simpl in *. lia.
  - intros ms. apply adds_keep_last.
  - done.
  - done.
Qed.

Lemma C6_metric_buffer_bounded_fifo_witness :
  buffer (add {| maxlen := 100; buffer := seqZ 0 100 |} 100)
    = drop 1 (seqZ 0 100) ++ [100] ∧
  length (buffer (add {| maxlen := 100; buffer := seqZ 0 100 |} 100)) = 100%nat.
Proof.
  apply (proj1 (proj2 (C6_metric_buffer_bounded_fifo Z))
           {| maxlen := 100; buffer := seqZ 0 100 |} 100).
  - reflexivity.
  - vm_compute; reflexivity.
Defined.

(** Pushing 101 entries into an empty buffer keeps entries 1 to 100. *)
Example buffer_overflow_evicts_oldest :
  buffer (foldl add (MetricBuffer_init default_max_size) (seqZ 0 101))
    = seqZ 1 100.
Proof. vm_compute. reflexivity. Qed.

(** * Further properties *)

(** ** First run and consecutive collections *)

Lemma disk_collect_first_run self now counters :
  counters ≠ ∅ →
  truthy_dict (DiskIOCollector.last_counters self)
    && truthy_float (DiskIOCollector.last_time self) = false →
  DiskIOCollector.collect self now counters =
    (Ok (first_loop (fun _ => false) DiskIOCollector.first
           (map_to_list counters) ∅),
     disk_state counters now).
Proof.
  intros Hc Hfalse. unfold DiskIOCollector.collect.
  rewrite bool_decide_eq_false_2 by done. by rewrite Hfalse.
Qed.

Lemma net_collect_first_run self now counters :
  truthy_dict (NetworkCollector.last_counters self)
    && truthy_float (NetworkCollector.last_time self) = false →
  NetworkCollector.collect self now counters =
    (Ok (first_loop NetworkCollector.is_loopback NetworkCollector.first
           (map_to_list counters) ∅),
     net_state counters now).
Proof. intros Hfalse. unfold NetworkCollector.collect. by rewrite Hfalse. Qed.

(** X1: a collection that finds no usable previous sample (none held, an
    empty one, or one stamped 0) returns every key of the counters, for the
    network every key that is not loopback, with the four rates at the
    integer 0 and the raw counters of the reading, returns no other key,
    and holds [(counters, now)] afterwards. *)
Theorem first_run_reports_zero_rates :
  (∀ self now (counters : gmap string psutil.sdiskio),
     counters ≠ ∅ →
     truthy_dict (DiskIOCollector.last_counters self)
       && truthy_float (DiskIOCollector.last_time self) = false →
     ∃ out,
       DiskIOCollector.collect self now counters
         = (Ok out, disk_state counters now) ∧
       (∀ k, counters !! k = None → out !! k = None) ∧
       ∀ k c, counters !! k = Some c →
         ∃ e, out !! k = Some e ∧
           DiskIOCollector.read_bytes_per_sec e = 0 ∧
           DiskIOCollector.write_bytes_per_sec e = 0 ∧
           DiskIOCollector.read_iops e = Int 0 ∧
           DiskIOCollector.write_iops e = Int 0 ∧
           DiskIOCollector.read_count e = psutil.read_count c ∧
           DiskIOCollector.write_count e = psutil.write_count c ∧
           DiskIOCollector.read_bytes e = psutil.read_bytes c ∧
           DiskIOCollector.write_bytes e = psutil.write_bytes c) ∧
  (∀ self now (counters : gmap string psutil.snetio),
     truthy_dict (NetworkCollector.last_counters self)
       && truthy_float (NetworkCollector.last_time self) = false →
     ∃ out,
       NetworkCollector.collect self now counters
         = (Ok out, net_state counters now) ∧
       (∀ k, counters !! k = None ∨ NetworkCollector.is_loopback k = true →
             out !! k = None) ∧
       ∀ k c, counters !! k = Some c →
         NetworkCollector.is_loopback k = false →
         ∃ e, out !! k = Some e ∧
           NetworkCollector.bytes_sent_per_sec e = 0 ∧
           NetworkCollector.bytes_recv_per_sec e = 0 ∧
           NetworkCollector.packets_sent_per_sec e = Int 0 ∧
           NetworkCollector.packets_recv_per_sec e = Int 0 ∧
           NetworkCollector.bytes_sent e = psutil.bytes_sent c ∧
           NetworkCollector.bytes_recv e = psutil.bytes_recv c ∧
           NetworkCollector.packets_sent e = psutil.packets_sent c ∧
           NetworkCollector.packets_recv e = psutil.packets_recv c ∧
           NetworkCollector.errin e = psutil.errin c ∧
           NetworkCollector.errout e = psutil.errout c ∧
           NetworkCollector.dropin e = psutil.dropin c ∧
           NetworkCollector.dropout e = psutil.dropout c).
Proof.
  split.
  - intros self now counters Hc Hfalse. eexists. split; [|split].
    + by apply disk_collect_first_run.
    + intros k Hk. rewrite first_loop_lookup by apply NoDup_fst_map_to_list.
      by rewrite list_to_map_to_list, lookup_empty, Hk.
    + intros k c Hk. eexists. split.
      * rewrite first_loop_lookup by apply NoDup_fst_map_to_list.
        by rewrite list_to_map_to_list, Hk.
      * done.
  - intros self now counters Hfalse. eexists. split; [|split].
    + by apply net_collect_first_run.
    + intros k Hk. rewrite first_loop_lookup by apply NoDup_fst_map_to_list.
      rewrite list_to_map_to_list, lookup_empty.
      destruct Hk as [->| ->]; [done|]. by destruct (counters !! k).
    + intros k c Hk Hlo. eexists. split.
      * rewrite first_loop_lookup by apply NoDup_fst_map_to_list.
        by rewrite list_to_map_to_list, Hk, Hlo.
      * done.
Qed.

Lemma first_run_reports_zero_rates_witness :
  (∃ out,
     DiskIOCollector.collect DiskIOCollector.init 10
       {["sda" := disk 1 2 3 4]}
       = (Ok out, disk_state {["sda" := disk 1 2 3 4]} 10) ∧
     (∀ k, ({["sda" := disk 1 2 3 4]} : gmap string psutil.sdiskio) !! k
             = None → out !! k = None) ∧
     ∀ k c,
       ({["sda" := disk 1 2 3 4]} : gmap string psutil.sdiskio) !! k
         = Some c →
       ∃ e, out !! k = Some e ∧
         DiskIOCollector.read_bytes_per_sec e = 0 ∧
         DiskIOCollector.write_bytes_per_sec e = 0 ∧
         DiskIOCollector.read_iops e = Int 0 ∧
         DiskIOCollector.write_iops e = Int 0 ∧
         DiskIOCollector.read_count e = psutil.read_count c ∧
         DiskIOCollector.write_count e = psutil.write_count c ∧
         DiskIOCollector.read_bytes e = psutil.read_bytes c ∧
         DiskIOCollector.write_bytes e = psutil.write_bytes c) ∧
  (∃ out,
     NetworkCollector.collect (net_state ∅ 5) 10
       {["eth0" := nic 1 2 3 4]}
       = (Ok out, net_state {["eth0" := nic 1 2 3 4]} 10) ∧
     (∀ k, ({["eth0" := nic 1 2 3 4]} : gmap string psutil.snetio) !! k
             = None ∨ NetworkCollector.is_loopback k = true →
           out !! k = None) ∧
     ∀ k c,
       ({["eth0" := nic 1 2 3 4]} : gmap string psutil.snetio) !! k
         = Some c →
       NetworkCollector.is_loopback k = false →
       ∃ e, out !! k = Some e ∧
         NetworkCollector.bytes_sent_per_sec e = 0 ∧
         NetworkCollector.bytes_recv_per_sec e = 0 ∧
         NetworkCollector.packets_sent_per_sec e = Int 0 ∧
         NetworkCollector.packets_recv_per_sec e = Int 0 ∧
         NetworkCollector.bytes_sent e = psutil.bytes_sent c ∧
         NetworkCollector.bytes_recv e = psutil.bytes_recv c ∧
         NetworkCollector.packets_sent e = psutil.packets_sent c ∧
         NetworkCollector.packets_recv e = psutil.packets_recv c ∧
         NetworkCollector.errin e = psutil.errin c ∧
         NetworkCollector.errout e = psutil.errout c ∧
         NetworkCollector.dropin e = psutil.dropin c ∧
         NetworkCollector.dropout e = psutil.dropout c).
Proof.
  split.
  - apply (proj1 first_run_reports_zero_rates DiskIOCollector.init 10%float
             {["sda" := disk 1 2 3 4]}).
    + apply (bool_decide_eq_false_1 _). vm_compute; reflexivity.
    + reflexivity.
  - apply (proj2 first_run_reports_zero_rates (net_state ∅ 5) 10%float
             {["eth0" := nic 1 2 3 4]}).
    vm_compute; reflexivity.
Defined.

(** X2: two collections in a row on a new collector, at times [t0] and
    [t1] with [t0] not 0 and the float [t1 - t0] above zero: where every
    rate of the second is defined, it returns, for a key seen both times,
    the rates over [t1 - t0] against the first reading. *)
Theorem second_collection_rates_against_first :
  (∀ (c0 c1 : gmap string psutil.sdiskio) (t0 t1 : float) k a b,
     c0 !! k = Some a → c1 !! k = Some b →
     (t0 =? 0)%float = false → (0 <? t1 - t0)%float = true →
     (∀ k' c p, c1 !! k' = Some c → c0 !! k' = Some p →
                disk_rates_defined c p (t1 - t0)) →
     ∃ out e,
       DiskIOCollector.collect
         (snd (DiskIOCollector.collect DiskIOCollector.init t0 c0)) t1 c1
         = (Ok out, disk_state c1 t1) ∧
       out !! k = Some e ∧ disk_rates_spec e a b (t1 - t0)) ∧
  (∀ (c0 c1 : gmap string psutil.snetio) (t0 t1 : float) k a b,
     c0 !! k = Some a → c1 !! k = Some b →
     NetworkCollector.is_loopback k = false →
     (t0 =? 0)%float = false → (0 <? t1 - t0)%float = true →
     (∀ k' c p, NetworkCollector.is_loopback k' = false →
                c1 !! k' = Some c → c0 !! k' = Some p →
                net_rates_defined c p (t1 - t0)) →
     ∃ out e,
       NetworkCollector.collect
         (snd (NetworkCollector.collect NetworkCollector.init t0 c0)) t1 c1
         = (Ok out, net_state c1 t1) ∧
       out !! k = Some e ∧ net_rates_spec e a b (t1 - t0)).
Proof.
  split.
  - intros c0 c1 t0 t1 k a b Ha Hb Ht0 Hdt Hdef.
    rewrite (disk_collect_first_run DiskIOCollector.init t0 c0);
      [|intros E; rewrite E in Ha; by rewrite lookup_empty in Ha|done].
    simpl.
    destruct (disk_collect_defined c0 t0 t1 c1)
      as (out & Hrun & _ & Hout); [| |done| |done|].
    + by eapply nonempty_lookup.
    + by eapply truthy_dict_lookup.
    + by apply float_pos_nonzero.
    + destruct (Hout k b a Hb Ha) as (e & He & Hspec). by exists out, e.
  - intros c0 c1 t0 t1 k a b Ha Hb Hlo Ht0 Hdt Hdef.
    rewrite (net_collect_first_run NetworkCollector.init t0 c0) by done. simpl.
    destruct (net_collect_defined c0 t0 t1 c1)
      as (out & Hrun & _ & Hout); [|done| |done|].
    + by eapply truthy_dict_lookup.
    + by apply float_pos_nonzero.
    + destruct (Hout k b a Hlo Hb Ha) as (e & He & Hspec). by exists out, e.
Qed.

Lemma second_collection_rates_against_first_witness :
  ∃ out e,
    DiskIOCollector.collect
      (snd (DiskIOCollector.collect DiskIOCollector.init 10
              {["sda" := disk 0 0 1000 0]})) 12
      {["sda" := disk 40 0 3000 0]}
      = (Ok out, disk_state {["sda" := disk 40 0 3000 0]} 12) ∧
    out !! "sda" = Some e ∧
    disk_rates_spec e (disk 0 0 1000 0) (disk 40 0 3000 0) (12 - 10).
Proof.
  apply (proj1 second_collection_rates_against_first
           {["sda" := disk 0 0 1000 0]} {["sda" := disk 40 0 3000 0]}
           10%float 12%float "sda" (disk 0 0 1000 0) (disk 40 0 3000 0)).
  - vm_compute; reflexivity.
  - vm_compute; reflexivity.
  - reflexivity.
  - reflexivity.
  - shared_key. rates_defined.
Defined.

(** The operation rates are rounded as floats: 5 reads and 15 writes in
    200 seconds are 0.025 and 0.075 a second in decimals, and the floats
    nearest to them lie above 0.025 and below 0.075, so that the entry
    reads 0.03 and 0.07, each the float nearest to that decimal. *)
Example disk_iops_rounding :
  fst (DiskIOCollector.collect
         (disk_state {["sda" := disk 0 0 0 0]} 1000) 1200
         {["sda" := disk 5 15 0 0]}) =
  Ok {["sda" := {| DiskIOCollector.read_bytes_per_sec := 0;
                   DiskIOCollector.write_bytes_per_sec := 0;
                   DiskIOCollector.read_iops := Float 0x1.eb851eb851eb8p-6;
                   DiskIOCollector.write_iops := Float 0x1.1eb851eb851ecp-4;
                   DiskIOCollector.read_count := 5;
                   DiskIOCollector.write_count := 15;
                   DiskIOCollector.read_bytes := 0;
                   DiskIOCollector.write_bytes := 0 |}]} ∧
  nearest_float false 3 100 = 0x1.eb851eb851eb8p-6%float ∧
  nearest_float false 7 100 = 0x1.1eb851eb851ecp-4%float.
Proof. vm_compute. repeat split. Qed.

(** ** Thresholds in effect *)

(** A value of a held object decides the lookup of its key: the
    number that [float()] returns, or the exception it raises. *)
Lemma get_threshold_held self T mt v d :
  remote_thresholds self = Dict T → T !! mt = Some v →
  get_threshold self mt d = py_float v.
Proof. intros HT Hv. unfold get_threshold. by rewrite HT, Hv. Qed.

Lemma get_threshold_local self T mt d :
  remote_thresholds self = Dict T → T !! mt = None →
  get_threshold self mt d
    = getfloat (config_monitoring self) (mt +:+ "_threshold") d.
Proof. intros HT Hv. unfold get_threshold. by rewrite HT, Hv. Qed.

(** X3: once a fetch with a newer version has brought a numeric value for
    a metric, [get_threshold] returns that value, whatever the local
    configuration and the default say, and a later fetch that repeats the
    version with other values does not change it. *)
Theorem fetched_threshold_takes_effect (self : UptimeSquirrelAgent) (v : Z)
    (T T' : gmap string jvalue) (i i' : option Z) (metric_type : string)
    (q d : Q) :
  v > threshold_version self →
  T !! metric_type = Some (JNumber q) →
  get_threshold
    (fetch_remote_config self (Response 200 (Some (full_config v T i))))
    metric_type d = Ok q ∧
  get_threshold
    (fetch_remote_config
       (fetch_remote_config self (Response 200 (Some (full_config v T i))))
       (Response 200 (Some (full_config v T' i'))))
    metric_type d = Ok q.
Proof.
  intros Hv HT. rewrite !fetch_200. simpl.
  apply Z.gtb_gt in Hv. rewrite Hv. simpl.
  rewrite Z.gtb_ltb, Z.ltb_irrefl. simpl.
  unfold get_threshold. simpl. by rewrite HT.
Qed.

Lemma fetched_threshold_takes_effect_witness :
  get_threshold
    (fetch_remote_config fresh_agent
       (Response 200 (Some (full_config 2 cpu50 None))))
    "cpu" 80 = Ok 50%Q ∧
  get_threshold
    (fetch_remote_config
       (fetch_remote_config fresh_agent
          (Response 200 (Some (full_config 2 cpu50 None))))
       (Response 200 (Some (full_config 2 cpu99 (Some 60)))))
    "cpu" 80 = Ok 50%Q.
Proof.
  apply (fetched_threshold_takes_effect fresh_agent 2 cpu50 cpu99 None
           (Some 60) "cpu" 50%Q 80%Q).
  - reflexivity.
  - vm_compute; reflexivity.
Defined.

(** X4: after a fetch with a newer version, a metric that the fetched set
    does not name is resolved from the local configuration or the default,
    even if the set held before named it. *)
Theorem dropped_remote_key_falls_back (self : UptimeSquirrelAgent) (v : Z)
    (T : gmap string jvalue) (i : option Z) (metric_type : string) (d : Q) :
  v > threshold_version self →
  T !! metric_type = None →
  get_threshold
    (fetch_remote_config self (Response 200 (Some (full_config v T i))))
    metric_type d
  = match config_monitoring self !! (metric_type +:+ "_threshold") with
    | Some x => py_float x
    | None => Ok d
    end.
Proof.
  intros Hv HT. rewrite fetch_200. simpl.
  apply Z.gtb_gt in Hv. rewrite Hv.
  unfold get_threshold. simpl. by rewrite HT.
Qed.

Lemma dropped_remote_key_falls_back_witness :
  get_threshold
    (fetch_remote_config agent_v2
       (Response 200 (Some (full_config 3 load5 None))))
    "cpu" 80
  = match config_monitoring agent_v2 !! ("cpu" +:+ "_threshold") with
    | Some x => py_float x
    | None => Ok 80%Q
    end.
Proof.
  apply (dropped_remote_key_falls_back agent_v2 3 load5 None "cpu" 80%Q).
  - reflexivity.
  - vm_compute; reflexivity.
Defined.

(** One fetch never lowers the version, and keeps the held set when it
    keeps the version. *)
Lemma fetch_version_step self r :
  threshold_version self ≤ threshold_version (fetch_remote_config self r) ∧
  (threshold_version (fetch_remote_config self r) = threshold_version self →
   remote_thresholds (fetch_remote_config self r) = remote_thresholds self).
Proof.
  destruct r as [code [config|]|]; simpl.
  - destruct (code =? 200); [|split; [lia|done]].
    destruct (default (VInt 0) (cfg_threshold_version config)) as [v|];
      [|split; [lia|done]].
    destruct (v >? threshold_version self) eqn:Hgt; [|split; [simpl; lia|done]].
    apply Z.gtb_gt in Hgt. simpl.
    destruct (default (Dict ∅) (cfg_thresholds config)); simpl; split; lia.
  - destruct (code =? 200); split; (lia || done).
  - split; [lia|done].
Qed.

(** X5: over any sequence of config responses (any status, any body, any
    failed request) the held threshold version never decreases, and the
    held threshold set is the original one whenever the version still is. *)
Theorem threshold_version_never_decreases (self : UptimeSquirrelAgent)
    (responses : list config_response) :
  threshold_version self ≤ threshold_version (fetch_all self responses) ∧
  (threshold_version (fetch_all self responses) = threshold_version self →
   remote_thresholds (fetch_all self responses) = remote_thresholds self).
Proof.
  revert self. induction responses as [|r rs IH]; intros self.
  - split; [simpl; lia|done].
  - unfold fetch_all in *. simpl.
    destruct (IH (fetch_remote_config self r)) as [Hle Heq].
    destruct (fetch_version_step self r) as [Hle1 Heq1].
    split; [lia|]. intros Hsame.
    rewrite Heq by lia. apply Heq1. lia.
Qed.

Lemma threshold_version_never_decreases_witness :
  remote_thresholds
    (fetch_all agent_v2
       [Response 200 (Some (full_config 1 cpu99 None));
        Response 500 None; RequestException;
        Response 200 (Some (full_config 2 load5 (Some 60)))])
    = remote_thresholds agent_v2.
Proof.
  apply (proj2 (threshold_version_never_decreases agent_v2
                  [Response 200 (Some (full_config 1 cpu99 None));
                   Response 500 None; RequestException;
                   Response 200 (Some (full_config 2 load5 (Some 60)))])).
  reflexivity.
Defined.

(** ** Building the snapshot *)

Lemma active_thresholds_raise self e :
  active_thresholds self = Raise e ↔ first_raise self e.
Proof.
  unfold active_thresholds, first_raise.
  destruct (get_threshold self "cpu" 80) as [c|x]; simpl.
  - destruct (get_threshold self "memory" 85) as [m|x]; simpl.
    + destruct (get_threshold self "disk" 90) as [d|x]; simpl.
      * split; [done|]. intros [?|[(? & ? & ?)|(? & ? & ? & ? & ?)]]; congruence.
      * split.
        -- intros [= <-]. right; right. by exists c, m.
        -- intros [?|[(? & ? & ?)|(? & ? & ? & ? & ?)]]; congruence.
    + split.
      * intros [= <-]. right; left. by exists c.
      * intros [?|[(? & ? & ?)|(? & ? & ? & ? & ?)]]; congruence.
  - split.
    + intros [= <-]. by left.
    + intros [?|[(? & ? & ?)|(? & ? & ? & ? & ?)]]; congruence.
Qed.

Lemma active_thresholds_invalid self T k v e :
  remote_thresholds self = Dict T →
  k ∈ ["cpu"; "memory"; "disk"] →
  T !! k = Some v → py_float v = Raise e →
  ∃ e', active_thresholds self = Raise e' ∧ (k = "cpu" → e' = e).
Proof.
  intros HT Hk Hv He.
  assert (∀ d, get_threshold self k d = Raise e) as Hbad
    by (intros d; by rewrite (get_threshold_held self T k v d HT Hv)).
  unfold active_thresholds.
  repeat (apply elem_of_cons in Hk as [->|Hk]); [| | |by apply elem_of_nil in Hk].
  - rewrite Hbad. by exists e.
  - destruct (get_threshold self "cpu" 80) as [c|x]; simpl;
      [rewrite Hbad; by exists e|by exists x].
  - destruct (get_threshold self "cpu" 80) as [c|x]; simpl; [|by exists x].
    destruct (get_threshold self "memory" 85) as [m|x]; simpl;
      [rewrite Hbad; by exists e|by exists x].
Qed.

(** X6: while the held remote set gives [cpu], [memory] or [disk] a value
    that [float()] rejects, the lookup of that key raises what [float()]
    raises ([ValueError] for a string that is no number, [TypeError] for
    null, an array or an object), and [collect_metrics] raises before any
    collector runs, with the exception of the first of the three lookups
    that fails: no snapshot is built and the agent, with the samples its
    rate collectors hold, is unchanged. *)
Theorem invalid_remote_threshold_blocks_snapshot (self : UptimeSquirrelAgent)
    (s : sample) (T : gmap string jvalue) (k : string) (v : jvalue)
    (e : exn) :
  remote_thresholds self = Dict T →
  k ∈ ["cpu"; "memory"; "disk"] →
  T !! k = Some v → py_float v = Raise e →
  (∀ d, get_threshold self k d = Raise e) ∧
  ∃ e', collect_metrics self s = (Raise e', self) ∧
        first_raise self e' ∧
        (k = "cpu" → e' = e).
Proof.
  intros HT Hk Hv He. split.
  - intros d. by rewrite (get_threshold_held self T k v d HT Hv).
  - destruct (active_thresholds_invalid self T k v e HT Hk Hv He)
      as (e' & Hraise & Hcpu).
    exists e'. unfold collect_metrics. rewrite Hraise.
    split; [done|]. split; [by apply active_thresholds_raise|done].
Qed.

Lemma disk_collect_raise_keeps self now counters e :
  fst (DiskIOCollector.collect self now counters) = Raise e →
  snd (DiskIOCollector.collect self now counters) = self.
Proof.
  unfold DiskIOCollector.collect.
  destruct (bool_decide (counters = ∅)); [done|].
  destruct (truthy_dict _ && truthy_float _); [|done].
  by destruct (rate_loop _ _ _ _ _ _).
Qed.

Lemma net_collect_raise_keeps self now counters e :
  fst (NetworkCollector.collect self now counters) = Raise e →
  snd (NetworkCollector.collect self now counters) = self.
Proof.
  unfold NetworkCollector.collect.
  destruct (truthy_dict _ && truthy_float _); [|done].
  by destruct (rate_loop _ _ _ _ _ _).
Qed.

(** X7: when the thresholds resolve and the disk I/O collector raises, the
    snapshot is still built: its [disk_io] is the error marker, the disk
    I/O collector keeps the sample it held, and the network collector has
    run as usual, its data in the snapshot and its new sample held. *)
Theorem failing_collector_is_isolated (self : UptimeSquirrelAgent)
    (s : sample) (th : Metrics.active_thresholds) (e : exn) :
  active_thresholds self = Ok th →
  fst (DiskIOCollector.collect (disk_io_collector self)
         (disk_io_time s) (disk_io_counters s)) = Raise e →
  ∃ m self',
    collect_metrics self s = (Ok m, self') ∧
    Metrics.disk_io m = Error e ∧
    disk_io_collector self' = disk_io_collector self ∧
    Metrics.network m
      = to_domain (fst (NetworkCollector.collect (network_collector self)
                          (net_io_time s) (net_io_counters s))) ∧
    network_collector self'
      = snd (NetworkCollector.collect (network_collector self)
               (net_io_time s) (net_io_counters s)) ∧
    Metrics.active m = th.
Proof.
  intros Hth Hraise. unfold collect_metrics. rewrite Hth.
  pose proof (disk_collect_raise_keeps _ _ _ _ Hraise) as Hkeep.
  destruct (DiskIOCollector.collect _ _ _) as [d dc].
  destruct (NetworkCollector.collect _ _ _) as [n nc].
  simpl in *. subst d dc. by eexists _, _.
Qed.

Lemma invalid_remote_threshold_blocks_snapshot_witness :
  (∀ d, get_threshold agent_bad_cpu "cpu" d = Raise TypeError) ∧
  ∃ e', collect_metrics agent_bad_cpu sample0 = (Raise e', agent_bad_cpu) ∧
        first_raise agent_bad_cpu e' ∧
        ("cpu" = "cpu" → e' = TypeError).
Proof.
  apply (invalid_remote_threshold_blocks_snapshot agent_bad_cpu sample0
           {["cpu" := JNotNumber]} "cpu" JNotNumber TypeError).
  - reflexivity.
  - left.
  - vm_compute; reflexivity.
  - reflexivity.
Defined.

(** The same agent, evaluated, next to one whose [cpu] value is a string
    that is no number. *)
Example collect_metrics_bad_threshold :
  fst (collect_metrics agent_bad_cpu sample0) = Raise TypeError ∧
  fst (collect_metrics
         (set_thresholds (Dict {["cpu" := JBadString]}) 3 agent_sampled)
         sample0) = Raise ValueError.
Proof. vm_compute. split; reflexivity. Qed.

Lemma failing_collector_is_isolated_witness :
  ∃ m self',
    collect_metrics agent_sampled sample0 = (Ok m, self') ∧
    Metrics.disk_io m = Error ZeroDivisionError ∧
    disk_io_collector self' = disk_io_collector agent_sampled ∧
    Metrics.network m
      = to_domain (fst (NetworkCollector.collect
                          (network_collector agent_sampled)
                          (net_io_time sample0) (net_io_counters sample0))) ∧
    network_collector self'
      = snd (NetworkCollector.collect (network_collector agent_sampled)
               (net_io_time sample0) (net_io_counters sample0)) ∧
    Metrics.active m
      = {| Metrics.cpu := 80; Metrics.memory := 85; Metrics.disk := 90;
           Metrics.version := 0; Metrics.source := "local" |}.
Proof.
  apply (failing_collector_is_isolated agent_sampled sample0).
  - vm_compute; reflexivity.
  - vm_compute; reflexivity.
Defined.

(** ** Delivery over several cycles *)

(** The success path of [report_metrics]. *)
Lemma report_metrics_delivered self m w :
  delivered (reply w (calls w)) = true →
  consecutive_failures (fst (report_metrics self m w)) = 0 ∧
  max_consecutive_failures (fst (report_metrics self m w))
    = max_consecutive_failures self ∧
  buffer (metric_buffer (fst (report_metrics self m w))) = [] ∧
  maxlen (metric_buffer (fst (report_metrics self m w)))
    = maxlen (metric_buffer self) ∧
  reply (snd (report_metrics self m w)) = reply w ∧
  calls (snd (report_metrics self m w))
    = S (calls w + length (buffer (metric_buffer self))) ∧
  posted (snd (report_metrics self m w))
    = posted w ++ [metrics_payload m]
      ++ (metrics_payload <$> buffer (metric_buffer self)).
Proof.
  intros Hok. unfold report_metrics. rewrite post_answer. simpl.
  rewrite Hok. simpl.
  destruct (size (metric_buffer self) >? 0) eqn:Hsize.
  - simpl.
    match goal with
    | |- context [send_buffered ?l ?w0] =>
        destruct (send_buffered_run l w0) as (H1 & H2 & H3 & H4)
    end.
    simpl in *. rewrite H1, H2, H3.
    repeat split; try lia; by rewrite <- ?app_assoc.
  - assert (buffer (metric_buffer self) = []) as Hnil.
    { unfold size in Hsize. rewrite Z.gtb_ltb in Hsize.
      apply Z.ltb_ge in Hsize. destruct (buffer (metric_buffer self)); [done|].
      simpl in Hsize. lia. }
    simpl. rewrite Hnil. simpl. repeat split; lia.
Qed.

Lemma report_metrics_inv self m w :
  delivery_inv self → delivery_inv (fst (report_metrics self m w)).
Proof.
  intros (Hmax & Hcap & Hcf & Hlen & Hfour).
  destruct (delivered (reply w (calls w))) eqn:Hd.
  - destruct (report_metrics_delivered self m w Hd)
      as (H0 & H1 & H2 & H3 & _).
    unfold delivery_inv. rewrite H0, H1, H2, H3. simpl. repeat split; lia.
  - destruct (report_metrics_failure self m w Hd) as (w' & -> & _).
    unfold delivery_inv. simpl. rewrite Hmax.
    destruct (consecutive_failures self + 1 <? 5) eqn:Hlt.
    + apply Z.ltb_lt in Hlt. simpl.
      rewrite deque_append_room by lia. rewrite length_app. simpl.
      repeat split; lia.
    + repeat split; lia.
Qed.

Lemma report_all_inv self ms w :
  delivery_inv self → delivery_inv (fst (report_all self ms w)).
Proof.
  revert self w. induction ms as [|m ms IH]; intros self w Hinv; [done|].
  simpl. pose proof (report_metrics_inv self m w Hinv) as H1.
  destruct (report_metrics self m w) as [self1 w1]. by apply IH.
Qed.

(** X8: an agent started with the defaults never holds more than four
    snapshots in its buffer, whatever it reports and whatever the endpoint
    answers: the buffer's capacity of 100 is never reached. *)
Theorem buffer_holds_at_most_four (monitoring : gmap string jvalue)
    (host : string) (ms : list Metrics.t) (w : world) :
  (length (buffer (metric_buffer
                     (fst (report_all (agent_init monitoring host) ms w))))
     ≤ 4)%nat.
Proof.
  apply (report_all_inv (agent_init monitoring host) ms w).
  unfold delivery_inv, agent_init, default_max_size. simpl.
  repeat split; lia.
Qed.

Lemma report_all_app self ms m w :
  report_all self (ms ++ [m]) w =
    report_metrics (fst (report_all self ms w)) m (snd (report_all self ms w)).
Proof.
  revert self w. induction ms as [|x ms IH]; intros self w; simpl.
  - by destruct (report_metrics self m w).
  - destruct (report_metrics self x w) as [self1 w1]. apply IH.
Qed.

(** An outage seen from an agent with nothing buffered: every snapshot is
    POSTed once and the first four are kept. *)
Lemma report_all_outage self ms w :
  max_consecutive_failures self = 5 →
  consecutive_failures self = 0 →
  buffer (metric_buffer self) = [] →
  (4 ≤ maxlen (metric_buffer self))%nat →
  (∀ k, (k < length ms)%nat → delivered (reply w (calls w + k)) = false) →
  consecutive_failures (fst (report_all self ms w)) = Z.of_nat (length ms) ∧
  max_consecutive_failures (fst (report_all self ms w)) = 5 ∧
  buffer (metric_buffer (fst (report_all self ms w))) = take 4 ms ∧
  maxlen (metric_buffer (fst (report_all self ms w)))
    = maxlen (metric_buffer self) ∧
  reply (snd (report_all self ms w)) = reply w ∧
  calls (snd (report_all self ms w)) = (calls w + length ms)%nat ∧
  posted (snd (report_all self ms w)) = posted w ++ (metrics_payload <$> ms).
Proof.
  intros Hmax Hcf Hbuf Hcap.
  induction ms as [|m ms IH] using rev_ind; intros Hfail.
  - simpl. rewrite app_nil_r, Nat.add_0_r. by repeat split.
  - destruct IH as (I1 & I2 & I3 & I4 & I5 & I6 & I7).
    { intros k Hk. apply Hfail. rewrite length_app. lia. }
    rewrite report_all_app.
    set (s1 := fst (report_all self ms w)) in *.
    set (w1 := snd (report_all self ms w)) in *.
    destruct (report_metrics_failure s1 m w1) as (w' & -> & Hr & Hc & Hp).
    { rewrite I5, I6. apply Hfail. rewrite length_app. simpl. lia. }
    cbn [fst snd]. rewrite Hr, Hc, Hp, I5, I6, I7, I1, I2.
    rewrite length_app, fmap_app, <- app_assoc. simpl length.
    destruct (Z.of_nat (length ms) + 1 <? 5) eqn:Hlt.
    + apply Z.ltb_lt in Hlt. simpl. rewrite I3, I4.
      rewrite deque_append_room by (rewrite length_take; lia).
      rewrite take_app_ge by lia. rewrite take_ge by lia.
      replace (4 - length ms)%nat with (S (3 - length ms)) by lia. simpl.
      rewrite take_nil. repeat split; lia.
    + apply Z.ltb_ge in Hlt. simpl. rewrite I3, I4.
      rewrite take_app_le by lia.
      repeat split; lia.
Qed.

(** X9: an outage, then recovery, seen from an agent with nothing
    buffered: the snapshots [ms] all fail and [m] is delivered.  Every
    snapshot is POSTed once as it is collected; after [m] the first four of
    [ms] are POSTed again, in order, and the rest of [ms] never is; the
    buffer is empty and the failure count is 0 afterwards. *)
Theorem outage_then_recovery (self : UptimeSquirrelAgent)
    (ms : list Metrics.t) (m : Metrics.t) (w : world) :
  max_consecutive_failures self = 5 →
  consecutive_failures self = 0 →
  buffer (metric_buffer self) = [] →
  (4 ≤ maxlen (metric_buffer self))%nat →
  (∀ k, (k < length ms)%nat → delivered (reply w (calls w + k)) = false) →
  delivered (reply w (calls w + length ms)) = true →
  posted (snd (report_all self (ms ++ [m]) w))
    = posted w ++ (metrics_payload <$> ms) ++ [metrics_payload m]
      ++ (metrics_payload <$> take 4 ms) ∧
  buffer (metric_buffer (fst (report_all self (ms ++ [m]) w))) = [] ∧
  consecutive_failures (fst (report_all self (ms ++ [m]) w)) = 0.
Proof.
  intros Hmax Hcf Hbuf Hcap Hfail Hok.
  destruct (report_all_outage self ms w Hmax Hcf Hbuf Hcap Hfail)
    as (I1 & I2 & I3 & I4 & I5 & I6 & I7).
  rewrite report_all_app.
  destruct (report_metrics_delivered (fst (report_all self ms w)) m
              (snd (report_all self ms w)))
    as (H0 & _ & H2 & _ & _ & _ & H6).
  { by rewrite I5, I6. }
  rewrite H0, H2, H6, I7, I3. by rewrite <- app_assoc.
Qed.

Lemma outage_then_recovery_witness :
  posted (snd (report_all fresh_agent
                 ([snapshot 1; snapshot 2; snapshot 3; snapshot 4;
                   snapshot 5; snapshot 6] ++ [snapshot 7])
                 (world_of (fun n => if (n <? 6)%nat then PostRaised
                                     else Status 200))))
    = posted (world_of (fun n => if (n <? 6)%nat then PostRaised
                                 else Status 200))
      ++ (metrics_payload <$> [snapshot 1; snapshot 2; snapshot 3; snapshot 4;
                               snapshot 5; snapshot 6])
      ++ [metrics_payload (snapshot 7)]
      ++ (metrics_payload <$> take 4 [snapshot 1; snapshot 2; snapshot 3;
                                       snapshot 4; snapshot 5; snapshot 6]) ∧
  buffer (metric_buffer
            (fst (report_all fresh_agent
                    ([snapshot 1; snapshot 2; snapshot 3; snapshot 4;
                      snapshot 5; snapshot 6] ++ [snapshot 7])
                    (world_of (fun n => if (n <? 6)%nat then PostRaised
                                        else Status 200))))) = [] ∧
  consecutive_failures
    (fst (report_all fresh_agent
            ([snapshot 1; snapshot 2; snapshot 3; snapshot 4;
              snapshot 5; snapshot 6] ++ [snapshot 7])
            (world_of (fun n => if (n <? 6)%nat then PostRaised
                                else Status 200)))) = 0.
Proof.
  apply (outage_then_recovery fresh_agent
           [snapshot 1; snapshot 2; snapshot 3; snapshot 4;
            snapshot 5; snapshot 6] (snapshot 7)
           (world_of (fun n => if (n <? 6)%nat then PostRaised
                               else Status 200))).
  - reflexivity.
  - reflexivity.
  - reflexivity.
  - vm_compute; lia.
  - intros k Hk. simpl in *.
    destruct (k <? 6)%nat eqn:E; [reflexivity|].
    apply Nat.ltb_ge in E. lia.
  - reflexivity.
Defined.

(** ** check_thresholds *)

Lemma py_lt_true a b : py_lt a b = true ↔ (a < b)%Q.
Proof.
  unfold py_lt. rewrite negb_true_iff. split.
  - intros H. apply Qnot_le_lt. intros Hle.
    apply Qle_bool_iff in Hle. congruence.
  - intros Hlt. destruct (Qle_bool b a) eqn:E; [|done].
    apply Qle_bool_iff in E. by apply Qlt_not_le in Hlt.
Qed.

Lemma py_lt_false a b : py_lt a b = false ↔ (b <= a)%Q.
Proof.
  unfold py_lt. rewrite negb_false_iff. apply Qle_bool_iff.
Qed.

Lemma py_gt_true a b : py_gt a b = true ↔ (b < a)%Q.
Proof. apply py_lt_true. Qed.

Lemma py_gt_false a b : py_gt a b = false ↔ (a <= b)%Q.
Proof. apply py_lt_false. Qed.

Lemma usage_severity_critical usage breakpoint :
  usage_severity usage breakpoint = critical ↔ (breakpoint <= usage)%Q.
Proof.
  unfold usage_severity. destruct (py_lt usage breakpoint) eqn:E.
  - apply py_lt_true in E. split; [done|]. intros H. by apply Qlt_not_le in E.
  - apply py_lt_false in E. done.
Qed.

(** What a normal return of [check_thresholds] says about its inputs. *)
Lemma check_thresholds_returns self ts d alerts :
  check_thresholds self ts d = Returns alerts →
  ∃ tc tm td disks services devices,
    get_threshold self "cpu" 80 = Ok tc ∧
    get_threshold self "memory" 85 = Ok tm ∧
    get_threshold self "disk" 90 = Ok td ∧
    disk_domain d = Data disks ∧
    services_domain d = Data services ∧
    match snmp_domain d with
    | Some dom => dom = Data devices
    | None => devices = []
    end ∧
    alerts = cpu_alerts ts (domain_number (cpu_domain d)) tc
             ++ memory_alerts ts (domain_number (memory_domain d)) tm
             ++ disk_alerts ts td disks
             ++ service_alerts ts services
             ++ snmp_alerts ts devices.
Proof.
  unfold check_thresholds.
  destruct (get_threshold self "cpu" 80) as [tc|]; [|done].
  destruct (get_threshold self "memory" 85) as [tm|]; [|done].
  destruct (get_threshold self "disk" 90) as [td|]; [|done].
  destruct (disk_domain d) as [disks|]; [|done].
  destruct (services_domain d) as [services|]; [|done].
  destruct (snmp_domain d) as [[devices|]|]; simpl; try done.
  - intros [= <-]. by exists tc, tm, td, disks, services, devices.
  - intros [= <-]. by exists tc, tm, td, disks, services, [].
Qed.

Lemma memory_alerts_type ts u th a :
  a ∈ memory_alerts ts u th → a_type a = memory_high.
Proof.
  unfold memory_alerts. destruct (py_gt u th); [|by intros ?%elem_of_nil].
  by intros ->%list_elem_of_singleton.
Qed.

Lemma cpu_alerts_type ts u th a :
  a ∈ cpu_alerts ts u th → a_type a = cpu_high.
Proof.
  unfold cpu_alerts. destruct (py_gt u th); [|by intros ?%elem_of_nil].
  by intros ->%list_elem_of_singleton.
Qed.

Lemma disk_alerts_elem ts th items a :
  a ∈ disk_alerts ts th items ↔
  ∃ mount usage,
    (mount, usage) ∈ items ∧ (th < usage)%Q ∧
    a = {| a_type := disk_high; a_severity := usage_severity usage 95;
           a_timestamp := ts; a_metadata := MetaDisk mount usage th |}.
Proof.
  induction items as [|[mount usage] rest IH]; simpl.
  - split; [by intros ?%elem_of_nil|]. intros (? & ? & []%elem_of_nil & _).
  - destruct (py_gt usage th) eqn:E.
    + apply py_gt_true in E. rewrite elem_of_cons, IH. split.
      * intros [->|(m & u & Hin & Hlt & ->)].
        -- exists mount, usage. split; [by left|done].
        -- exists m, u. split; [by right|done].
      * intros (m & u & Hin & Hlt & ->).
        apply elem_of_cons in Hin as [[= -> ->]|Hin]; [by left|].
        right. by exists m, u.
    + apply py_gt_false in E. rewrite IH. split.
      * intros (m & u & Hin & Hlt & ->). exists m, u. split; [by right|done].
      * intros (m & u & Hin & Hlt & ->).
        apply elem_of_cons in Hin as [[= -> ->]|Hin].
        -- by apply Qlt_not_le in Hlt.
        -- by exists m, u.
Qed.

Lemma service_alerts_elem ts items a :
  a ∈ service_alerts ts items ↔
  ∃ service st,
    (service, st) ∈ items ∧ active st = false ∧
    a = {| a_type := service_down; a_severity := critical;
           a_timestamp := ts; a_metadata := MetaService service (status st) |}.
Proof.
  induction items as [|[service st] rest IH]; simpl.
  - split; [by intros ?%elem_of_nil|]. intros (? & ? & []%elem_of_nil & _).
  - destruct (active st) eqn:E; simpl.
    + rewrite IH. split.
      * intros (s & x & Hin & Hact & ->). exists s, x. split; [by right|done].
      * intros (s & x & Hin & Hact & ->).
        apply elem_of_cons in Hin as [[= -> ->]|Hin]; [congruence|].
        by exists s, x.
    + rewrite elem_of_cons, IH. split.
      * intros [->|(s & x & Hin & Hact & ->)].
        -- exists service, st. split; [by left|done].
        -- exists s, x. split; [by right|done].
      * intros (s & x & Hin & Hact & ->).
        apply elem_of_cons in Hin as [[= -> ->]|Hin]; [by left|].
        right. by exists s, x.
Qed.

Lemma interface_alerts_type ts dev l a :
  a ∈ interface_alerts ts dev l →
  a_type a = snmp_interface_down ∧ a_timestamp a = ts.
Proof.
  induction l as [|i rest IH]; simpl; [by intros ?%elem_of_nil|].
  destruct (interface_is_down i); [|done].
  intros [->|Hin]%elem_of_cons; [done|by apply IH].
Qed.

Lemma storage_alerts_type ts dev l a :
  a ∈ storage_alerts ts dev l →
  a_type a = snmp_storage_high ∧ a_timestamp a = ts.
Proof.
  induction l as [|s rest IH]; simpl; [by intros ?%elem_of_nil|].
  destruct (py_gt _ 90); [|done].
  intros [->|Hin]%elem_of_cons; [done|by apply IH].
Qed.

Lemma device_alerts_type ts name d a :
  a ∈ device_alerts ts name d → is_snmp_type (a_type a) ∧ a_timestamp a = ts.
Proof.
  unfold device_alerts, is_snmp_type.
  destruct (bool_decide _).
  { intros ->%list_elem_of_singleton. simpl. auto. }
  rewrite !elem_of_app. intros [H|[H|[H|H]]].
  - apply interface_alerts_type in H as [-> ->]. auto.
  - destruct (usage_5min d) as [u|]; [|by apply elem_of_nil in H].
    destruct (py_gt u 80); [|by apply elem_of_nil in H].
    apply list_elem_of_singleton in H as ->. simpl. split; [auto 10|done].
  - destruct (device_memory_percent d) as [u|]; [|by apply elem_of_nil in H].
    destruct (py_gt u 85); [|by apply elem_of_nil in H].
    apply list_elem_of_singleton in H as ->. simpl. split; [auto 10|done].
  - apply storage_alerts_type in H as [-> ->]. split; [auto 10|done].
Qed.

Lemma snmp_alerts_type ts items a :
  a ∈ snmp_alerts ts items → is_snmp_type (a_type a) ∧ a_timestamp a = ts.
Proof.
  induction items as [|[name d] rest IH]; simpl; [by intros ?%elem_of_nil|].
  rewrite elem_of_app. intros [H|H]; [by eapply device_alerts_type|by apply IH].
Qed.

Lemma later_alerts_not_cpu ts um tm td disks services devices a :
  a ∈ memory_alerts ts um tm ++ disk_alerts ts td disks
      ++ service_alerts ts services ++ snmp_alerts ts devices →
  a_type a ≠ cpu_high.
Proof.
  rewrite !elem_of_app. intros [H|[H|[H|H]]].
  - by rewrite (memory_alerts_type _ _ _ _ H).
  - apply disk_alerts_elem in H as (? & ? & _ & _ & ->). done.
  - apply service_alerts_elem in H as (? & ? & _ & _ & ->). done.
  - apply snmp_alerts_type in H as [Ht _]. unfold is_snmp_type in Ht.
    intros E. rewrite E in Ht.
    repeat (destruct Ht as [Ht|Ht]; [discriminate|]). discriminate.
Qed.

(** X10: when [check_thresholds] returns, it has raised a [cpu_high] alert
    exactly if the CPU usage (0 for an error marker) is strictly above the
    threshold in effect; the alert comes first, is the only one of its
    type, records usage and threshold, and is critical exactly from 90 up,
    whatever the threshold. *)
Theorem cpu_alert_rule (self : UptimeSquirrelAgent) (ts : Z)
    (d : platform_domains) (alerts : list alert) (th : Q) :
  check_thresholds self ts d = Returns alerts →
  get_threshold self "cpu" 80 = Ok th →
  ((th < domain_number (cpu_domain d))%Q →
     ∃ sev rest,
       alerts = {| a_type := cpu_high; a_severity := sev; a_timestamp := ts;
                   a_metadata := MetaUsage (domain_number (cpu_domain d)) th |}
                :: rest ∧
       (sev = critical ↔ (90 <= domain_number (cpu_domain d))%Q) ∧
       ∀ a, a ∈ rest → a_type a ≠ cpu_high) ∧
  ((domain_number (cpu_domain d) <= th)%Q →
     ∀ a, a ∈ alerts → a_type a ≠ cpu_high).
Proof.
  intros Hret Hth.
  apply check_thresholds_returns in Hret
    as (tc & tm & td & disks & services & devices & Hc & _ & _ & _ & _ & _ & ->).
  rewrite Hth in Hc. injection Hc as <-. unfold cpu_alerts. split.
  - intros Hgt. apply py_gt_true in Hgt. rewrite Hgt. simpl.
    eexists _, _. split; [reflexivity|]. split.
    + apply usage_severity_critical.
    + intros a. apply later_alerts_not_cpu.
  - intros Hle. apply py_gt_false in Hle. rewrite Hle. simpl.
    intros a. apply later_alerts_not_cpu.
Qed.

(** X11: when [check_thresholds] returns, a [memory_high] alert is among
    the alerts exactly if the memory usage is strictly above the threshold
    in effect; it records usage and threshold and is critical exactly from
    95 up. *)
Theorem memory_alert_rule (self : UptimeSquirrelAgent) (ts : Z)
    (d : platform_domains) (alerts : list alert) (th : Q) :
  check_thresholds self ts d = Returns alerts →
  get_threshold self "memory" 85 = Ok th →
  ∀ a, (a ∈ alerts ∧ a_type a = memory_high) ↔
       ((th < domain_number (memory_domain d))%Q ∧
        ∃ sev,
          (sev = critical ↔ (95 <= domain_number (memory_domain d))%Q) ∧
          a = {| a_type := memory_high; a_severity := sev; a_timestamp := ts;
                 a_metadata :=
                   MetaUsage (domain_number (memory_domain d)) th |}).
Proof.
  intros Hret Hth a.
  apply check_thresholds_returns in Hret
    as (tc & tm & td & disks & services & devices & _ & Hm & _ & _ & _ & _ & ->).
  rewrite Hth in Hm. injection Hm as <-.
  rewrite !elem_of_app. split.
  - intros [[H|[H|[H|[H|H]]]] Ht].
    + by rewrite (cpu_alerts_type _ _ _ _ H) in Ht.
    + unfold memory_alerts in H.
      destruct (py_gt _ th) eqn:E; [|by apply elem_of_nil in H].
      apply py_gt_true in E. apply list_elem_of_singleton in H as ->.
      split; [done|]. eexists. split; [apply usage_severity_critical|done].
    + apply disk_alerts_elem in H as (? & ? & _ & _ & ->). done.
    + apply service_alerts_elem in H as (? & ? & _ & _ & ->). done.
    + apply snmp_alerts_type in H as [Hs _]. unfold is_snmp_type in Hs.
      rewrite Ht in Hs.
      repeat (destruct Hs as [Hs|Hs]; [discriminate|]). discriminate.
  - intros (Hgt & sev & Hsev & ->). split; [|done].
    right. left. unfold memory_alerts.
    apply py_gt_true in Hgt. rewrite Hgt. apply list_elem_of_singleton.
    f_equal. destruct sev, (usage_severity _ 95) eqn:E; try done.
    + apply usage_severity_critical in E. apply Hsev in E. done.
    + assert (usage_severity (domain_number (memory_domain d)) 95 = critical)
        as E' by (apply usage_severity_critical; by apply Hsev).
      congruence.
Qed.

Lemma cpu_alert_rule_witness :
  match check_thresholds fresh_agent 1000 domains_hot with
  | Returns alerts =>
      ((80 < domain_number (cpu_domain domains_hot))%Q →
         ∃ sev rest,
           alerts = {| a_type := cpu_high; a_severity := sev;
                       a_timestamp := 1000;
                       a_metadata :=
                         MetaUsage (domain_number (cpu_domain domains_hot)) 80 |}
                    :: rest ∧
           (sev = critical ↔ (90 <= domain_number (cpu_domain domains_hot))%Q) ∧
           ∀ a, a ∈ rest → a_type a ≠ cpu_high) ∧
      ((domain_number (cpu_domain domains_hot) <= 80)%Q →
         ∀ a, a ∈ alerts → a_type a ≠ cpu_high)
  | Raises _ => False
  end.
Proof.
  destruct (check_thresholds fresh_agent 1000 domains_hot) as [alerts|e] eqn:E.
  - apply (cpu_alert_rule fresh_agent 1000 domains_hot alerts 80%Q E).
    vm_compute; reflexivity.
  - vm_compute in E. discriminate E.
Defined.

Lemma memory_alert_rule_witness :
  match check_thresholds fresh_agent 1000 domains_hot with
  | Returns alerts =>
      ∀ a, (a ∈ alerts ∧ a_type a = memory_high) ↔
           ((85 < domain_number (memory_domain domains_hot))%Q ∧
            ∃ sev,
              (sev = critical
                 ↔ (95 <= domain_number (memory_domain domains_hot))%Q) ∧
              a = {| a_type := memory_high; a_severity := sev;
                     a_timestamp := 1000;
                     a_metadata :=
                       MetaUsage (domain_number (memory_domain domains_hot))
                         85 |})
  | Raises _ => False
  end.
Proof.
  destruct (check_thresholds fresh_agent 1000 domains_hot) as [alerts|e] eqn:E.
  - apply (memory_alert_rule fresh_agent 1000 domains_hot alerts 85%Q E).
    vm_compute; reflexivity.
  - vm_compute in E. discriminate E.
Defined.

(** The alerts of the sample host, evaluated. *)
Example check_thresholds_hot_host :
  check_thresholds fresh_agent 1000 domains_hot =
  Returns
    [{| a_type := cpu_high; a_severity := critical; a_timestamp := 1000;
        a_metadata := MetaUsage 95 80 |};
     {| a_type := memory_high; a_severity := warning; a_timestamp := 1000;
        a_metadata := MetaUsage 90 85 |};
     {| a_type := disk_high; a_severity := critical; a_timestamp := 1000;
        a_metadata := MetaDisk "/" 96 90 |};
     {| a_type := disk_high; a_severity := warning; a_timestamp := 1000;
        a_metadata := MetaDisk "/var" 92 90 |};
     {| a_type := service_down; a_severity := critical; a_timestamp := 1000;
        a_metadata := MetaService "nginx" "inactive" |}].
Proof. vm_compute. reflexivity. Qed.

Lemma severity_by_breakpoint sev usage breakpoint :
  (sev = critical ↔ (breakpoint <= usage)%Q) →
  sev = usage_severity usage breakpoint.
Proof.
  intros Hsev. destruct sev, (usage_severity usage breakpoint) eqn:E; try done.
  - apply usage_severity_critical in E. by apply Hsev in E.
  - assert (usage_severity usage breakpoint = critical) as E'
      by (apply usage_severity_critical; by apply Hsev).
    congruence.
Qed.

(** X12: when [check_thresholds] returns, the [disk_high] alerts are
    exactly one per mount whose usage is strictly above the disk threshold
    in effect; each names its mount, usage and threshold and is critical
    exactly from 95 up. *)
Theorem disk_alert_rule (self : UptimeSquirrelAgent) (ts : Z)
    (d : platform_domains) (alerts : list alert) (th : Q)
    (disks : list (string * Q)) :
  check_thresholds self ts d = Returns alerts →
  get_threshold self "disk" 90 = Ok th →
  disk_domain d = Data disks →
  ∀ a, (a ∈ alerts ∧ a_type a = disk_high) ↔
       ∃ mount usage sev,
         (mount, usage) ∈ disks ∧ (th < usage)%Q ∧
         (sev = critical ↔ (95 <= usage)%Q) ∧
         a = {| a_type := disk_high; a_severity := sev; a_timestamp := ts;
                a_metadata := MetaDisk mount usage th |}.
Proof.
  intros Hret Hth Hdisks a.
  apply check_thresholds_returns in Hret
    as (tc & tm & td & disks' & services & devices
        & _ & _ & Hd & Hdd & _ & _ & ->).
  rewrite Hth in Hd. injection Hd as <-.
  rewrite Hdisks in Hdd. injection Hdd as <-.
  rewrite !elem_of_app. split.
  - intros [[H|[H|[H|[H|H]]]] Ht].
    + by rewrite (cpu_alerts_type _ _ _ _ H) in Ht.
    + by rewrite (memory_alerts_type _ _ _ _ H) in Ht.
    + apply disk_alerts_elem in H as (mount & usage & Hin & Hgt & ->).
      exists mount, usage, (usage_severity usage 95).
      repeat split; try done; apply usage_severity_critical.
    + apply service_alerts_elem in H as (? & ? & _ & _ & ->). done.
    + apply snmp_alerts_type in H as [Hs _]. unfold is_snmp_type in Hs.
      rewrite Ht in Hs.
      repeat (destruct Hs as [Hs|Hs]; [discriminate|]). discriminate.
  - intros (mount & usage & sev & Hin & Hgt & Hsev & ->). split; [|done].
    right. right. left. apply disk_alerts_elem.
    exists mount, usage. repeat split; try done.
    by rewrite (severity_by_breakpoint sev usage 95 Hsev).
Qed.

Lemma disk_alert_rule_witness :
  match check_thresholds fresh_agent 1000 domains_hot with
  | Returns alerts =>
      ∀ a, (a ∈ alerts ∧ a_type a = disk_high) ↔
           ∃ mount usage sev,
             (mount, usage) ∈ [("/", 96%Q); ("/data", 50%Q); ("/var", 92%Q)] ∧
             (90 < usage)%Q ∧
             (sev = critical ↔ (95 <= usage)%Q) ∧
             a = {| a_type := disk_high; a_severity := sev;
                    a_timestamp := 1000;
                    a_metadata := MetaDisk mount usage 90 |}
  | Raises _ => False
  end.
Proof.
  destruct (check_thresholds fresh_agent 1000 domains_hot) as [alerts|e] eqn:E.
  - apply (disk_alert_rule fresh_agent 1000 domains_hot alerts 90%Q
             [("/", 96%Q); ("/data", 50%Q); ("/var", 92%Q)] E).
    + vm_compute; reflexivity.
    + reflexivity.
  - vm_compute in E. discriminate E.
Defined.

(** X13: when [check_thresholds] returns, the [service_down] alerts are
    exactly one per service that is not active, each critical and naming
    the service and its reported status. *)
Theorem service_alert_rule (self : UptimeSquirrelAgent) (ts : Z)
    (d : platform_domains) (alerts : list alert)
    (services : list (string * service_status)) :
  check_thresholds self ts d = Returns alerts →
  services_domain d = Data services →
  ∀ a, (a ∈ alerts ∧ a_type a = service_down) ↔
       ∃ service st,
         (service, st) ∈ services ∧ active st = false ∧
         a = {| a_type := service_down; a_severity := critical;
                a_timestamp := ts;
                a_metadata := MetaService service (status st) |}.
Proof.
  intros Hret Hsvc a.
  apply check_thresholds_returns in Hret
    as (tc & tm & td & disks & services' & devices
        & _ & _ & _ & _ & Hs & _ & ->).
  rewrite Hsvc in Hs. injection Hs as <-.
  rewrite !elem_of_app. split.
  - intros [[H|[H|[H|[H|H]]]] Ht].
    + by rewrite (cpu_alerts_type _ _ _ _ H) in Ht.
    + by rewrite (memory_alerts_type _ _ _ _ H) in Ht.
    + apply disk_alerts_elem in H as (? & ? & _ & _ & ->). done.
    + by apply service_alerts_elem in H.
    + apply snmp_alerts_type in H as [Hs _]. unfold is_snmp_type in Hs.
      rewrite Ht in Hs.
      repeat (destruct Hs as [Hs|Hs]; [discriminate|]). discriminate.
  - intros (service & st & Hin & Hact & ->). split; [|done].
    right. right. right. left. apply service_alerts_elem. by exists service, st.
Qed.

Lemma service_alert_rule_witness :
  match check_thresholds fresh_agent 1000 domains_hot with
  | Returns alerts =>
      ∀ a, (a ∈ alerts ∧ a_type a = service_down) ↔
           ∃ service st,
             (service, st)
               ∈ [("nginx", {| active := false; status := "inactive" |});
                  ("ssh", {| active := true; status := "active" |})] ∧
             active st = false ∧
             a = {| a_type := service_down; a_severity := critical;
                    a_timestamp := 1000;
                    a_metadata := MetaService service (status st) |}
  | Raises _ => False
  end.
Proof.
  destruct (check_thresholds fresh_agent 1000 domains_hot) as [alerts|e] eqn:E.
  - apply (service_alert_rule fresh_agent 1000 domains_hot alerts _ E).
    reflexivity.
  - vm_compute in E. discriminate E.
Defined.

Lemma disk_alerts_none ts th items :
  (∀ mount usage, (mount, usage) ∈ items → (usage <= th)%Q) →
  disk_alerts ts th items = [].
Proof.
  induction items as [|[mount usage] rest IH]; intros Hall; [done|].
  simpl. rewrite (proj2 (py_gt_false usage th)) by (apply (Hall mount); by left).
  apply IH. intros m u Hin. apply (Hall m). by right.
Qed.

Lemma service_alerts_none ts items :
  (∀ service st, (service, st) ∈ items → active st = true) →
  service_alerts ts items = [].
Proof.
  induction items as [|[service st] rest IH]; intros Hall; [done|].
  simpl. rewrite (Hall service st) by (by left). simpl.
  apply IH. intros s x Hin. apply (Hall s). by right.
Qed.

(** X14: with numeric thresholds, no SNMP domain, CPU and memory usage at
    or below their thresholds (an error marker counts as 0), every mount
    at or below the disk threshold and every service active,
    [check_thresholds] returns and raises no alert; usage equal to the
    threshold does not alert. *)
Theorem no_alerts_within_limits (self : UptimeSquirrelAgent) (ts : Z)
    (d : platform_domains) (tc tm td : Q) (disks : list (string * Q))
    (services : list (string * service_status)) :
  get_threshold self "cpu" 80 = Ok tc →
  get_threshold self "memory" 85 = Ok tm →
  get_threshold self "disk" 90 = Ok td →
  disk_domain d = Data disks →
  services_domain d = Data services →
  snmp_domain d = None →
  (domain_number (cpu_domain d) <= tc)%Q →
  (domain_number (memory_domain d) <= tm)%Q →
  (∀ mount usage, (mount, usage) ∈ disks → (usage <= td)%Q) →
  (∀ service st, (service, st) ∈ services → active st = true) →
  check_thresholds self ts d = Returns [].
Proof.
  intros Hc Hm Hd Hdisks Hsvc Hsnmp Hcpu Hmem Hdisk Hact.
  unfold check_thresholds. rewrite Hc, Hm, Hd, Hdisks, Hsvc, Hsnmp. simpl.
  unfold cpu_alerts, memory_alerts.
  rewrite (proj2 (py_gt_false _ _) Hcpu), (proj2 (py_gt_false _ _) Hmem).
  by rewrite disk_alerts_none, service_alerts_none.
Qed.

Lemma no_alerts_within_limits_witness :
  check_thresholds fresh_agent 1000 domains_quiet = Returns [].
Proof.
  apply (no_alerts_within_limits fresh_agent 1000 domains_quiet
           80%Q 85%Q 90%Q [("/", 40%Q)]
           [("ssh", {| active := true; status := "active" |})]).
  - vm_compute; reflexivity.
  - vm_compute; reflexivity.
  - vm_compute; reflexivity.
  - reflexivity.
  - reflexivity.
  - reflexivity.
  - vm_compute; discriminate.
  - vm_compute; discriminate.
  - intros mount usage [[= -> ->]|[]%elem_of_nil]%elem_of_cons.
    vm_compute; discriminate.
  - intros service st [[= -> ->]|[]%elem_of_nil]%elem_of_cons. reflexivity.
Defined.

(** X15: every alert that [check_thresholds] returns carries the
    timestamp of the snapshot it was checked on. *)
Theorem alerts_carry_snapshot_timestamp (self : UptimeSquirrelAgent)
    (ts : Z) (d : platform_domains) (alerts : list alert) (a : alert) :
  check_thresholds self ts d = Returns alerts →
  a ∈ alerts → a_timestamp a = ts.
Proof.
  intros Hret.
  apply check_thresholds_returns in Hret
    as (tc & tm & td & disks & services & devices & _ & _ & _ & _ & _ & _ & ->).
  rewrite !elem_of_app. intros [H|[H|[H|[H|H]]]].
  - unfold cpu_alerts in H. destruct (py_gt _ tc); [|by apply elem_of_nil in H].
    by apply list_elem_of_singleton in H as ->.
  - unfold memory_alerts in H.
    destruct (py_gt _ tm); [|by apply elem_of_nil in H].
    by apply list_elem_of_singleton in H as ->.
  - by apply disk_alerts_elem in H as (? & ? & _ & _ & ->).
  - by apply service_alerts_elem in H as (? & ? & _ & _ & ->).
  - by apply snmp_alerts_type in H as [_ ->].
Qed.

Lemma alerts_carry_snapshot_timestamp_witness :
  match check_thresholds fresh_agent 1000 domains_hot with
  | Returns alerts =>
      {| a_type := service_down; a_severity := critical; a_timestamp := 1000;
         a_metadata := MetaService "nginx" "inactive" |} ∈ alerts →
      a_timestamp
        {| a_type := service_down; a_severity := critical;
           a_timestamp := 1000;
           a_metadata := MetaService "nginx" "inactive" |} = 1000
  | Raises _ => False
  end.
Proof.
  destruct (check_thresholds fresh_agent 1000 domains_hot) as [alerts|e] eqn:E.
  - apply (alerts_carry_snapshot_timestamp fresh_agent 1000 domains_hot
             alerts _ E).
  - vm_compute in E. discriminate E.
Defined.

Lemma error_marker_check self ts d th e :
  active_thresholds self = Ok th →
  disk_domain d = Error e ∨ services_domain d = Error e
    ∨ snmp_domain d = Some (Error e) →
  check_thresholds self ts d = Raises AttributeError.
Proof.
  intros Hth Herr. unfold active_thresholds in Hth. unfold check_thresholds.
  destruct (get_threshold self "cpu" 80) as [tc|]; [|done].
  destruct (get_threshold self "memory" 85) as [tm|]; [|done].
  destruct (get_threshold self "disk" 90) as [td|]; [|done]. simpl.
  destruct (disk_domain d) as [disks|]; [|done]. simpl.
  destruct (services_domain d) as [services|]; [|done]. simpl.
  destruct Herr as [?|[?|Hs]]; [done..|]. by rewrite Hs.
Qed.

(** X16: when the three thresholds are numbers and the disk domain, the
    services domain or the SNMP domain of the snapshot is an error marker,
    [check_thresholds] raises [AttributeError] and no alert is returned,
    not even those for CPU and memory. *)
Theorem error_marker_aborts_check (self : UptimeSquirrelAgent) (ts : Z)
    (d : platform_domains) (th : Metrics.active_thresholds) (e : exn) :
  active_thresholds self = Ok th →
  disk_domain d = Error e ∨ services_domain d = Error e
    ∨ snmp_domain d = Some (Error e) →
  check_thresholds self ts d = Raises AttributeError.
Proof. apply error_marker_check. Qed.

Lemma error_marker_aborts_check_witness :
  check_thresholds fresh_agent 1000 domains_disk_failed
    = Raises AttributeError.
Proof.
  apply (error_marker_aborts_check fresh_agent 1000 domains_disk_failed
           {| Metrics.cpu := 80; Metrics.memory := 85; Metrics.disk := 90;
              Metrics.version := 0; Metrics.source := "local" |} ValueError).
  - vm_compute; reflexivity.
  - left. reflexivity.
Defined.

(** ** send_alerts *)

Lemma send_alerts_run (alerts : list alert) (s : alert_session) :
  answers (send_alerts alerts s) = answers s ∧
  alert_calls (send_alerts alerts s) = (alert_calls s + length alerts)%nat ∧
  alerts_posted (send_alerts alerts s) = alerts_posted s ++ alerts ∧
  alert_log (send_alerts alerts s)
    = alert_log s
      ++ concat (imap (fun i a =>
                   [WarningAlert a;
                    if delivered (answers s (alert_calls s + i)%nat)
                    then InfoAlertSent a else ErrorAlertFailed a]) alerts).
Proof.
  revert s. induction alerts as [|a rest IH]; intros s.
  - simpl. rewrite !app_nil_r. repeat split; lia.
  - simpl. destruct (IH {| answers := answers s;
                           alert_calls := S (alert_calls s);
                           alerts_posted := alerts_posted s ++ [a];
                           alert_log :=
                             alert_log s
                             ++ [WarningAlert a;
                                 if delivered (answers s (alert_calls s))
                                 then InfoAlertSent a
                                 else ErrorAlertFailed a] |})
      as (H1 & H2 & H3 & H4).
    simpl in *. rewrite H1, H2, H3, H4, <- !app_assoc, Nat.add_0_r.
    repeat split; try lia.
    simpl. erewrite imap_ext; [reflexivity|].
    intros i x _. simpl. by rewrite Nat.add_succ_r.
Qed.

(** X17: [send_alerts] POSTs every alert exactly once, in the order given,
    whatever the endpoint answers (no retry, nothing kept for later); the
    log has, per alert, the warning and then "sent" or "failed" according
    to the answer to that alert's POST. *)
Theorem alerts_posted_once_each (alerts : list alert) (s : alert_session) :
  answers (send_alerts alerts s) = answers s ∧
  alert_calls (send_alerts alerts s) = (alert_calls s + length alerts)%nat ∧
  alerts_posted (send_alerts alerts s) = alerts_posted s ++ alerts ∧
  alert_log (send_alerts alerts s)
    = alert_log s
      ++ concat (imap (fun i a =>
                   [WarningAlert a;
                    if delivered (answers s (alert_calls s + i)%nat)
                    then InfoAlertSent a else ErrorAlertFailed a]) alerts).
Proof. apply send_alerts_run. Qed.

(** ** run_once *)

Lemma fetch_keeps_delivery self r :
  metric_buffer (fetch_remote_config self r) = metric_buffer self ∧
  consecutive_failures (fetch_remote_config self r)
    = consecutive_failures self ∧
  disk_io_collector (fetch_remote_config self r) = disk_io_collector self ∧
  network_collector (fetch_remote_config self r) = network_collector self.
Proof.
  destruct r as [code [config|]|]; simpl; try done;
    destruct (code =? 200); try done.
  destruct (default (VInt 0) (cfg_threshold_version config)) as [v|]; [|done].
  destruct (v >? threshold_version self); [|done].
  simpl. by destruct (default (Dict ∅) (cfg_thresholds config)).
Qed.

Lemma collect_metrics_keeps self s :
  remote_thresholds (snd (collect_metrics self s)) = remote_thresholds self ∧
  threshold_version (snd (collect_metrics self s)) = threshold_version self ∧
  config_check_interval (snd (collect_metrics self s))
    = config_check_interval self ∧
  metric_buffer (snd (collect_metrics self s)) = metric_buffer self ∧
  consecutive_failures (snd (collect_metrics self s))
    = consecutive_failures self.
Proof.
  unfold collect_metrics. destruct (active_thresholds self); [|done].
  destruct (DiskIOCollector.collect _ _ _) as [d dc].
  by destruct (NetworkCollector.collect _ _ _) as [n nc].
Qed.

Lemma report_metrics_keeps self m w :
  remote_thresholds (fst (report_metrics self m w)) = remote_thresholds self ∧
  threshold_version (fst (report_metrics self m w)) = threshold_version self ∧
  config_check_interval (fst (report_metrics self m w))
    = config_check_interval self.
Proof.
  unfold report_metrics. rewrite post_answer. simpl.
  destruct (delivered _).
  - by destruct (_ >? 0).
  - by destruct (_ <? _).
Qed.

(** What [report_metrics] POSTs first is the snapshot it was given. *)
Lemma report_metrics_posts_snapshot self m w :
  ∃ rest,
    posted (snd (report_metrics self m w))
      = posted w ++ metrics_payload m :: rest.
Proof.
  destruct (delivered (reply w (calls w))) eqn:Hd.
  - destruct (report_metrics_delivered self m w Hd)
      as (_ & _ & _ & _ & _ & _ & ->). by eexists.
  - destruct (report_metrics_failure self m w Hd) as (w' & -> & _ & _ & Hp).
    simpl. rewrite Hp. by eexists.
Qed.

Lemma run_once_thresholds st i w :
  remote_thresholds (agent (next (run_once st i w)))
    = remote_thresholds (agent (refresh_config st i)) ∧
  threshold_version (agent (next (run_once st i w)))
    = threshold_version (agent (refresh_config st i)) ∧
  config_check_interval (agent (next (run_once st i w)))
    = config_check_interval (agent (refresh_config st i)) ∧
  last_config_check (next (run_once st i w))
    = last_config_check (refresh_config st i).
Proof.
  unfold run_once.
  pose proof (collect_metrics_keeps (agent (refresh_config st i)) (readings i))
    as (K1 & K2 & K3 & _).
  destruct (collect_metrics _ _) as [[m|e] a]; simpl in *; [|done].
  destruct (check_thresholds _ _ _) as [alerts|x]; simpl; [|done].
  pose proof (report_metrics_keeps a m w) as (R1 & R2 & R3).
  destruct (report_metrics a m w) as [a2 w2]. simpl in *.
  by rewrite R1, R2, R3.
Qed.

(** X18: a cycle fetches the remote configuration only when more than
    [config_check_interval] seconds have passed since the last check.
    Within the interval the held thresholds, version, interval and the
    time of the last check come out of the cycle unchanged, whatever the
    server would have answered; past it they are those of the fetch, and
    the time of the last check moves even if the fetch failed. *)
Theorem config_fetch_is_throttled (st : agent_loop) (i : cycle_input)
    (w : world) :
  ((clock i - last_config_check st
      <= inject_Z (config_check_interval (agent st)))%Q →
     last_config_check (next (run_once st i w)) = last_config_check st ∧
     remote_thresholds (agent (next (run_once st i w)))
       = remote_thresholds (agent st) ∧
     threshold_version (agent (next (run_once st i w)))
       = threshold_version (agent st) ∧
     config_check_interval (agent (next (run_once st i w)))
       = config_check_interval (agent st)) ∧
  ((inject_Z (config_check_interval (agent st))
      < clock i - last_config_check st)%Q →
     last_config_check (next (run_once st i w)) = clock_after_fetch i ∧
     remote_thresholds (agent (next (run_once st i w)))
       = remote_thresholds (fetch_remote_config (agent st) (config_reply i)) ∧
     threshold_version (agent (next (run_once st i w)))
       = threshold_version (fetch_remote_config (agent st) (config_reply i)) ∧
     config_check_interval (agent (next (run_once st i w)))
       = config_check_interval
           (fetch_remote_config (agent st) (config_reply i))).
Proof.
  destruct (run_once_thresholds st i w) as (H1 & H2 & H3 & H4).
  rewrite H1, H2, H3, H4. unfold refresh_config, config_due.
  split; intros Hdue.
  - apply py_gt_false in Hdue. by rewrite Hdue.
  - apply py_gt_true in Hdue. by rewrite Hdue.
Qed.

Lemma config_fetch_is_throttled_witness :
  (last_config_check (next (run_once (loop_checked fresh_agent) cycle_hot down))
     = last_config_check (loop_checked fresh_agent) ∧
   remote_thresholds
     (agent (next (run_once (loop_checked fresh_agent) cycle_hot down)))
     = remote_thresholds (agent (loop_checked fresh_agent)) ∧
   threshold_version
     (agent (next (run_once (loop_checked fresh_agent) cycle_hot down)))
     = threshold_version (agent (loop_checked fresh_agent)) ∧
   config_check_interval
     (agent (next (run_once (loop_checked fresh_agent) cycle_hot down)))
     = config_check_interval (agent (loop_checked fresh_agent))) ∧
  (last_config_check (next (run_once (loop_init fresh_agent) cycle_hot down))
     = clock_after_fetch cycle_hot ∧
   remote_thresholds
     (agent (next (run_once (loop_init fresh_agent) cycle_hot down)))
     = remote_thresholds
         (fetch_remote_config (agent (loop_init fresh_agent))
            (config_reply cycle_hot)) ∧
   threshold_version
     (agent (next (run_once (loop_init fresh_agent) cycle_hot down)))
     = threshold_version
         (fetch_remote_config (agent (loop_init fresh_agent))
            (config_reply cycle_hot)) ∧
   config_check_interval
     (agent (next (run_once (loop_init fresh_agent) cycle_hot down)))
     = config_check_interval
         (fetch_remote_config (agent (loop_init fresh_agent))
            (config_reply cycle_hot))).
Proof.
  split.
  - apply (proj1 (config_fetch_is_throttled (loop_checked fresh_agent)
                    cycle_hot down)).
    vm_compute; discriminate.
  - apply (proj2 (config_fetch_is_throttled (loop_init fresh_agent)
                    cycle_hot down)).
    reflexivity.
Defined.

(** X19: while the held remote set gives [cpu], [memory] or [disk] a value
    that [float()] rejects and no config fetch is due, a cycle does
    nothing: it raises before collecting, with the exception of the first
    of the three lookups that fails ([TypeError] for a null [cpu] value,
    [ValueError] for a string that is no number), POSTs neither metrics
    nor alerts, buffers nothing, and leaves the loop exactly as it was, so
    the next cycle fails the same way. *)
Theorem invalid_threshold_stalls_cycle (st : agent_loop) (i : cycle_input)
    (w : world) (T : gmap string jvalue) (k : string) (v : jvalue)
    (e : exn) :
  (clock i - last_config_check st
     <= inject_Z (config_check_interval (agent st)))%Q →
  remote_thresholds (agent st) = Dict T →
  k ∈ ["cpu"; "memory"; "disk"] →
  T !! k = Some v → py_float v = Raise e →
  ∃ e',
    run_once st i w =
      {| next := st; net := w; alerts_sent := session_of w;
         cycle_error := Some (Builtin e') |} ∧
    first_raise (agent st) e' ∧
    (k = "cpu" → e' = e).
Proof.
  intros Hdue HT Hk Hv He.
  destruct (active_thresholds_invalid (agent st) T k v e HT Hk Hv He)
    as (e' & Hraise & Hcpu).
  exists e'. split; [|split; [by apply active_thresholds_raise|done]].
  unfold run_once, refresh_config, config_due.
  apply py_gt_false in Hdue. rewrite Hdue.
  unfold collect_metrics. rewrite Hraise.
  by destruct st.
Qed.

Lemma invalid_threshold_stalls_cycle_witness :
  ∃ e',
    run_once (loop_checked agent_bad_cpu) cycle_hot down =
      {| next := loop_checked agent_bad_cpu; net := down;
         alerts_sent := session_of down;
         cycle_error := Some (Builtin e') |} ∧
    first_raise (agent (loop_checked agent_bad_cpu)) e' ∧
    ("cpu" = "cpu" → e' = TypeError).
Proof.
  apply (invalid_threshold_stalls_cycle (loop_checked agent_bad_cpu)
           cycle_hot down {["cpu" := JNotNumber]} "cpu" JNotNumber TypeError).
  - vm_compute; discriminate.
  - reflexivity.
  - left.
  - vm_compute; reflexivity.
  - reflexivity.
Defined.

(** The same cycle, evaluated, next to one whose [cpu] value is a string
    that is no number. *)
Example stalled_cycle_errors :
  cycle_error (run_once (loop_checked agent_bad_cpu) cycle_hot down)
    = Some (Builtin TypeError) ∧
  cycle_error
    (run_once
       (loop_checked
          (set_thresholds (Dict {["cpu" := JBadString]}) 3 agent_sampled))
       cycle_hot down)
    = Some (Builtin ValueError).
Proof. vm_compute. split; reflexivity. Qed.

(** X20: when the thresholds are numbers and the disk or services domain
    of the cycle is an error marker, the cycle ends in [AttributeError]
    after collecting: the snapshot is neither POSTed nor buffered, no alert
    is POSTed and the failure count is unchanged, although the rate
    collectors have taken their new samples. *)
Theorem failed_domain_drops_snapshot (st : agent_loop) (i : cycle_input)
    (w : world) (th : Metrics.active_thresholds) (e : exn) :
  active_thresholds (agent (refresh_config st i)) = Ok th →
  disk_domain (platform i) = Error e ∨ services_domain (platform i) = Error e →
  net (run_once st i w) = w ∧
  alerts_posted (alerts_sent (run_once st i w)) = [] ∧
  cycle_error (run_once st i w) = Some AttributeError ∧
  metric_buffer (agent (next (run_once st i w))) = metric_buffer (agent st) ∧
  consecutive_failures (agent (next (run_once st i w)))
    = consecutive_failures (agent st) ∧
  disk_io_collector (agent (next (run_once st i w)))
    = snd (DiskIOCollector.collect
             (disk_io_collector (agent st))
             (disk_io_time (readings i)) (disk_io_counters (readings i))) ∧
  network_collector (agent (next (run_once st i w)))
    = snd (NetworkCollector.collect
             (network_collector (agent st))
             (net_io_time (readings i)) (net_io_counters (readings i))).
Proof.
  intros Hth Herr. unfold run_once.
  assert (metric_buffer (agent (refresh_config st i)) = metric_buffer (agent st)
          ∧ consecutive_failures (agent (refresh_config st i))
            = consecutive_failures (agent st)
          ∧ disk_io_collector (agent (refresh_config st i))
            = disk_io_collector (agent st)
          ∧ network_collector (agent (refresh_config st i))
            = network_collector (agent st)) as (F1 & F2 & F3 & F4).
  { unfold refresh_config. destruct (config_due st (clock i)); [|done].
    apply fetch_keeps_delivery. }
  unfold collect_metrics. rewrite Hth, F3, F4.
  destruct (DiskIOCollector.collect _ _ _) as [d dc].
  destruct (NetworkCollector.collect _ _ _) as [n nc]. simpl.
  rewrite (error_marker_check _ _ _ th e); [|done|tauto].
  simpl. by rewrite F1, F2.
Qed.

Lemma failed_domain_drops_snapshot_witness :
  net (run_once (loop_checked fresh_agent) cycle_disk_failed down) = down ∧
  alerts_posted
    (alerts_sent (run_once (loop_checked fresh_agent) cycle_disk_failed down))
    = [] ∧
  cycle_error (run_once (loop_checked fresh_agent) cycle_disk_failed down)
    = Some AttributeError ∧
  metric_buffer
    (agent (next (run_once (loop_checked fresh_agent) cycle_disk_failed down)))
    = metric_buffer (agent (loop_checked fresh_agent)) ∧
  consecutive_failures
    (agent (next (run_once (loop_checked fresh_agent) cycle_disk_failed down)))
    = consecutive_failures (agent (loop_checked fresh_agent)) ∧
  disk_io_collector
    (agent (next (run_once (loop_checked fresh_agent) cycle_disk_failed down)))
    = snd (DiskIOCollector.collect
             (disk_io_collector (agent (loop_checked fresh_agent)))
             (disk_io_time (readings cycle_disk_failed))
             (disk_io_counters (readings cycle_disk_failed))) ∧
  network_collector
    (agent (next (run_once (loop_checked fresh_agent) cycle_disk_failed down)))
    = snd (NetworkCollector.collect
             (network_collector (agent (loop_checked fresh_agent)))
             (net_io_time (readings cycle_disk_failed))
             (net_io_counters (readings cycle_disk_failed))).
Proof.
  apply (failed_domain_drops_snapshot (loop_checked fresh_agent)
           cycle_disk_failed down
           {| Metrics.cpu := 80; Metrics.memory := 85; Metrics.disk := 90;
              Metrics.version := 0; Metrics.source := "local" |} ValueError).
  - vm_compute; reflexivity.
  - left. reflexivity.
Defined.

(** X21: in a cycle whose snapshot is built and checked without an
    exception, the first POST is the snapshot and every alert is POSTed
    once after the metrics POSTs, in order, whether or not the snapshot
    was delivered. *)
Theorem alerts_sent_whatever_delivery (st : agent_loop) (i : cycle_input)
    (w : world) (m : Metrics.t) (a : UptimeSquirrelAgent)
    (alerts : list alert) :
  collect_metrics (agent (refresh_config st i)) (readings i) = (Ok m, a) →
  check_thresholds a (Metrics.timestamp m) (platform i) = Returns alerts →
  cycle_error (run_once st i w) = None ∧
  alerts_posted (alerts_sent (run_once st i w)) = alerts ∧
  (∃ rest,
     posted (net (run_once st i w)) = posted w ++ metrics_payload m :: rest) ∧
  calls (net (run_once st i w))
    = (calls (snd (report_metrics a m w)) + length alerts)%nat.
Proof.
  intros Hcollect Hcheck. unfold run_once. rewrite Hcollect, Hcheck.
  destruct (report_metrics_posts_snapshot a m w) as [rest Hrest].
  destruct (report_metrics a m w) as [a2 w2]. simpl in *.
  destruct (send_alerts_run alerts (session_of w2)) as (_ & H2 & H3 & _).
  rewrite H2, H3. simpl. split; [done|]. split; [done|]. split; [|done].
  by exists rest.
Qed.

Lemma alerts_sent_whatever_delivery_witness :
  match collect_metrics (agent (refresh_config (loop_checked fresh_agent)
                                  cycle_hot)) (readings cycle_hot) with
  | (Ok m, a) =>
      match check_thresholds a (Metrics.timestamp m) (platform cycle_hot) with
      | Returns alerts =>
          cycle_error (run_once (loop_checked fresh_agent) cycle_hot down)
            = None ∧
          alerts_posted
            (alerts_sent (run_once (loop_checked fresh_agent) cycle_hot down))
            = alerts ∧
          (∃ rest,
             posted (net (run_once (loop_checked fresh_agent) cycle_hot down))
               = posted down ++ metrics_payload m :: rest) ∧
          calls (net (run_once (loop_checked fresh_agent) cycle_hot down))
            = (calls (snd (report_metrics a m down)) + length alerts)%nat
      | Raises _ => False
      end
  | (Raise _, _) => False
  end.
Proof.
  destruct (collect_metrics _ _) as [[m|e] a] eqn:E1.
  - destruct (check_thresholds _ _ _) as [alerts|x] eqn:E2.
    + exact (alerts_sent_whatever_delivery (loop_checked fresh_agent)
               cycle_hot down m a alerts E1 E2).
    + vm_compute in E1. injection E1 as <- <-.
      vm_compute in E2. discriminate E2.
  - vm_compute in E1. discriminate E1.
Defined.

(** A cycle on a hot host with the endpoint down: the snapshot is POSTed
    and buffered, and the five alerts are POSTed all the same. *)
Example hot_cycle_endpoint_down :
  p_timestamp
    <$> posted (net (run_once (loop_checked fresh_agent) cycle_hot down))
    = [1000] ∧
  length (buffer (metric_buffer
                    (agent (next (run_once (loop_checked fresh_agent)
                                    cycle_hot down))))) = 1%nat ∧
  a_type
    <$> alerts_posted
          (alerts_sent (run_once (loop_checked fresh_agent) cycle_hot down))
    = [cpu_high; memory_high; disk_high; disk_high; service_down] ∧
  calls (net (run_once (loop_checked fresh_agent) cycle_hot down)) = 6%nat.
Proof. vm_compute. repeat split. Qed.

(** ** DiskCollector._format_bytes *)

(** X22: [_format_bytes] raises [OverflowError] on a count beyond the
    float range and returns otherwise.  The number it prints is the float
    nearest to the count, divided [k] times by 1024, and the unit is the
    [k]-th of B, KB, MB, GB, TB, PB, where [k] is 0 exactly for a count
    below 1024 (a negative one too), and otherwise the first number of
    divisions, up to the fifth, that brings the float below 1024. *)
Theorem format_bytes_scales (b : Z) :
  (in_float_range b → ∃ x u, _format_bytes b = Ok (x, u)) ∧
  (¬ in_float_range b → _format_bytes b = Raise OverflowError) ∧
  (∀ x u, _format_bytes b = Ok (x, u) →
     ∃ k : nat,
       ["B"; "KB"; "MB"; "GB"; "TB"; "PB"] !! k = Some u ∧
       x = divided (nearest_float_of_int b) k ∧
       (k = 0%nat ↔ b < 1024) ∧
       (∀ j, (1 ≤ j < k)%nat →
             (divided (nearest_float_of_int b) j <? 1024)%float = false) ∧
       ((1 ≤ k < 5)%nat → (x <? 1024)%float = true)).
Proof.
  unfold _format_bytes, py_float_of_int, in_float_range.
  destruct (Z.ltb_spec (Z.abs b) float_of_int_bound) as [Hr|Hr];
    cbn [mbind result_bind].
  2: { split; [intros; lia|]. split; [done|]. intros x u H. discriminate H. }
  split.
  { intros _. destruct (b <? 1024); [by eexists _, _|].
    destruct (format_bytes_loop _ _) as [x u]. by exists x, u. }
  split; [intros; lia|]. intros x u.
  destruct (Z.ltb_spec b 1024) as [Hb|Hb].
  - intros [= <- <-]. exists 0%nat. repeat split; (done || lia).
  - set (x0 := nearest_float_of_int b).
    assert (∀ k : nat,
              (1 ≤ k)%nat →
              ["B"; "KB"; "MB"; "GB"; "TB"; "PB"] !! k = Some u →
              x = divided x0 k →
              (∀ j, (1 ≤ j < k)%nat → (divided x0 j <? 1024)%float = false) →
              ((1 ≤ k < 5)%nat → (x <? 1024)%float = true) →
              ∃ k : nat,
                ["B"; "KB"; "MB"; "GB"; "TB"; "PB"] !! k = Some u ∧
                x = divided x0 k ∧ (k = 0%nat ↔ b < 1024) ∧
                (∀ j, (1 ≤ j < k)%nat →
                      (divided x0 j <? 1024)%float = false) ∧
                ((1 ≤ k < 5)%nat → (x <? 1024)%float = true)) as Hk.
    { intros k Hk1 Hu Hx Hlow Hhigh. exists k. repeat split; (done || lia). }
    unfold format_bytes_loop.
    destruct (x0 / 1024 <? 1024)%float eqn:E1.
    { intros [= <- <-]. apply (Hk 1%nat); [lia|done|done| |done].
      intros j Hj. lia. }
    destruct (x0 / 1024 / 1024 <? 1024)%float eqn:E2.
    { intros [= <- <-]. apply (Hk 2%nat); [lia|done|done| |done].
      intros j Hj. by assert (j = 1%nat) as -> by lia. }
    destruct (x0 / 1024 / 1024 / 1024 <? 1024)%float eqn:E3.
    { intros [= <- <-]. apply (Hk 3%nat); [lia|done|done| |done].
      intros j Hj.
      assert (j = 1%nat ∨ j = 2%nat) as [-> | ->] by lia; done. }
    destruct (x0 / 1024 / 1024 / 1024 / 1024 <? 1024)%float eqn:E4.
    { intros [= <- <-]. apply (Hk 4%nat); [lia|done|done| |done].
      intros j Hj.
      assert (j = 1%nat ∨ j = 2%nat ∨ j = 3%nat) as [-> | [-> | ->]] by lia;
        done. }
    intros [= <- <-]. apply (Hk 5%nat); [lia|done|done| |intros; lia].
    intros j Hj.
    assert (j = 1%nat ∨ j = 2%nat ∨ j = 3%nat ∨ j = 4%nat)
      as [-> | [-> | [-> | ->]]] by lia; done.
Qed.

Lemma format_bytes_scales_witness :
  ∃ k : nat,
    ["B"; "KB"; "MB"; "GB"; "TB"; "PB"] !! k = Some "KB" ∧
    0x1.8p+0%float = divided (nearest_float_of_int 1536) k ∧
    (k = 0%nat ↔ 1536 < 1024) ∧
    (∀ j, (1 ≤ j < k)%nat →
          (divided (nearest_float_of_int 1536) j <? 1024)%float = false) ∧
    ((1 ≤ k < 5)%nat → (0x1.8p+0 <? 1024)%float = true).
Proof.
  apply (proj2 (proj2 (format_bytes_scales 1536)) 0x1.8p+0%float "KB").
  vm_compute; reflexivity.
Defined.

(** Counts above [2^53] are rounded when they become floats: the count
    [2^53 + 1] is printed as 8 PB, one byte short. *)
Example format_bytes_samples :
  _format_bytes 5 = Ok (5%float, "B") ∧
  _format_bytes 1536 = Ok (0x1.8p+0%float, "KB") ∧
  _format_bytes (2 ^ 53 + 1) = Ok (8%float, "PB") ∧
  _format_bytes (2 ^ 1024) = Raise OverflowError.
Proof. vm_compute. repeat split. Qed.


(** ** ThermalCollector.collect *)

Lemma foldl_max_spec (rest : list Q) (x : Q) :
  foldl (fun m y => if py_gt y m then y else m) x rest ∈ x :: rest ∧
  (x <= foldl (fun m y => if py_gt y m then y else m) x rest)%Q ∧
  ∀ y, y ∈ rest →
       (y <= foldl (fun m y => if py_gt y m then y else m) x rest)%Q.
Proof.
  revert x. induction rest as [|z rest IH]; intros x; simpl.
  - split; [by left|]. split; [apply Qle_refl|]. by intros y ?%elem_of_nil.
  - destruct (py_gt z x) eqn:E.
    + apply py_gt_true in E. destruct (IH z) as (Hin & Hle & Hall).
      split; [by right|]. split.
      * apply Qle_trans with z; [by apply Qlt_le_weak|done].
      * intros y [->|Hy]%elem_of_cons; [done|by apply Hall].
    + apply py_gt_false in E. destruct (IH x) as (Hin & Hle & Hall).
      split.
      * apply elem_of_cons in Hin as [->|Hin]; [by left|by do 2 right].
      * split; [done|].
        intros y [->|Hy]%elem_of_cons; [by apply Qle_trans with x|by apply Hall].
Qed.

Lemma py_max_spec l t :
  py_max l = Ok t → t ∈ l ∧ ∀ y, y ∈ l → (y <= t)%Q.
Proof.
  destruct l as [|x rest]; [done|]. simpl. intros [= <-].
  destruct (foldl_max_spec rest x) as (Hin & Hle & Hall).
  split; [done|]. intros y [->|Hy]%elem_of_cons; [done|by apply Hall].
Qed.

(** Names whose sensor is absent or has no readings are passed over. *)
Lemma first_sensor_decides names before name after temperatures temps :
  names = before ++ name :: after →
  (∀ n, n ∈ before →
        temperatures !! n = None ∨ temperatures !! n = Some []) →
  temperatures !! name = Some temps → temps ≠ [] →
  first_sensor names temperatures
    = (t ← py_max (currents temps); mret (Some t)).
Proof.
  intros -> Hbefore Hname Hne.
  induction before as [|n before IH]; simpl.
  - rewrite Hname. by destruct temps.
  - destruct (Hbefore n) as [-> | ->]; [by left| |];
      apply IH; intros n' Hn'; apply Hbefore; by right.
Qed.

Lemma first_sensor_none names temperatures :
  (∀ n, n ∈ names →
        temperatures !! n = None ∨ temperatures !! n = Some []) →
  first_sensor names temperatures = Ok None.
Proof.
  induction names as [|n names IH]; intros Hall; [done|]. simpl.
  destruct (Hall n) as [-> | ->]; [by left| |];
    apply IH; intros n' Hn'; apply Hall; by right.
Qed.

(** X23: the CPU temperature comes from the first of [coretemp],
    [cpu_thermal], [k10temp], [acpi] that is present with readings,
    whatever the other sensors read: when [collect] returns, [cpu_temp] is
    one of that sensor's readings and no reading of that sensor is
    higher. *)
Theorem cpu_temp_from_first_named_sensor
    (temperatures : gmap string (list (option Q)))
    (before after : list string) (name : string) (temps : list (option Q))
    (td : thermal_data) :
  cpu_sensors = before ++ name :: after →
  (∀ n, n ∈ before →
        temperatures !! n = None ∨ temperatures !! n = Some []) →
  temperatures !! name = Some temps → temps ≠ [] →
  ThermalCollector.collect (Some temperatures) = Ok td →
  ∃ t, cpu_temp td = Some t ∧ Some t ∈ temps ∧
       ∀ y, Some y ∈ temps → (y <= t)%Q.
Proof.
  intros Hnames Hbefore Hname Hne. unfold ThermalCollector.collect.
  rewrite (first_sensor_decides _ _ _ _ _ _ Hnames Hbefore Hname Hne).
  destruct (py_max (currents temps)) as [t|] eqn:Hmax; [|done].
  destruct (first_sensor gpu_sensors temperatures) as [gpu|]; [|done].
  simpl. intros [= <-]. exists t. split; [done|].
  apply py_max_spec in Hmax as [Hin Hall]. unfold currents in *. split.
  - apply list_elem_of_omap in Hin as (o & Ho & Hid). simpl in Hid. by subst.
  - intros y Hy. apply Hall. apply list_elem_of_omap. by exists (Some y).
Qed.

(** X24: a named CPU or GPU sensor that decides but whose readings are all
    [None] makes [collect] raise [ValueError] (the [max] of nothing). *)
Theorem sensor_without_values_raises
    (temperatures : gmap string (list (option Q)))
    (before after : list string) (name : string) (temps : list (option Q)) :
  cpu_sensors = before ++ name :: after →
  (∀ n, n ∈ before →
        temperatures !! n = None ∨ temperatures !! n = Some []) →
  temperatures !! name = Some temps → temps ≠ [] →
  (∀ o, o ∈ temps → o = None) →
  ThermalCollector.collect (Some temperatures) = Raise ValueError.
Proof.
  intros Hnames Hbefore Hname Hne Hnone. unfold ThermalCollector.collect.
  rewrite (first_sensor_decides _ _ _ _ _ _ Hnames Hbefore Hname Hne).
  assert (currents temps = []) as ->; [|done].
  unfold currents. clear Hname Hne.
  induction temps as [|o temps IH]; [done|]. simpl.
  rewrite (Hnone o) by (by left). simpl. apply IH.
  intros o' Ho'. apply Hnone. by right.
Qed.

Lemma elem_of_concat {A} (x : A) (ls : list (list A)) :
  x ∈ concat ls ↔ ∃ l, x ∈ l ∧ l ∈ ls.
Proof.
  induction ls as [|l ls IH]; simpl.
  - split; [by intros ?%elem_of_nil|]. intros (? & _ & []%elem_of_nil).
  - rewrite elem_of_app, IH. split.
    + intros [H|(l' & H1 & H2)].
      * exists l. split; [done|by left].
      * exists l'. split; [done|by right].
    + intros (l' & H1 & [->|H2]%elem_of_cons); [by left|].
      right. by exists l'.
Qed.

Lemma elem_of_all_temps temperatures sensor temps x :
  temperatures !! sensor = Some temps → Some x ∈ temps →
  x ∈ all_temps temperatures.
Proof.
  intros Hs Hx. unfold all_temps. apply elem_of_concat.
  exists (currents temps). split.
  - unfold currents. apply list_elem_of_omap. by exists (Some x).
  - apply list_elem_of_fmap. exists (sensor, temps). split; [done|].
    by apply elem_of_map_to_list.
Qed.

Lemma all_temps_elem temperatures x :
  x ∈ all_temps temperatures →
  ∃ sensor temps, temperatures !! sensor = Some temps ∧ Some x ∈ temps.
Proof.
  unfold all_temps. intros (l & Hx & Hl)%elem_of_concat.
  apply list_elem_of_fmap in Hl as ([sensor temps] & -> & Hin).
  apply elem_of_map_to_list in Hin. exists sensor, temps. split; [done|].
  unfold currents in Hx. simpl in Hx.
  apply list_elem_of_omap in Hx as (o & Ho & Hid). simpl in Hid. by subst.
Qed.

(** X25: when none of the four named CPU sensors has readings and
    [collect] returns, [cpu_temp] is the highest reading of all sensors
    taken together, GPU sensors included, so it is never below [gpu_temp];
    it is absent exactly when no sensor has a value. *)
Theorem cpu_temp_fallback_is_overall_max
    (temperatures : gmap string (list (option Q))) (td : thermal_data) :
  (∀ n, n ∈ cpu_sensors →
        temperatures !! n = None ∨ temperatures !! n = Some []) →
  ThermalCollector.collect (Some temperatures) = Ok td →
  (∀ sensor temps x,
     temperatures !! sensor = Some temps → Some x ∈ temps →
     ∃ t, cpu_temp td = Some t ∧ (x <= t)%Q) ∧
  (∀ t, cpu_temp td = Some t →
        ∃ sensor temps, temperatures !! sensor = Some temps ∧ Some t ∈ temps) ∧
  (∀ g, gpu_temp td = Some g →
        ∃ t, cpu_temp td = Some t ∧ (g <= t)%Q).
Proof.
  intros Hnone. unfold ThermalCollector.collect.
  rewrite (first_sensor_none _ _ Hnone).
  destruct (first_sensor gpu_sensors temperatures) as [gpu|] eqn:Hgpu; [|done].
  cbn [mbind result_bind mret result_ret]. intros [= <-].
  cbn [cpu_temp gpu_temp].
  assert (∀ sensor temps x,
            temperatures !! sensor = Some temps → Some x ∈ temps →
            ∃ t, match all_temps temperatures with
                 | [] => None
                 | y :: rest =>
                     Some (foldl (fun m z => if py_gt z m then z else m) y rest)
                 end = Some t ∧ (x <= t)%Q) as Hbound.
  { intros sensor temps x Hs Hx.
    pose proof (elem_of_all_temps _ _ _ _ Hs Hx) as Hin.
    destruct (all_temps temperatures) as [|y rest]; [by apply elem_of_nil in Hin|].
    destruct (foldl_max_spec rest y) as (_ & Hle & Hall).
    eexists. split; [done|].
    apply elem_of_cons in Hin as [->|Hin]; [done|by apply Hall]. }
  split; [done|]. split.
  - intros t Ht. apply all_temps_elem.
    destruct (all_temps temperatures) as [|y rest]; [done|].
    injection Ht as <-. apply foldl_max_spec.
  - intros g ->.
    assert (∃ sensor temps, temperatures !! sensor = Some temps ∧ Some g ∈ temps)
      as (sensor & temps & Hs & Hg); [|by eapply Hbound].
    clear Hbound Hnone. unfold gpu_sensors in Hgpu.
    revert Hgpu. generalize ["nouveau"; "radeon"; "amdgpu"].
    intros names. induction names as [|n names IH]; [done|].
    cbn [first_sensor].
    destruct (temperatures !! n) as [[|o temps]|] eqn:Hn; try done.
    destruct (py_max (currents (o :: temps))) as [t|] eqn:Hmax; [|done].
    cbn [mbind result_bind mret result_ret]. intros [= ->].
    exists n, (o :: temps). split; [done|].
    apply py_max_spec in Hmax as [Hin _]. unfold currents in Hin.
    apply list_elem_of_omap in Hin as (o' & Ho' & Hid). simpl in Hid. by subst.
Qed.

Lemma cpu_temp_from_first_named_sensor_witness :
  match ThermalCollector.collect (Some temps_core) with
  | Ok td =>
      ∃ t, cpu_temp td = Some t ∧
           Some t ∈ [Some 45%Q; None; Some 62%Q] ∧
           ∀ y, Some y ∈ [Some 45%Q; None; Some 62%Q] → (y <= t)%Q
  | Raise _ => False
  end.
Proof.
  destruct (ThermalCollector.collect (Some temps_core)) as [td|e] eqn:E.
  - apply (cpu_temp_from_first_named_sensor temps_core []
             ["cpu_thermal"; "k10temp"; "acpi"] "coretemp"
             [Some 45%Q; None; Some 62%Q] td).
    + reflexivity.
    + intros n []%elem_of_nil.
    + vm_compute; reflexivity.
    + discriminate.
    + exact E.
  - vm_compute in E. discriminate E.
Defined.

Lemma sensor_without_values_raises_witness :
  ThermalCollector.collect (Some temps_no_value) = Raise ValueError.
Proof.
  apply (sensor_without_values_raises temps_no_value ["coretemp"]
           ["k10temp"; "acpi"] "cpu_thermal" [None]).
  - reflexivity.
  - intros n ->%list_elem_of_singleton. left. vm_compute; reflexivity.
  - vm_compute; reflexivity.
  - discriminate.
  - intros o ->%list_elem_of_singleton. reflexivity.
Defined.

Lemma cpu_temp_fallback_is_overall_max_witness :
  match ThermalCollector.collect (Some temps_unnamed) with
  | Ok td =>
      (∀ sensor temps x,
         temps_unnamed !! sensor = Some temps → Some x ∈ temps →
         ∃ t, cpu_temp td = Some t ∧ (x <= t)%Q) ∧
      (∀ t, cpu_temp td = Some t →
            ∃ sensor temps,
              temps_unnamed !! sensor = Some temps ∧ Some t ∈ temps) ∧
      (∀ g, gpu_temp td = Some g →
            ∃ t, cpu_temp td = Some t ∧ (g <= t)%Q)
  | Raise _ => False
  end.
Proof.
  destruct (ThermalCollector.collect (Some temps_unnamed)) as [td|e] eqn:E.
  - apply (cpu_temp_fallback_is_overall_max temps_unnamed td); [|exact E].
    intros n Hn. left. unfold cpu_sensors in Hn.
    repeat (apply elem_of_cons in Hn as [->|Hn]; [vm_compute; reflexivity|]).
    by apply elem_of_nil in Hn.
  - vm_compute in E. discriminate E.
Defined.

(** The three sample hosts, evaluated: [coretemp] decides although
    [k10temp] is hotter; without a named CPU sensor the GPU's 70 degrees
    are reported as the CPU temperature too. *)
Example thermal_samples :
  ThermalCollector.collect (Some temps_core)
    = Ok {| cpu_temp := Some 62%Q; gpu_temp := Some 70%Q |} ∧
  ThermalCollector.collect (Some temps_unnamed)
    = Ok {| cpu_temp := Some 70%Q; gpu_temp := Some 70%Q |} ∧
  ThermalCollector.collect None
    = Ok {| cpu_temp := None; gpu_temp := None |}.
Proof. vm_compute. repeat split. Qed.

(** ** DiskCollector.collect *)

(** The entry [collect] stores for partition [p] with usage [u]. *)
Lemma disk_loop_lookup cfgs du ps acc out mount :
  disk_loop cfgs du ps acc = Some out →
  ∀ e, out !! mount = Some e →
       acc !! mount = Some e ∨
       ∃ p u, p ∈ ps ∧ mountpoint p = mount ∧ fstype p ≠ "" ∧
              mount_enabled cfgs mount = true ∧ du mount = Usage u ∧
              entry_percent e = percent u ∧ entry_device e = device p.
Proof.
  revert acc. induction ps as [|p ps IH]; intros acc Hrun e He; simpl in Hrun.
  - injection Hrun as <-. by left.
  - destruct (negb (String.eqb (fstype p) "")) eqn:Hfs; simpl in Hrun.
    + destruct (mount_enabled cfgs (mountpoint p)) eqn:Hen.
      * destruct (du (mountpoint p)) as [u| |] eqn:Hu; [| |done].
        -- destruct (_format_bytes (total u)) as [size|]; [|done].
           destruct (IH _ Hrun e He) as [Hacc|(p' & u' & Hin & H)].
           ++ destruct (decide (mountpoint p = mount)) as [Heq|Hne].
              ** subst mount. rewrite lookup_insert_eq in Hacc.
                 injection Hacc as <-. right. exists p, u.
                 apply negb_true_iff in Hfs.
                 apply String.eqb_neq in Hfs.
                 repeat split; try done. by left.
              ** rewrite lookup_insert_ne in Hacc by done. by left.
           ++ right. exists p', u'. split; [by right|done].
        -- destruct (IH _ Hrun e He) as [Hacc|(p' & u' & Hin & H)];
             [by left|]. right. exists p', u'. split; [by right|done].
      * destruct (IH _ Hrun e He) as [Hacc|(p' & u' & Hin & H)];
          [by left|]. right. exists p', u'. split; [by right|done].
    + destruct (IH _ Hrun e He) as [Hacc|(p' & u' & Hin & H)];
        [by left|]. right. exists p', u'. split; [by right|done].
Qed.

Lemma disk_loop_keeps cfgs du ps acc out mount :
  disk_loop cfgs du ps acc = Some out →
  is_Some (acc !! mount) → is_Some (out !! mount).
Proof.
  revert acc. induction ps as [|p ps IH]; intros acc Hrun Hacc; simpl in Hrun.
  - by injection Hrun as <-.
  - destruct (negb (String.eqb (fstype p) "") && mount_enabled cfgs (mountpoint p));
      [|by eapply IH].
    destruct (du (mountpoint p)) as [u| |]; [|by eapply IH|done].
    destruct (_format_bytes (total u)) as [size|]; [|done].
    eapply IH; [done|].
    destruct (decide (mountpoint p = mount)) as [<-|Hne].
    + rewrite lookup_insert_eq. by eexists.
    + by rewrite lookup_insert_ne.
Qed.

Lemma disk_loop_reports cfgs du ps acc out p u :
  disk_loop cfgs du ps acc = Some out →
  p ∈ ps → fstype p ≠ "" → mount_enabled cfgs (mountpoint p) = true →
  du (mountpoint p) = Usage u →
  is_Some (out !! mountpoint p).
Proof.
  revert acc. induction ps as [|p' ps IH]; intros acc Hrun Hin Hfs Hen Hu.
  - by apply elem_of_nil in Hin.
  - simpl in Hrun. apply elem_of_cons in Hin as [<-|Hin].
    + apply String.eqb_neq in Hfs. rewrite Hfs, Hen, Hu in Hrun. simpl in Hrun.
      destruct (_format_bytes (total u)) as [size|]; [|done].
      eapply disk_loop_keeps; [done|]. rewrite lookup_insert_eq. by eexists.
    + destruct (negb (String.eqb (fstype p') "")
                && mount_enabled cfgs (mountpoint p')); [|by eapply IH].
      destruct (du (mountpoint p')) as [u'| |]; [|by eapply IH|done].
      destruct (_format_bytes (total u')) as [size|]; [by eapply IH|done].
Qed.

(** X26: when disk monitoring is not switched off globally and [collect]
    returns, a mount point is reported exactly if some partition with a
    file system type is mounted there, the mount is not disabled in the
    configuration (a mount the configuration does not name is enabled)
    and its usage query succeeded; the reported percent is the one of
    that query. *)
Theorem disk_collect_reports_enabled_mounts (config : disk_config)
    (disk_usage : string → usage_outcome) (partitions : list partition)
    (disks : gmap string disk_entry) (mount : string) :
  default true (config_enabled config) = true →
  DiskCollector.collect config disk_usage partitions = Some disks →
  (is_Some (disks !! mount) ↔
     ∃ p u, p ∈ partitions ∧ mountpoint p = mount ∧ fstype p ≠ "" ∧
            mount_enabled (default ∅ (config_disks config)) mount = true ∧
            disk_usage mount = Usage u) ∧
  (∀ e u, disks !! mount = Some e → disk_usage mount = Usage u →
          entry_percent e = percent u).
Proof.
  intros Hen. unfold DiskCollector.collect. rewrite Hen. simpl. intros Hrun.
  split; [split|].
  - intros [e He].
    destruct (disk_loop_lookup _ _ _ _ _ mount Hrun e He)
      as [Hacc|(p & u & Hin & Hm & Hfs & Hme & Hu & _)].
    + by rewrite lookup_empty in Hacc.
    + by exists p, u.
  - intros (p & u & Hin & <- & Hfs & Hme & Hu).
    by eapply disk_loop_reports.
  - intros e u He Hu.
    destruct (disk_loop_lookup _ _ _ _ _ mount Hrun e He)
      as [Hacc|(p & u' & _ & _ & _ & _ & Hu' & Hp & _)].
    + by rewrite lookup_empty in Hacc.
    + rewrite Hu in Hu'. by injection Hu' as <-.
Qed.

(** X27: when disk monitoring is not switched off globally, one enabled
    partition whose usage query fails with anything but a
    [PermissionError] makes [collect] raise: no disk is reported at all. *)
Theorem unreadable_mount_fails_disk_domain (config : disk_config)
    (disk_usage : string → usage_outcome) (partitions : list partition)
    (p : partition) :
  default true (config_enabled config) = true →
  p ∈ partitions → fstype p ≠ "" →
  mount_enabled (default ∅ (config_disks config)) (mountpoint p) = true →
  disk_usage (mountpoint p) = OtherError →
  DiskCollector.collect config disk_usage partitions = None.
Proof.
  intros Hen Hin Hfs Hme Hu. unfold DiskCollector.collect. rewrite Hen. simpl.
  generalize (∅ : gmap string disk_entry).
  induction partitions as [|p' ps IH]; intros acc.
  - by apply elem_of_nil in Hin.
  - simpl. apply elem_of_cons in Hin as [<-|Hin].
    + apply String.eqb_neq in Hfs. by rewrite Hfs, Hme, Hu.
    + destruct (negb (String.eqb (fstype p') "")
                && mount_enabled _ (mountpoint p')); [|by apply IH].
      destruct (disk_usage (mountpoint p')) as [u'| |]; [|by apply IH|done].
      destruct (_format_bytes (total u')) as [size|]; [by apply IH|done].
Qed.

Lemma disk_collect_reports_enabled_mounts_witness :
  match DiskCollector.collect sample_disk_config sample_usage
          [part_root; part_data] with
  | Some disks =>
      (is_Some (disks !! "/data") ↔
         ∃ p u, p ∈ [part_root; part_data] ∧ mountpoint p = "/data" ∧
                fstype p ≠ "" ∧
                mount_enabled (default ∅ (config_disks sample_disk_config))
                  "/data" = true ∧
                sample_usage "/data" = Usage u) ∧
      (∀ e u, disks !! "/data" = Some e → sample_usage "/data" = Usage u →
              entry_percent e = percent u)
  | None => False
  end.
Proof.
  destruct (DiskCollector.collect sample_disk_config sample_usage
              [part_root; part_data]) as [disks|] eqn:E.
  - apply (disk_collect_reports_enabled_mounts sample_disk_config sample_usage
             [part_root; part_data] disks "/data"); [reflexivity|exact E].
  - vm_compute in E. discriminate E.
Defined.

Lemma unreadable_mount_fails_disk_domain_witness :
  DiskCollector.collect sample_disk_config sample_usage
    [part_root; part_stale; part_data] = None.
Proof.
  apply (unreadable_mount_fails_disk_domain sample_disk_config sample_usage
           [part_root; part_stale; part_data] part_stale).
  - reflexivity.
  - right. left.
  - discriminate.
  - vm_compute; reflexivity.
  - reflexivity.
Defined.

(** The sample disks, evaluated: the root disk is reported, the disabled
    data disk is not. *)
Example disk_collect_sample :
  (entry_percent <$>
     default ∅ (DiskCollector.collect sample_disk_config sample_usage
                  [part_root; part_data])) = {["/" := 40%Q]}.
Proof. vm_compute. reflexivity. Qed.

(** ** get_monitored_services *)

Lemma replace_from_length old s k :
  (String.length (replace_from k old s) ≤ String.length s)%nat.
Proof.
  revert k. induction s as [|c rest IH]; intros k; [simpl; lia|].
  cbn [replace_from String.length]. destruct k as [|k].
  - destruct (String.prefix old (String c rest)).
    + specialize (IH (String.length old - 1)%nat). lia.
    + cbn [String.length]. specialize (IH 0%nat). lia.
  - specialize (IH k). lia.
Qed.

Lemma remove_all_absent old s :
  contains old s = false → remove_all s old = s.
Proof.
  unfold remove_all. induction s as [|c rest IH]; intros Hc; [done|].
  cbn [replace_from contains] in *. apply orb_false_iff in Hc as [Hp Hrest].
  rewrite Hp. by rewrite IH.
Qed.

Lemma remove_all_present old s :
  old ≠ EmptyString → contains old s = true →
  (String.length (remove_all s old) < String.length s)%nat.
Proof.
  unfold remove_all. intros Hold.
  induction s as [|c rest IH]; intros Hc.
  - simpl in Hc. destruct old; [done|discriminate].
  - cbn [replace_from contains String.length] in *.
    destruct (String.prefix old (String c rest)) eqn:Hp.
    + pose proof (replace_from_length old rest (String.length old - 1)). lia.
    + cbn [orb String.length] in *. specialize (IH Hc). lia.
Qed.

Lemma remove_monitor_prefix name :
  remove_all ("monitor_" +:+ name) "monitor_" = remove_all name "monitor_" ∧
  startswith ("monitor_" +:+ name) "monitor_" = true.
Proof. destruct name; split; vm_compute; reflexivity. Qed.

(** X28: an item [monitor_<name> = <value>] of the services section whose
    value lower-cases to [true] adds a service to the list; the service it
    adds is [<name>] exactly if [<name>] does not contain [monitor_]
    again: [replace] drops every occurrence, not only the prefix. *)
Theorem monitored_service_name (items : list (string * string))
    (name value : string) :
  ("monitor_" +:+ name, value) ∈ items →
  lower value = "true" →
  remove_all name "monitor_" ∈ get_monitored_services items ∧
  (remove_all name "monitor_" = name ↔ contains "monitor_" name = false).
Proof.
  intros Hin Hval. split.
  - induction items as [|[key v] rest IH]; [by apply elem_of_nil in Hin|].
    simpl. apply elem_of_cons in Hin as [[= <- <-]|Hin].
    + destruct (remove_monitor_prefix name) as [-> ->]. rewrite Hval. by left.
    + destruct (startswith key "monitor_" && String.eqb (lower v) "true");
        [right|]; by apply IH.
  - split.
    + intros Heq. destruct (contains "monitor_" name) eqn:Hc; [|done].
      pose proof (remove_all_present "monitor_" name ltac:(done) Hc) as Hlt.
      rewrite Heq in Hlt. lia.
    + apply remove_all_absent.
Qed.

Lemma monitored_service_name_witness :
  remove_all "my_monitor_app" "monitor_"
    ∈ get_monitored_services
        [("interval", "60"); ("monitor_nginx", "True");
         ("monitor_my_monitor_app", "true"); ("monitor_ssh", "no")] ∧
  (remove_all "my_monitor_app" "monitor_" = "my_monitor_app"
     ↔ contains "monitor_" "my_monitor_app" = false).
Proof.
  apply (monitored_service_name
           [("interval", "60"); ("monitor_nginx", "True");
            ("monitor_my_monitor_app", "true"); ("monitor_ssh", "no")]
           "my_monitor_app" "true").
  - right. right. left.
  - reflexivity.
Defined.

(** The sample section, evaluated: [nginx] is monitored, and the key
    [monitor_my_monitor_app] yields the service [my_app]. *)
Example monitored_services_sample :
  get_monitored_services
    [("interval", "60"); ("monitor_nginx", "True");
     ("monitor_my_monitor_app", "true"); ("monitor_ssh", "no")]
    = ["nginx"; "my_app"].
Proof. vm_compute. reflexivity. Qed.
